(** * Amazon GameLift Streams React starter sample

    A shallow embedding of the parts of the sample that carry behaviour:

    - the reconnect and the get-session Lambda handlers of the session
      gateway (the handlers of [src/unnamed/part_000]),
    - the statistics processor, the stat bars and the polling timer of
      [StatsOverlay.tsx],
    - the session lifecycle controller of [StreamComponent.tsx].

    JavaScript strings are [string]s, standing for their UTF-8 bytes;
    integers (indices, milliseconds, HTTP status codes) are [Z], IEEE 754
    doubles are primitive [float]s, [undefined] is [None]. *)

From Stdlib Require Import ZArith List String Ascii Bool Lia.
From Stdlib Require Import DecimalString DecimalPos DecimalN.
From Stdlib Require Import Floats.PrimFloat Floats.SpecFloat Floats.FloatOps
  Floats.FloatAxioms.
Import ListNotations.

Set Warnings "-inexact-float".  (* decimal literals denote the nearest double, as in JavaScript *)

Local Open Scope string_scope.
Local Open Scope Z_scope.

(* ================================================================== *)
(** * Part I. Definitions *)
(* ================================================================== *)

(** ** JavaScript helpers shared by the three components *)

Module Js.

(** [s.split(sep)] for a separator of one character: the segments of [s]
    between occurrences of [sep], in order; never the empty array. *)
Fixpoint split (sep : ascii) (s : string) : list string :=
  match s with
  | EmptyString => [EmptyString]
  | String c rest =>
      if Ascii.eqb c sep then EmptyString :: split sep rest
      else match split sep rest with
           | [] => [String c EmptyString]
           | seg :: segs => String c seg :: segs
           end
  end.

(** [a[i]] on an array: [undefined] for an index that is negative or past
    the end. *)
Definition index {A} (a : list A) (i : Z) : option A :=
  if i <? 0 then None else nth_error a (Z.to_nat i).

(** [a.length] *)
Definition length {A} (a : list A) : Z := Z.of_nat (List.length a).

(** Does the character occur in the string? *)
Fixpoint occurs (c : ascii) (s : string) : bool :=
  match s with
  | EmptyString => false
  | String d rest => Ascii.eqb d c || occurs c rest
  end.

(** Numbers are IEEE 754 doubles.  [ToBoolean] of a number: [false] for
    [+0], [-0] and [NaN]. *)
Definition truthy (x : float) : bool :=
  match Prim2SF x with
  | S754_zero _ | S754_nan => false
  | S754_infinity _ | S754_finite _ _ _ => true
  end.

(** Is the number [+0] or [-0]? *)
Definition is_zero (x : float) : bool :=
  match Prim2SF x with
  | S754_zero _ => true
  | _ => false
  end.

(** [x || y] on numbers. *)
Definition or_else (x : option float) (y : float) : float :=
  match x with
  | Some v => if truthy v then v else y
  | None => y
  end.

(** An integral number, as [Math.round] returns it.  The sign of a zero
    result is dropped: the program only tests such a value for truthiness
    and renders it. *)
Inductive Integral :=
| Integer (n : Z)
| NotANumber
| Infinite (negative : bool).

(** [floor (m * 2^e + 1/2)] for integers [m] and [e]: the integer nearest
    to [m * 2^e], the larger one on a tie. *)
Definition round_half_up (m e : Z) : Z :=
  if 0 <=? e then m * 2 ^ e
  else (2 * m + 2 ^ (- e)) / (2 * 2 ^ (- e)).

(** [Math.round(x)].  A finite double is [(-1)^s * m * 2^e]. *)
Definition Math_round (x : float) : Integral :=
  match Prim2SF x with
  | S754_zero _ => Integer 0
  | S754_infinity s => Infinite s
  | S754_nan => NotANumber
  | S754_finite s m e => Integer (round_half_up (if s then Z.neg m else Z.pos m) e)
  end.

(** [ToBoolean] of the result of [Math.round], or of [undefined]. *)
Definition truthy_integral (v : option Integral) : bool :=
  match v with
  | Some (Integer n) => negb (n =? 0)
  | Some (Infinite _) => true
  | Some NotANumber | None => false
  end.

(** The decimal digits of a non-negative integer. *)
Definition digits (n : Z) : string :=
  NilZero.string_of_uint (N.to_uint (Z.to_N n)).

(** The text of a number.  [Number.prototype.toString] of a finite double
    of magnitude [10^21] or more (exponent notation) is left symbolic. *)
Inductive NumberText :=
| Text (s : string)
| ToStringOf (x : float).

(** [x.toFixed(2)]: not-a-number and the infinities print by name; a
    magnitude of [10^21] or more prints as [toString] does; otherwise the
    integer [n] nearest to [|x| * 100] (the larger on a tie) is printed
    with a point before its last two digits, after a minus sign for a
    negative [x]. *)
Definition toFixed2 (x : float) : NumberText :=
  match Prim2SF x with
  | S754_nan => Text "NaN"
  | S754_infinity s => Text (if s then "-Infinity" else "Infinity")
  | S754_zero _ => Text "0.00"
  | S754_finite s m e =>
      if (0 <=? e) && (10 ^ 21 <=? Z.pos m * 2 ^ e) then ToStringOf x
      else
        let n := round_half_up (Z.pos m * 100) e in
        Text ((if s then "-" else "")
                ++ digits (n / 100) ++ "."
                ++ digits (n mod 100 / 10) ++ digits (n mod 10))
  end.

(** [ToBoolean] of a string-or-undefined produced by [toFixed]. *)
Definition truthy_text (t : option NumberText) : bool :=
  match t with
  | Some (Text s) => negb (String.eqb s "")
  | Some (ToStringOf _) => true
  | None => false
  end.

(** What [{v || '-'}] renders: the value, or the placeholder. *)
Inductive Rendered (A : Type) :=
| Placeholder
| Shown (a : A).
Arguments Placeholder {A}.
Arguments Shown {A} a.

(** Strings stand for their UTF-8 bytes.  The UTF-8 bytes of a code point
    of the Basic Multilingual Plane. *)
Definition utf8 (cp : N) : string :=
  let byte n := String (ascii_of_N n) "" in
  (if cp <? 0x80 then byte cp
   else if cp <? 0x800 then byte (0xC0 + cp / 0x40) ++ byte (0x80 + cp mod 0x40)
   else byte (0xE0 + cp / 0x1000) ++ byte (0x80 + cp / 0x40 mod 0x40)
          ++ byte (0x80 + cp mod 0x40))%N.

(** The white space and the line terminators of ECMAScript: tab, line feed,
    vertical tab, form feed, carriage return, space, no-break space, the
    other space separators of Unicode, the line and the paragraph separator,
    and the byte order mark. *)
Definition white_space_code_points : list N :=
  [0x9; 0xA; 0xB; 0xC; 0xD; 0x20; 0xA0; 0x1680;
   0x2000; 0x2001; 0x2002; 0x2003; 0x2004; 0x2005; 0x2006; 0x2007; 0x2008;
   0x2009; 0x200A; 0x2028; 0x2029; 0x202F; 0x205F; 0x3000; 0xFEFF]%N.

Definition white_space : list string := map utf8 white_space_code_points.

(** [s] without [p], if it begins with [p]. *)
Fixpoint without_prefix (p s : string) : option string :=
  match p, s with
  | EmptyString, _ => Some s
  | String a p', String b s' =>
      if Ascii.eqb a b then without_prefix p' s' else None
  | String _ _, EmptyString => None
  end.

(** [s] without the one of [seqs] it begins with, if it begins with one. *)
Fixpoint without_leading (seqs : list string) (s : string) : option string :=
  match seqs with
  | [] => None
  | p :: others =>
      match without_prefix p s with
      | Some rest => Some rest
      | None => without_leading others s
      end
  end.

(** [s] without the [seqs] it begins with, one after another; [fuel] counts
    the ones taken off. *)
Fixpoint drop_leading (seqs : list string) (fuel : nat) (s : string) : string :=
  match fuel with
  | O => s
  | S fuel' =>
      match without_leading seqs s with
      | Some rest => drop_leading seqs fuel' rest
      | None => s
      end
  end.

Definition reverse (s : string) : string :=
  string_of_list_ascii (rev (list_ascii_of_string s)).

(** [s.trimStart()]: no more characters are taken off than [s] has bytes. *)
Definition trimStart (s : string) : string :=
  drop_leading white_space (String.length s) s.

(** [s.trimEnd()] *)
Definition trimEnd (s : string) : string :=
  reverse (drop_leading (map reverse white_space) (String.length s) (reverse s)).

(** [s.trim()] *)
Definition trim (s : string) : string := trimEnd (trimStart s).

End Js.

(** ** Stats processor ([StatsOverlay.tsx]) *)

Module Stats.

Import Js.

(** One entry of the [RTCStatsReport] that [getVideoRTCStats] resolves
    with: the [type] discriminator and the fields [processStats] reads. *)
Record Report := {
  type : string;
  state : option string;
  framesPerSecond : option float;
  jitter : option float;
  bytesReceived : option float;
  currentRoundTripTime : option float
}.

(** [interface NetworkStats] *)
Record NetworkStats := {
  rtt : option Integral;
  ns_jitter : option Integral;
  bitrate : option NumberText
}.

(** [previousBytesReceivedRef.current] and [previousTimestampRef.current] *)
Record Refs := {
  previousBytesReceived : float;
  previousTimestamp : float
}.

(** The component's state that [processStats] reads and sets. *)
Record Overlay := {
  networkStats : NetworkStats;
  frameRate : option Integral;
  refs : Refs
}.

(** [useState({})], [useState(undefined)], [useRef(0)], [useRef(0)] *)
Definition initial : Overlay :=
  {| networkStats := {| rtt := None; ns_jitter := None; bitrate := None |};
     frameRate := None;
     refs := {| previousBytesReceived := 0; previousTimestamp := 0 |} |}.

(** The locals of one [processStats] run.  [reads] counts the calls of
    [Date.now()] made so far in the run: the [n]-th call returns
    [clock n]. *)
Record Locals := {
  newNetworkStats : NetworkStats;
  newFrameRate : option Integral;
  cur : Refs;
  reads : nat
}.

Section ProcessStats.

(** [Date.now()], by the number of earlier calls in this run. *)
Variable clock : nat -> float.

(** [if (!previousBytesReceivedRef.current) { ... }] *)
Definition init_tracking (l : Locals) : Locals :=
  if negb (truthy (previousBytesReceived (cur l))) then
    {| newNetworkStats := newNetworkStats l;
       newFrameRate := newFrameRate l;
       cur := {| previousBytesReceived := 0;
                 previousTimestamp := clock (reads l) |};
       reads := S (reads l) |}
  else l.

Definition is_inbound (report : Report) : bool :=
  (String.eqb (type report) "inbound-rtp"
   && match framesPerSecond report with Some _ => true | None => false end)%bool.

Definition is_succeeded_pair (report : Report) : bool :=
  (String.eqb (type report) "candidate-pair"
   && match state report with
      | Some st => String.eqb st "succeeded"
      | None => false
      end)%bool.

(** [report.X ? Math.round(report.X * 1000) : undefined] *)
Definition to_ms (x : option float) : option Integral :=
  match x with
  | Some v => if truthy v then Some (Math_round (v * 1000)%float) else None
  | None => None
  end.

(** [((bytesDiff * 8) / timeDiff / 1000000).toFixed(2)] with
    [timeDiff = (now - previousTimestamp) / 1000] and
    [bytesDiff = bytesReceived - previousBytesReceived]. *)
Definition bitrate_text (bytes prevBytes now prevTs : float) : NumberText :=
  let timeDiff := ((now - prevTs) / 1000)%float in
  let bytesDiff := (bytes - prevBytes)%float in
  toFixed2 (((bytesDiff * 8) / timeDiff) / 1000000)%float.

(** The first [if] of the [forEach] callback. *)
Definition on_inbound (report : Report) (l : Locals) : Locals :=
  if String.eqb (type report) "inbound-rtp" then
    match framesPerSecond report with
    | Some fps =>
        let prevBytes := previousBytesReceived (cur l) in
        (* [if (report.bytesReceived && previousBytesReceivedRef.current)]:
           the text of the bitrate and the reading of [Date.now()] *)
        let rate :=
          match bytesReceived report with
          | Some bytes =>
              if (truthy bytes && truthy prevBytes)%bool then
                let now := clock (reads l) in
                Some (bitrate_text bytes prevBytes now (previousTimestamp (cur l)),
                      now)
              else None
          | None => None
          end in
        {| newNetworkStats :=
             {| rtt := rtt (newNetworkStats l);
                ns_jitter := to_ms (jitter report);
                bitrate := match rate with
                           | Some (text, _) => Some text
                           | None => bitrate (newNetworkStats l)
                           end |};
           newFrameRate := Some (Math_round fps);
           cur := {| previousBytesReceived := or_else (bytesReceived report) 0;
                     previousTimestamp := match rate with
                                          | Some (_, now) => now
                                          | None => previousTimestamp (cur l)
                                          end |};
           reads := match rate with
                    | Some _ => S (reads l)
                    | None => reads l
                    end |}
    | None => l
    end
  else l.

(** The second [if] of the [forEach] callback. *)
Definition on_candidate_pair (report : Report) (l : Locals) : Locals :=
  if is_succeeded_pair report then
    {| newNetworkStats :=
         {| rtt := to_ms (currentRoundTripTime report);
            ns_jitter := ns_jitter (newNetworkStats l);
            bitrate := bitrate (newNetworkStats l) |};
       newFrameRate := newFrameRate l;
       cur := cur l;
       reads := reads l |}
  else l.

(** The callback of [stats.forEach]. *)
Definition on_report (l : Locals) (report : Report) : Locals :=
  on_candidate_pair report (on_inbound report l).

(** [processStats(stats)], run on the component state [o] its closure
    captured and on the current refs. *)
Definition processStats (o : Overlay) (stats : list Report) : Overlay :=
  let l0 := init_tracking
              {| newNetworkStats := networkStats o;
                 newFrameRate := frameRate o;
                 cur := refs o;
                 reads := 0 |} in
  let l := fold_left on_report stats l0 in
  {| networkStats := newNetworkStats l;
     frameRate := newFrameRate l;
     refs := cur l |}.

(** One tick of the interval timer that goes on to [processStats] (the
    SDK object is there, the overlay was visible in the render that armed
    the timer, and [getVideoRTCStats()] is fulfilled with [stats]).  The
    callback, and with it [processStats], is the one of the render that
    armed the timer: it starts from the [networkStats] and the [frameRate]
    of that render, [armed], whatever the overlay shows by now; the refs
    are the current ones. *)
Definition tick (armed o : Overlay) (stats : list Report) : Overlay :=
  processStats {| networkStats := networkStats armed;
                  frameRate := frameRate armed;
                  refs := refs o |}
               stats.

End ProcessStats.

(** [const fps = frameRate || '-'] *)
Definition fps (o : Overlay) : Rendered Integral :=
  match frameRate o with
  | Some v => if truthy_integral (Some v) then Shown v else Placeholder
  | None => Placeholder
  end.

(** [{networkStats.rtt || '-'} ms] *)
Definition rtt_text (o : Overlay) : Rendered Integral :=
  match rtt (networkStats o) with
  | Some v => if truthy_integral (Some v) then Shown v else Placeholder
  | None => Placeholder
  end.

(** [{networkStats.jitter || '-'} ms] *)
Definition jitter_text (o : Overlay) : Rendered Integral :=
  match ns_jitter (networkStats o) with
  | Some v => if truthy_integral (Some v) then Shown v else Placeholder
  | None => Placeholder
  end.

(** [{networkStats.bitrate || '-'} mbps] *)
Definition bitrate_shown (o : Overlay) : Rendered NumberText :=
  match bitrate (networkStats o) with
  | Some t => if truthy_text (Some t) then Shown t else Placeholder
  | None => Placeholder
  end.

(** An inbound video report and a succeeded candidate pair, for examples. *)
Definition inbound (fps jit bytes : option float) : Report :=
  {| type := "inbound-rtp"; state := None; framesPerSecond := fps;
     jitter := jit; bytesReceived := bytes; currentRoundTripTime := None |}.

Definition candidate_pair (st : string) (t : option float) : Report :=
  {| type := "candidate-pair"; state := Some st; framesPerSecond := None;
     jitter := None; bytesReceived := None; currentRoundTripTime := t |}.

End Stats.

(** ** Session gateway: the reconnect handler *)

Module Gateway.

(** [JSON.parse(event.body)] of [POST /reconnect]. *)
Record ReconnectBody := {
  SessionIdentifier : string;
  SignalRequest : string
}.

(** The input of [gameLiftStreams.createStreamSessionConnection]. *)
Record ConnectionInput := {
  Identifier : option string;
  StreamSessionIdentifier : string;
  ConnectionSignalRequest : string
}.

(** What the control plane answers: the promise resolves with an output
    whose [SignalResponse] may be absent, or rejects with an error that
    carries a message. *)
Inductive SdkResult :=
| Resolved (SignalResponse : option string)
| Rejected (message : string).

(** The JSON object the handler serialises into the response body. *)
Inductive ResponseBody :=
| SignalBody (signalResponse : string)
| MessageBody (message : string).

Record HttpResponse := {
  statusCode : Z;
  body : ResponseBody
}.

Definition slash : ascii := "/"%char.

(** [const parts = body.SessionIdentifier.split("/")]
    [const sg_arn = parts[parts.length - 2]] *)
Definition sg_arn (sessionIdentifier : string) : option string :=
  let parts := Js.split slash sessionIdentifier in
  Js.index parts (Js.length parts - 2).

(** The request the handler sends to the control plane. *)
Definition connection_input (b : ReconnectBody) : ConnectionInput :=
  {| Identifier := sg_arn (SessionIdentifier b);
     StreamSessionIdentifier := SessionIdentifier b;
     ConnectionSignalRequest := SignalRequest b |}.

(** [exports.handler] of the reconnect Lambda, with the control-plane
    client as an argument.  Returns the request that was sent together
    with the HTTP response. *)
Definition handler (createStreamSessionConnection : ConnectionInput -> SdkResult)
           (b : ReconnectBody) : ConnectionInput * HttpResponse :=
  let input := connection_input b in
  match createStreamSessionConnection input with
  | Resolved sr =>
      (input, {| statusCode := 200;
                 body := SignalBody (match sr with Some r => r | None => "" end) |})
  | Rejected msg =>
      (input, {| statusCode := 500; body := MessageBody msg |})
  end.

(** The spec's wording, for comparison: the second-to-last segment of the
    [/]-delimited path. *)
Definition second_to_last_segment (arn : string) : option string :=
  nth_error (rev (Js.split slash arn)) 1.

Definition spec_example_arn : string :=
  "arn:aws:svc:us-west-2:111122223333:streamgroup/sg-abc/streamsession/sess-1".

Definition service_form_arn : string :=
  "arn:aws:svc:us-west-2:111122223333:streamsession/sg-abc/sess-1".

End Gateway.

(** ** Session lifecycle controller ([StreamComponent.tsx])

    The component instance, its handlers and the outside they talk to.
    Console output is left out, and of [render()] all but the handlers it
    offers; of the document only the video element, full screen and the
    keyboard lock appear. *)

Module Controller.

(** [enum StreamState] *)
Inductive StreamState := STOPPED | LOADING | RUNNING | ERROR.

(** [interface StreamComponentState] *)
Record StreamComponentState := {
  status : StreamState;
  sgId : string;
  appId : string;
  sessionId : string;
  lastSessionId : string;
  regions : list string;
  inputEnabled : bool;
  isStreamStarting : bool
}.

(** [this.state] as the constructor leaves it. *)
Definition constructed_state : StreamComponentState :=
  {| status := STOPPED; sgId := ""; appId := ""; sessionId := "";
     lastSessionId := ""; regions := ["us-west-2"];
     inputEnabled := false; isStreamStarting := false |}.

(** The partial updates the component passes to [setState]. *)
Definition set_status (v : StreamState) (s : StreamComponentState) :=
  {| status := v; sgId := sgId s; appId := appId s; sessionId := sessionId s;
     lastSessionId := lastSessionId s; regions := regions s;
     inputEnabled := inputEnabled s; isStreamStarting := isStreamStarting s |}.

Definition set_sgId (v : string) (s : StreamComponentState) :=
  {| status := status s; sgId := v; appId := appId s; sessionId := sessionId s;
     lastSessionId := lastSessionId s; regions := regions s;
     inputEnabled := inputEnabled s; isStreamStarting := isStreamStarting s |}.

Definition set_appId (v : string) (s : StreamComponentState) :=
  {| status := status s; sgId := sgId s; appId := v; sessionId := sessionId s;
     lastSessionId := lastSessionId s; regions := regions s;
     inputEnabled := inputEnabled s; isStreamStarting := isStreamStarting s |}.

Definition set_sessionId (v : string) (s : StreamComponentState) :=
  {| status := status s; sgId := sgId s; appId := appId s; sessionId := v;
     lastSessionId := lastSessionId s; regions := regions s;
     inputEnabled := inputEnabled s; isStreamStarting := isStreamStarting s |}.

Definition set_lastSessionId (v : string) (s : StreamComponentState) :=
  {| status := status s; sgId := sgId s; appId := appId s;
     sessionId := sessionId s; lastSessionId := v; regions := regions s;
     inputEnabled := inputEnabled s; isStreamStarting := isStreamStarting s |}.

Definition set_regions (v : list string) (s : StreamComponentState) :=
  {| status := status s; sgId := sgId s; appId := appId s;
     sessionId := sessionId s; lastSessionId := lastSessionId s; regions := v;
     inputEnabled := inputEnabled s; isStreamStarting := isStreamStarting s |}.

Definition set_inputEnabled (v : bool) (s : StreamComponentState) :=
  {| status := status s; sgId := sgId s; appId := appId s;
     sessionId := sessionId s; lastSessionId := lastSessionId s;
     regions := regions s; inputEnabled := v;
     isStreamStarting := isStreamStarting s |}.

Definition set_isStreamStarting (v : bool) (s : StreamComponentState) :=
  {| status := status s; sgId := sgId s; appId := appId s;
     sessionId := sessionId s; lastSessionId := lastSessionId s;
     regions := regions s; inputEnabled := inputEnabled s;
     isStreamStarting := v |}.

(** A [GameLiftStreams] object, named by the number of objects constructed
    before it. *)
Definition Handle := nat.

(** A body text, by what [JSON.parse] makes of it: the parsed data, or,
    for a text that is not JSON, the message of the [SyntaxError]. *)
Inductive Parsed (A : Type) :=
| Json (data : A)
| Malformed (message : string).
Arguments Json {A} data.
Arguments Malformed {A} message.

(** What [JSON.parse] makes of the body of an error response: [null], or
    another value, given by its [message] member as a template literal
    prints it ([None] for a value that has none). *)
Inductive ErrorData :=
| JsonNull
| WithMessage (message : option string).

(** [e.response] of an [ApiError]: the status code and the body text, which
    may be absent. *)
Record ErrorResponse := {
  statusCode : Z;
  body : option (Parsed ErrorData)
}.

(** The values that have no properties. *)
Inductive Nothing := null | undefined.

(** What a rejected promise or a [throw] carries: an [ApiError], with or
    without a response; [null] or [undefined]; the [SyntaxError] of
    [JSON.parse] or the [TypeError] of reading a property of [null] or
    [undefined], with their messages; or any other value, with its
    [message] member as a template literal prints it (the empty string for
    a value that has none). *)
Inductive Thrown :=
| ApiError (response : option ErrorResponse)
| Error (message : string)
| SyntaxError (message : string)
| TypeError (message : string)
| Nullish (value : Nothing).

(** The message of the [TypeError] for [x.message] with [x] null or
    undefined, in the words of V8. *)
Definition cannot_read_message (x : Nothing) : string :=
  "Cannot read properties of "
    ++ match x with null => "null" | undefined => "undefined" end
    ++ " (reading 'message')".

(** The empty text, which is not JSON. *)
Definition empty_text {A} : Parsed A := Malformed "Unexpected end of JSON input".

(** A promise settles. *)
Inductive Settled (A : Type) :=
| Fulfilled (value : A)
| Rejected (reason : Thrown).
Arguments Fulfilled {A} value.
Arguments Rejected {A} reason.

(** ... after some milliseconds. *)
Record Timed (A : Type) := {
  took : N;
  outcome : A
}.
Arguments took {A} t.
Arguments outcome {A} t.

(** The body of a 2xx answer to [POST /] and to [GET /session/{sg}/{arn}],
    as the gateway serialises it. *)
Record SessionData := {
  signalResponse : string;
  arn : string;
  region : option string;
  session_status : option string
}.

(** The body of a 2xx answer to [POST /reconnect]. *)
Record ConnectionData := {
  connection_signalResponse : string
}.

(** The request bodies. *)
Inductive Payload :=
| StartPayload (AppIdentifier SGIdentifier SignalRequest : string)
               (Regions : list string)
| ReconnectPayload (SessionIdentifier SignalRequest : string).

(** What the component does to the outside, and [setState] with the state it
    leaves. *)
Inductive Event :=
| SetState (s : StreamComponentState)
| NewGameLiftStreams (h : Handle)
| GenerateSignalRequest (h : Handle)
| ProcessSignalResponse (h : Handle) (signalResponse : string)
| AttachInput (h : Handle)
| Close (h : Handle)
| FetchAuthSession
| Post (path authorization : string) (payload : Payload)
| Get (sg arn authorization : string)
| SetTimeout (ms : Z)
| Alert (text : string)
| RequestFullscreen
| ExitFullscreen
| KeyboardLock.

(** The component instance and its surroundings: [this.state],
    [this.gameliftstreams], the number of [GameLiftStreams] objects
    constructed so far, [Date.now()], whether [document.fullscreenElement]
    is set, and the events so far with their times, latest first. *)
Record World := {
  state : StreamComponentState;
  gameliftstreams : option Handle;
  constructed : nat;
  now : Z;
  fullscreenElement : bool;
  trace : list (Z * Event)
}.

(** The instance after the constructor, before it is mounted.  The clock
    starts at [t0]. *)
Definition constructed_world (t0 : Z) : World :=
  {| state := constructed_state; gameliftstreams := None; constructed := 0;
     now := t0; fullscreenElement := false; trace := [] |}.

(** How the outside behaves during one invocation of a method: what each
    awaited promise settles with and after how long, how late each timer
    fires, and what the document offers. *)
Record Env := {
  (* [generateSignalRequest()] *)
  offer : Timed (Settled string);
  (* [fetchAuthSession()] before the [POST]: the text of the id token *)
  post_auth : Timed (Settled (option string));
  (* the response of [POST /], body text read and parsed: two [await]s
     with nothing done in between, taken as one.  A body that parses to
     [null] makes the next statement, which reads a member of it, throw a
     [TypeError] inside the same [try] with nothing done in between: it
     stands as a response rejected with that error; so for the other
     responses *)
  start_response : Timed (Settled (Parsed SessionData));
  (* the response of [POST /reconnect] *)
  reconnect_response : Timed (Settled (Parsed ConnectionData));
  (* [fetchAuthSession()] of the [i]-th poll *)
  get_auth : nat -> Timed (Settled (option string));
  (* the response of the [i]-th [GET /session/{sg}/{arn}] *)
  get_response : nat -> Timed (Settled (Parsed SessionData));
  (* how late the timer of the [i]-th poll fires *)
  timer_lateness : nat -> N;
  (* [processSignalResponse(signalResponse)] *)
  answer : string -> Timed (Settled unit);
  (* [document.getElementById('StreamVideoElement')] finds the element *)
  videoElement : bool;
  (* the browser grants [requestFullscreen()] *)
  fullscreenGranted : bool;
  (* [navigator.keyboard] is there *)
  keyboard : bool
}.

(** How a run of a method ends.  [OutOfFuel] is the model's own: a loop
    that was given too few iterations. *)
Inductive Outcome (A : Type) :=
| Returned (a : A)
| Threw (e : Thrown)
| OutOfFuel.
Arguments Returned {A} a.
Arguments Threw {A} e.
Arguments OutOfFuel {A}.

(** A run of asynchronous code, up to its end or up to its next [await]:
    there it leaves the world [w] and waits [ms] milliseconds or more for
    the promise to settle; [k] is the rest of the run, from the world as it
    is by then.  Whatever else runs in between has changed that world. *)
Inductive Res (A : Type) :=
| Fin (o : Outcome A) (w : World)
| Yield (w : World) (ms : N) (k : World -> Res A).
Arguments Fin {A} o w.
Arguments Yield {A} w ms k.

(** Code that runs on the world. *)
Definition M (A : Type) : Type := World -> Res A.

Definition ret {A} (a : A) : M A := fun w => Fin (Returned a) w.

Definition throw {A} (e : Thrown) : M A := fun w => Fin (Threw e) w.

Fixpoint and_then {A B} (r : Res A) (k : A -> M B) : Res B :=
  match r with
  | Fin (Returned a) w => k a w
  | Fin (Threw e) w => Fin (Threw e) w
  | Fin OutOfFuel w => Fin OutOfFuel w
  | Yield w ms rest => Yield w ms (fun w' => and_then (rest w') k)
  end.

Definition bind {A B} (m : M A) (k : A -> M B) : M B :=
  fun w => and_then (m w) k.

Fixpoint caught {A} (r : Res A) (handler : Thrown -> M A) : Res A :=
  match r with
  | Fin (Threw e) w => handler e w
  | Fin o w => Fin o w
  | Yield w ms rest => Yield w ms (fun w' => caught (rest w') handler)
  end.

(** [try { m } catch (e) { handler(e) }] *)
Definition try_catch {A} (m : M A) (handler : Thrown -> M A) : M A :=
  fun w => caught (m w) handler.

Declare Scope controller_scope.
Delimit Scope controller_scope with controller.
Notation "x <- m ;; k" := (bind m (fun x => k))
  (at level 61, m at next level, right associativity) : controller_scope.
Notation "m ;; k" := (bind m (fun _ => k))
  (at level 61, right associativity) : controller_scope.
Local Open Scope controller_scope.

(** *** Primitives *)

Definition record (e : Event) (w : World) : World :=
  {| state := state w; gameliftstreams := gameliftstreams w;
     constructed := constructed w; now := now w;
     fullscreenElement := fullscreenElement w;
     trace := (now w, e) :: trace w |}.

Definition elapse (ms : N) (w : World) : World :=
  {| state := state w; gameliftstreams := gameliftstreams w;
     constructed := constructed w; now := now w + Z.of_N ms;
     fullscreenElement := fullscreenElement w; trace := trace w |}.

Definition log (e : Event) : M unit := fun w => Fin (Returned tt) (record e w).

(** [await p] for a promise that settles as [p] says. *)
Definition await {A} (p : Timed (Settled A)) : M A :=
  fun w =>
    Yield w (took p)
      (fun w' =>
         match outcome p with
         | Fulfilled v => Fin (Returned v) w'
         | Rejected e => Fin (Threw e) w'
         end).

(** The run of code that nothing interrupts: every [await] resumes in the
    world it left, the time of the wait later. *)
Fixpoint seq {A} (r : Res A) : Outcome A * World :=
  match r with
  | Fin o w => (o, w)
  | Yield w ms k => seq (k (elapse ms w))
  end.

Definition alone {A} (m : M A) (w : World) : Outcome A * World := seq (m w).

(** [this.state] *)
Definition getState : M StreamComponentState :=
  fun w => Fin (Returned (state w)) w.

Definition with_state (s : StreamComponentState) (w : World) : World :=
  {| state := s; gameliftstreams := gameliftstreams w;
     constructed := constructed w; now := now w;
     fullscreenElement := fullscreenElement w; trace := trace w |}.

(** [this.setState(update)] *)
Definition setState (update : StreamComponentState -> StreamComponentState)
  : M unit :=
  fun w =>
    let s := update (state w) in
    Fin (Returned tt) (record (SetState s) (with_state s w)).

(** [Date.now()] *)
Definition Date_now : M Z := fun w => Fin (Returned (now w)) w.

(** [alert(text)] *)
Definition alert (text : string) : M unit := log (Alert text).

(** [await new Promise(resolve => setTimeout(resolve, ms))], with a timer
    that fires [late] ms after it is due. *)
Definition sleep (ms late : N) : M unit :=
  fun w =>
    Yield (record (SetTimeout (Z.of_N ms)) w) ms
      (fun w1 => Yield w1 late (fun w2 => Fin (Returned tt) w2)).

(** [JSON.parse(text)] *)
Definition JSON_parse {A} (text : Parsed A) : M A :=
  match text with
  | Json data => ret data
  | Malformed message => throw (SyntaxError message)
  end.

(** The text of an integer in a template literal. *)
Definition number_text (z : Z) : string :=
  if z <? 0 then "-" ++ Js.digits (- z) else Js.digits z.

Section Methods.

(** The outside during the invocation. *)
Variable env : Env.

(** [this.gameliftstreams] *)
Definition this_gameliftstreams : M (option Handle) :=
  fun w => Fin (Returned (gameliftstreams w)) w.

(** [resetGameLiftStreamsSDK()]: [this.gameliftstreams = new GameLiftStreams(...)] *)
Definition resetGameLiftStreamsSDK : M unit :=
  fun w =>
    let h := constructed w in
    Fin (Returned tt)
      (record (NewGameLiftStreams h)
         {| state := state w; gameliftstreams := Some h; constructed := S h;
            now := now w; fullscreenElement := fullscreenElement w;
            trace := trace w |}).

(** [componentDidMount()] *)
Definition componentDidMount : M unit := resetGameLiftStreamsSDK.

(** [await this.gameliftstreams?.generateSignalRequest()] *)
Definition generateSignalRequest : M (option string) :=
  g <- this_gameliftstreams ;;
  match g with
  | Some h =>
      log (GenerateSignalRequest h) ;;
      signalRequest <- await (offer env) ;;
      ret (Some signalRequest)
  | None => ret None
  end.

(** [await this.gameliftstreams?.processSignalResponse(signalResponse)] *)
Definition processSignalResponse (signalResponse : string) : M unit :=
  g <- this_gameliftstreams ;;
  match g with
  | Some h =>
      log (ProcessSignalResponse h signalResponse) ;;
      await (answer env signalResponse)
  | None => ret tt
  end.

(** [this.gameliftstreams?.attachInput()] *)
Definition attachInput : M unit :=
  g <- this_gameliftstreams ;;
  match g with
  | Some h => log (AttachInput h)
  | None => ret tt
  end.

(** [this.gameliftstreams?.close()] *)
Definition close : M unit :=
  g <- this_gameliftstreams ;;
  match g with
  | Some h => log (Close h)
  | None => ret tt
  end.

(** [x || 'Unknown error'] *)
Definition or_unknown (message : option string) : string :=
  match message with
  | Some m => if String.eqb m "" then "Unknown error" else m
  | None => "Unknown error"
  end.

(** [handleError(e)].  The text of an alert is put together before
    [alert] is called: reading [message] of [null] or [undefined] throws
    after the [setState] and before the alert. *)
Definition handleError (e : Thrown) : M unit :=
  match e with
  | ApiError (Some response) =>
      (* [JSON.parse(body ?? '')] *)
      data <- JSON_parse (match body response with
                          | Some text => text
                          | None => empty_text
                          end) ;;
      setState (set_isStreamStarting false) ;;
      match data with
      | WithMessage message =>
          alert ("Error: " ++ number_text (statusCode response) ++ " - "
                   ++ or_unknown message ++ ". Check console for details.")
      | JsonNull => throw (TypeError (cannot_read_message null))
      end
  | ApiError None => ret tt
  | Nullish x =>
      setState (set_isStreamStarting false) ;;
      throw (TypeError (cannot_read_message x))
  | Error message | SyntaxError message | TypeError message =>
      setState (set_isStreamStarting false) ;;
      alert ("Error: " ++ or_unknown (Some message)
               ++ ". Check console for details.")
  end.

(** [handleTimeout(arn)] *)
Definition timeout_alert : Event :=
  Alert "Error: Stream session creation timed out. Check console for details.".

Definition handleTimeout (arn : string) : M unit := log timeout_alert.

(** [`Bearer ${(await fetchAuthSession()).tokens?.idToken?.toString()}`] *)
Definition authorization (token : option string) : string :=
  "Bearer " ++ match token with Some t => t | None => "undefined" end.

Definition bearer (auth : Timed (Settled (option string))) : M string :=
  log FetchAuthSession ;;
  token <- await auth ;;
  ret (authorization token).

(** [startStream(signalResponse)] *)
Definition startStream (signalResponse : string) : M unit :=
  processSignalResponse signalResponse ;;
  attachInput ;;
  setState (fun prevState =>
              set_isStreamStarting false (set_status RUNNING prevState)).

(** How an iteration of the poll loop ends: with [return], or at the end of
    the loop body. *)
Inductive Flow := Return | Continue.

(** The body of the [while] loop of [waitForACTIVE], in its [i]-th
    iteration. *)
Definition poll (arn sg : string) (i : nat) : M Flow :=
  try_catch
    (authorization <- bearer (get_auth env i) ;;
     log (Get sg arn authorization) ;;
     text <- await (get_response env i) ;;
     data <- JSON_parse text ;;
     if match session_status data with
        | Some st => String.eqb st "ACTIVE"
        | None => false
        end
     then
       startStream (signalResponse data) ;;
       setState (set_lastSessionId arn) ;;
       ret Return
     else
       sleep 1000 (timer_lateness env i) ;;
       ret Continue)
    (fun e =>
       handleError e ;;
       setState (set_isStreamStarting false) ;;
       ret Return).

(** The [while] loop of [waitForACTIVE] and what follows it, from the
    [i]-th iteration on. *)
Fixpoint poll_loop (fuel : nat) (arn sg : string) (startTime timeoutMs : Z)
         (i : nat) : M unit :=
  match fuel with
  | O => fun w => Fin OutOfFuel w
  | S fuel' =>
      t <- Date_now ;;
      if t - startTime <? timeoutMs then
        flow <- poll arn sg i ;;
        match flow with
        | Return => ret tt
        | Continue => poll_loop fuel' arn sg startTime timeoutMs (S i)
        end
      else
        handleTimeout arn ;;
        setState (set_isStreamStarting false)
  end.

(** Iterations that suffice: every iteration that does not return waits
    1000 ms or more. *)
Definition poll_fuel (timeoutMs : Z) : nat := Z.to_nat (timeoutMs / 1000) + 2.

(** [waitForACTIVE(arn, sg, timeoutMs)] *)
Definition waitForACTIVE (arn sg : string) (timeoutMs : Z) : M unit :=
  startTime <- Date_now ;;
  poll_loop (poll_fuel timeoutMs) arn sg startTime timeoutMs 0.

(** The default of [timeoutMs]. *)
Definition default_timeoutMs : Z := 600000.

(** [createStreamSession()] *)
Definition createStreamSession : M unit :=
  setState (set_isStreamStarting true) ;;
  signalRequest <- generateSignalRequest ;;
  s <- getState ;;
  let payload :=
    StartPayload (appId s) (sgId s)
                 (match signalRequest with Some r => r | None => "" end)
                 (regions s) in
  try_catch
    (authorization <- bearer (post_auth env) ;;
     log (Post "/" authorization payload) ;;
     text <- await (start_response env) ;;
     data <- JSON_parse text ;;
     s' <- getState ;;
     waitForACTIVE (arn data) (sgId s') default_timeoutMs)
    handleError.

(** [createStreamSessionConnection()] *)
Definition createStreamSessionConnection : M unit :=
  setState (set_isStreamStarting true) ;;
  signalRequest <- generateSignalRequest ;;
  s <- getState ;;
  let payload :=
    ReconnectPayload (sessionId s)
                     (match signalRequest with Some r => r | None => "" end) in
  try_catch
    (authorization <- bearer (post_auth env) ;;
     log (Post "/reconnect" authorization payload) ;;
     text <- await (reconnect_response env) ;;
     data <- JSON_parse text ;;
     startStream (connection_signalResponse data))
    handleError.

(** [document.exitFullscreen()]; the document is taken to follow at once. *)
Definition exitFullscreen : M unit :=
  fun w =>
    Fin (Returned tt)
      (record ExitFullscreen
         {| state := state w; gameliftstreams := gameliftstreams w;
            constructed := constructed w; now := now w;
            fullscreenElement := false; trace := trace w |}).

(** [element.requestFullscreen()]; the document follows at once, if the
    browser grants it. *)
Definition requestFullscreen : M unit :=
  fun w =>
    Fin (Returned tt)
      (record RequestFullscreen
         {| state := state w; gameliftstreams := gameliftstreams w;
            constructed := constructed w; now := now w;
            fullscreenElement := (fullscreenGranted env || fullscreenElement w)%bool;
            trace := trace w |}).

(** [closeConnection()] *)
Definition closeConnection : M unit :=
  setState (fun s => set_inputEnabled false (set_status STOPPED s)) ;;
  close ;;
  resetGameLiftStreamsSDK ;;
  setState (set_isStreamStarting false) ;;
  fun w => if fullscreenElement w then exitFullscreen w else ret tt w.

(** [enableFullScreen()] *)
Definition enableFullScreen : M unit :=
  if videoElement env then
    attachInput ;;
    setState (set_inputEnabled true) ;;
    requestFullscreen ;;
    if keyboard env then log KeyboardLock else ret tt
  else ret tt.

(** The inputs that [render()] wires to [handleInputChange], by name. *)
Inductive InputName := input_sgId | input_appId | input_sessionId.

(** [handleInputChange(event)] with [event.target] the named input. *)
Definition handleInputChange (name : InputName) (value : string) : M unit :=
  setState (match name with
            | input_sgId => set_sgId (Js.trim value)
            | input_appId => set_appId (Js.trim value)
            | input_sessionId => set_sessionId (Js.trim value)
            end).

(** [handleRegionChange(event)] *)
Definition handleRegionChange (region : string) : M unit :=
  setState (set_regions [region]).

End Methods.

(** What the user can start: the handlers [render()] wires to the buttons
    and inputs. *)
Inductive Op :=
| CreateStreamSession
| CreateStreamSessionConnection
| CloseConnection
| EnableFullScreen
| HandleInputChange (name : InputName) (value : string)
| HandleRegionChange (region : string).

Definition run_op (env : Env) (op : Op) : M unit :=
  match op with
  | CreateStreamSession => createStreamSession env
  | CreateStreamSessionConnection => createStreamSessionConnection env
  | CloseConnection => closeConnection
  | EnableFullScreen => enableFullScreen env
  | HandleInputChange name value => handleInputChange name value
  | HandleRegionChange region => handleRegionChange region
  end.

(** The component once mounted. *)
Definition mounted (t0 : Z) : World :=
  snd (alone componentDidMount (constructed_world t0)).

(** *** Handlers in flight together *)

(** A handler that waits at an [await]: which handler it is and the
    outside it meets, when its promise settles, and the rest of its run. *)
Record Task := {
  of_op : Op;
  of_env : Env;
  ready_at : Z;
  resume : World -> Res unit
}.

(** The component with the handlers that are in flight, and how the
    handlers that are not in flight any more have ended. *)
Record System := {
  world : World;
  tasks : list Task;
  ended : list (Outcome unit)
}.

(** What happens next: the user starts a handler, the outside behaving
    towards it as [env] says; or the [i]-th handler in flight goes on, [late]
    ms after its promise could have settled; or [ms] milliseconds pass. *)
Inductive Action :=
| Start (op : Op) (env : Env)
| Resume (i : nat) (late : N)
| Wait (ms : N).

(** The clock moved on to [t], if that is later. *)
Definition at_time (t : Z) (w : World) : World :=
  {| state := state w; gameliftstreams := gameliftstreams w;
     constructed := constructed w; now := Z.max (now w) t;
     fullscreenElement := fullscreenElement w; trace := trace w |}.

(** A run that has come to its end or to an [await] leaves its world, and
    at an [await] a handler in flight. *)
Definition settle (op : Op) (env : Env) (r : Res unit) (others : list Task)
           (outcomes : list (Outcome unit)) : System :=
  match r with
  | Fin o w => {| world := w; tasks := others; ended := o :: outcomes |}
  | Yield w ms k =>
      {| world := w;
         tasks := {| of_op := op; of_env := env;
                     ready_at := now w + Z.of_N ms; resume := k |} :: others;
         ended := outcomes |}
  end.

Fixpoint without {A} (i : nat) (l : list A) : list A :=
  match i, l with
  | _, [] => []
  | O, _ :: rest => rest
  | S i', x :: rest => x :: without i' rest
  end.

Definition step (s : System) (a : Action) : System :=
  match a with
  | Start op env => settle op env (run_op env op (world s)) (tasks s) (ended s)
  | Resume i late =>
      match nth_error (tasks s) i with
      | Some t =>
          settle (of_op t) (of_env t)
                 (resume t (at_time (ready_at t + Z.of_N late) (world s)))
                 (without i (tasks s)) (ended s)
      | None => s
      end
  | Wait ms =>
      {| world := elapse ms (world s); tasks := tasks s; ended := ended s |}
  end.

(** The component after a schedule of such steps, from its mounting. *)
Definition interleaved (schedule : list Action) (t0 : Z) : System :=
  fold_left step schedule {| world := mounted t0; tasks := []; ended := [] |}.

(** The handler that a step runs, and the outside it meets. *)
Definition acting (s : System) (a : Action) : option (Op * Env) :=
  match a with
  | Start op env => Some (op, env)
  | Resume i _ =>
      match nth_error (tasks s) i with
      | Some t => Some (of_op t, of_env t)
      | None => None
      end
  | Wait _ => None
  end.

(** *** What a run does between its [await]s

    A run goes on from [w0], where it started or resumed.  It is resumed
    only in worlds that [R] relates to the world it left at the [await];
    the world it leaves at its next [await] is related by [G] to the one it
    went on from, and so is, by [Q], the world and the outcome it ends
    with. *)
Fixpoint rely_guarantee {A} (R : World -> N -> World -> Prop)
         (G : World -> World -> Prop)
         (Q : World -> Outcome A -> World -> Prop)
         (w0 : World) (r : Res A) : Prop :=
  match r with
  | Fin o w => Q w0 o w
  | Yield w ms k =>
      G w0 w /\ forall w', R w ms w' -> rely_guarantee R G Q w' (k w')
  end.

(** A handler resumes no sooner than its promise can settle. *)
Definition timely (w : World) (ms : N) (w' : World) : Prop :=
  now w + Z.of_N ms <= now w'.

(** A handler resumes in whatever world the others have left. *)
Definition anyhow (w : World) (ms : N) (w' : World) : Prop := True.

(** No condition on the worlds left at an [await]. *)
Definition anything (w0 w : World) : Prop := True.

(** The run did not stop for lack of fuel. *)
Definition finished {A} (w0 : World) (o : Outcome A) (w : World) : Prop :=
  o <> OutOfFuel.

(** [lastSessionId] is what it was. *)
Definition same_lastSessionId (w0 w : World) : Prop :=
  lastSessionId (state w) = lastSessionId (state w0).

(** The invariant of the system for fuel: no handler has stopped for lack
    of fuel, and none in flight will, resumed in time. *)
Definition system_finishes (s : System) : Prop :=
  Forall (fun o => o <> OutOfFuel) (ended s)
  /\ Forall (fun t => forall w, ready_at t <= now w ->
                                rely_guarantee timely anything finished w
                                               (resume t w))
            (tasks s).

(** *** Reading traces *)

Definition is_get (e : Event) : bool :=
  match e with Get _ _ _ => true | _ => false end.

(** The number of [GET /session/...] requests in a trace. *)
Definition gets (t : list (Z * Event)) : nat :=
  List.length (filter (fun x => is_get (snd x)) t).

(** The handles constructed, and the handles closed, in a trace. *)
Fixpoint news (t : list (Z * Event)) : list Handle :=
  match t with
  | [] => []
  | (_, NewGameLiftStreams h) :: older => h :: news older
  | _ :: older => news older
  end.

Fixpoint closes (t : list (Z * Event)) : list Handle :=
  match t with
  | [] => []
  | (_, Close h) :: older => h :: closes older
  | _ :: older => closes older
  end.

Definition mem (h : Handle) (l : list Handle) : bool := existsb (Nat.eqb h) l.

(** A handle is live after a trace: constructed and not closed. *)
Definition live (t : list (Z * Event)) (h : Handle) : bool :=
  (mem h (news t) && negb (mem h (closes t)))%bool.

(** Every call on a handle, [close] included, was made while the handle
    was live, and every handle was constructed once. *)
Fixpoint handles_respected (t : list (Z * Event)) : bool :=
  match t with
  | [] => true
  | (_, e) :: older =>
      (match e with
       | NewGameLiftStreams h => negb (mem h (news older))
       | GenerateSignalRequest h | ProcessSignalResponse h _
       | AttachInput h | Close h => live older h
       | _ => true
       end && handles_respected older)%bool
  end.

(** Exactly one handle is live, the one the component holds, and every
    call on a handle was made while it was live. *)
Definition handles_ok (w : World) : Prop :=
  handles_respected (trace w) = true
  /\ exists h, gameliftstreams w = Some h
               /\ forall x, live (trace w) x = true <-> x = h.

(** The invariant behind [handles_ok]: the handles constructed so far are
    [0 .. h], the component holds [h], and all the others are closed. *)
Definition handles_inv (w : World) : Prop :=
  exists h, gameliftstreams w = Some h
            /\ constructed w = S h
            /\ (forall x, mem x (news (trace w)) = true <-> (x <= h)%nat)
            /\ (forall x, mem x (closes (trace w)) = true <-> (x < h)%nat)
            /\ handles_respected (trace w) = true.

(** An event that concerns no handle. *)
Definition quiet (e : Event) : bool :=
  match e with
  | NewGameLiftStreams _ | GenerateSignalRequest _ | ProcessSignalResponse _ _
  | AttachInput _ | Close _ => false
  | _ => true
  end.

(** A run that keeps [handles_inv] in every world it leaves, at its
    [await]s and at its end, whenever it finds it where it resumes. *)
Fixpoint keeps {A} (r : Res A) : Prop :=
  match r with
  | Fin _ w => handles_inv w
  | Yield w _ k => handles_inv w /\ forall w', handles_inv w' -> keeps (k w')
  end.

(** Code that keeps [handles_inv]. *)
Definition preserves {A} (m : M A) : Prop :=
  forall w, handles_inv w -> keeps (m w).

(** The invariant of the system: the world has [handles_inv], and every
    handler in flight keeps it from wherever it resumes. *)
Definition system_inv (s : System) : Prop :=
  handles_inv (world s)
  /\ Forall (fun t => forall w, handles_inv w -> keeps (resume t w)) (tasks s).

(** *** What a poll leaves behind *)

(** The gateway answers the [i]-th poll, and the session is not active. *)
Definition not_yet_active (env : Env) (i : nat) : Prop :=
  (exists token, outcome (get_auth env i) = Fulfilled token)
  /\ exists data, outcome (get_response env i) = Fulfilled (Json data)
                  /\ session_status data <> Some "ACTIVE".

(** The world once the [i]-th [GET] has been answered. *)
Definition asked (env : Env) (arn sg : string) (i : nat)
           (token : option string) (w : World) : World :=
  elapse (took (get_response env i))
    (record (Get sg arn (authorization token))
       (elapse (took (get_auth env i)) (record FetchAuthSession w))).

(** ... and the timer after it has fired. *)
Definition waited (env : Env) (arn sg : string) (i : nat)
           (token : option string) (w : World) : World :=
  elapse (timer_lateness env i)
    (elapse 1000 (record (SetTimeout 1000) (asked env arn sg i token w))).

(** The time the [i]-th poll takes when the session is not active yet. *)
Definition poll_duration (env : Env) (i : nat) : Z :=
  Z.of_N (took (get_auth env i)) + Z.of_N (took (get_response env i))
  + 1000 + Z.of_N (timer_lateness env i).

(** ... or, for a session that is active, the stream started on handle
    [h] with the answer of [data]. *)
Definition started (env : Env) (arn sg : string) (i : nat)
           (token : option string) (data : SessionData) (h : Handle)
           (w : World) : World :=
  let applied :=
    elapse (took (answer env (signalResponse data)))
      (record (ProcessSignalResponse h (signalResponse data))
         (asked env arn sg i token w)) in
  let attached := record (AttachInput h) applied in
  let running := set_isStreamStarting false (set_status RUNNING (state w)) in
  let w_running := record (SetState running) (with_state running attached) in
  let final := set_lastSessionId arn running in
  record (SetState final) (with_state final w_running).

(** What a run that set [lastSessionId] looks like: it returned, the status
    is [RUNNING], [isStreamStarting] is false, [lastSessionId] is the ARN
    polled, some poll was answered [ACTIVE], and setting the state was the
    last thing done. *)
Definition set_by_poll (env : Env) (arn : string) (w' : World) : Prop :=
  lastSessionId (state w') = arn
  /\ status (state w') = RUNNING
  /\ isStreamStarting (state w') = false
  /\ (exists i data, outcome (get_response env i) = Fulfilled (Json data)
                     /\ session_status data = Some "ACTIVE")
  /\ hd_error (trace w') = Some (now w', SetState (state w')).

(** How a poll, and the poll loop, may end: with [lastSessionId] what it
    was where the run went on from, or returning after setting it. *)
Definition last_by_poll {A} (env : Env) (arn : string) (a : A)
           (w0 : World) (o : Outcome A) (w : World) : Prop :=
  same_lastSessionId w0 w \/ (o = Returned a /\ set_by_poll env arn w).

(** ... and a handler: only [createStreamSession] sets it, to the ARN that
    [POST /] answered. *)
Definition last_by (env : Env) (op : Op)
           (w0 : World) (o : Outcome unit) (w : World) : Prop :=
  same_lastSessionId w0 w
  \/ (op = CreateStreamSession
      /\ o = Returned tt
      /\ exists data,
          outcome (start_response env) = Fulfilled (Json data)
          /\ set_by_poll env (arn data) w).

(** A handler in flight goes on as [last_by] says, wherever it resumes;
    and so do all of them. *)
Definition task_sets (t : Task) : Prop :=
  forall w, rely_guarantee anyhow same_lastSessionId
                           (last_by (of_env t) (of_op t)) w (resume t w).

Definition system_sets (s : System) : Prop := Forall task_sets (tasks s).

(** What a step does to [lastSessionId]: nothing, or it is the end of a
    [createStreamSession] whose [POST /] was answered with a session, after
    a poll answered [ACTIVE]. *)
Definition step_sets (s : System) (a : Action) : Prop :=
  same_lastSessionId (world s) (world (step s a))
  \/ exists env data,
      acting s a = Some (CreateStreamSession, env)
      /\ outcome (start_response env) = Fulfilled (Json data)
      /\ set_by_poll env (arn data) (world (step s a)).

(** *** Scenarios *)

(** A promise that is fulfilled, or rejected, at once. *)
Definition instantly {A} (value : A) : Timed (Settled A) :=
  {| took := 0; outcome := Fulfilled value |}.

Definition failing {A} (reason : Thrown) : Timed (Settled A) :=
  {| took := 0; outcome := Rejected reason |}.

(** A session of the control plane, in a given status. *)
Definition session (st : string) : SessionData :=
  {| signalResponse := "answer"; arn := "arn:x:streamsession/sg-abc/sess-1";
     region := Some "us-west-2"; session_status := Some st |}.


(** An outside where everything but the gateway answers at once and well;
    the gateway answers [POST /] with [start] and the [i]-th poll with
    [poll_answer i]. *)
Definition outside (start : Timed (Settled (Parsed SessionData)))
           (poll_answer : nat -> Timed (Settled (Parsed SessionData))) : Env :=
  {| offer := instantly "offer";
     post_auth := instantly (Some "token");
     start_response := start;
     reconnect_response := instantly (Json {| connection_signalResponse := "answer" |});
     get_auth := fun _ => instantly (Some "token");
     get_response := poll_answer;
     timer_lateness := fun _ => 0%N;
     answer := fun _ => instantly tt;
     videoElement := true;
     fullscreenGranted := true;
     keyboard := true |}.

(** The gateway refuses [POST /] and [POST /reconnect]. *)
Definition refusing (reason : Thrown) : Env :=
  {| offer := instantly "offer";
     post_auth := instantly (Some "token");
     start_response := failing reason;
     reconnect_response := failing reason;
     get_auth := fun _ => instantly (Some "token");
     get_response := fun _ => instantly (Json (session "ACTIVE"));
     timer_lateness := fun _ => 0%N;
     answer := fun _ => instantly tt;
     videoElement := true;
     fullscreenGranted := true;
     keyboard := true |}.

(** The gateway never reports the session active. *)
Definition never_active : Env :=
  outside (instantly (Json (session "ACTIVATING")))
          (fun _ => instantly (Json (session "ACTIVATING"))).

(** The gateway reports the session active at the third poll. *)
Definition active_at_third : Env :=
  outside (instantly (Json (session "ACTIVATING")))
          (fun i => instantly (Json (session (if Nat.ltb i 2 then "ACTIVATING"
                                              else "ACTIVE")))).

(** *** Further properties of the state and of runs *)

(** *** Properties of the state that every handler keeps *)

(** A run that keeps [Inv]: it leaves it at every [await] and at its end,
    whenever it finds it where it goes on. *)
Definition invariantly (Inv : World -> Prop) {A} (w0 : World) (r : Res A)
  : Prop :=
  rely_guarantee (fun _ _ w' => Inv w') (fun _ w => Inv w) (fun _ _ w => Inv w)
                 w0 r.

(** The world of a system has [Inv], and every handler in flight keeps it. *)
Definition system_keeps (Inv : World -> Prop) (s : System) : Prop :=
  Inv (world s)
  /\ Forall (fun t => forall w, Inv w -> invariantly Inv w (resume t w))
            (tasks s).

(** The status is one of the two that the component ever assigns. *)
Definition status_assigned (s : StreamComponentState) : Prop :=
  status s = STOPPED \/ status s = RUNNING.

(** Exactly one region is selected. *)
Definition one_region (s : StreamComponentState) : Prop :=
  exists region, regions s = [region].

(** A text that [trim()] leaves as it is. *)
Definition trimmed (text : string) : Prop := Js.trim text = text.

(** A text that neither begins nor ends with white space. *)
Definition no_space_around (text : string) : Prop :=
  forall space rest,
    In space Js.white_space -> text <> space ++ rest /\ text <> rest ++ space.

(** The three identifiers carry no white space around them. *)
Definition identifiers_trimmed (s : StreamComponentState) : Prop :=
  trimmed (sgId s) /\ trimmed (appId s) /\ trimmed (sessionId s).



(** An outside that answers every poll at once, with timers that fire on
    time. *)
Definition prompt (env : Env) : Prop :=
  forall i, took (get_auth env i) = 0%N
            /\ took (get_response env i) = 0%N
            /\ timer_lateness env i = 0%N.

(** The polls that fit into [ms] milliseconds, one every second. *)
Definition polls_within (ms : Z) : Z := (Z.max ms 0 + 999) / 1000.
(** The component and no handler in flight. *)
Definition idle (w : World) : System :=
  {| world := w; tasks := []; ended := [] |}.

(** The user edits the stream group while [POST /] is in flight: the
    session is created, the handler resumed up to the [POST], the input
    changed, and the handler resumed up to its first [GET]. *)
Definition edit_during_start (env : Env) (value : string) : list Action :=
  [Start CreateStreamSession env; Resume 0 0; Resume 0 0;
   Start (HandleInputChange input_sgId value) env;
   Resume 0 0; Resume 0 0].
(** The handlers that [render()] offers in a state: the main button starts
    a stream unless the status is [RUNNING], and ends it then; the
    full-screen button is there while the status is [RUNNING]; the inputs,
    the region and the reconnect button are there always. *)
Definition offered (s : StreamComponentState) (op : Op) : bool :=
  let running := match status s with RUNNING => true | _ => false end in
  match op with
  | CreateStreamSession => negb running
  | CloseConnection | EnableFullScreen => running
  | CreateStreamSessionConnection | HandleInputChange _ _
  | HandleRegionChange _ => true
  end.

(** A schedule that a user can produce: each handler is started in a state
    in which it is offered. *)
Fixpoint offered_throughout (schedule : list Action) (s : System) : bool :=
  match schedule with
  | [] => true
  | a :: rest =>
      (match a with
       | Start op _ => offered (state (world s)) op
       | Resume _ _ | Wait _ => true
       end && offered_throughout rest (step s a))%bool
  end.

(** A stream is being started: the session is created, and the handler is
    resumed up to its [POST]. *)
Definition start_in_flight (env : Env) : list Action :=
  [Start CreateStreamSession env; Resume 0 0; Resume 0 0].

(** While the start above is in flight, the user reconnects to another
    session, which is streamed, and ends that stream. *)
Definition reconnect_and_close (env : Env) : list Action :=
  [Start CreateStreamSessionConnection env;
   Resume 0 0; Resume 0 0; Resume 0 0; Resume 0 0;
   Start CloseConnection env].

(** *** Alerts *)

Definition is_alert (e : Event) : bool :=
  match e with Alert _ => true | _ => false end.

(** The number of alerts in a trace. *)
Definition alerts (t : list (Z * Event)) : nat :=
  List.length (filter (fun x => is_alert (snd x)) t).

(** Between [w0] and [w] no alert was shown. *)
Definition unalerted (w0 w : World) : Prop :=
  alerts (trace w) = alerts (trace w0).

(** Between [w0] and [w] one alert was shown or none, and none if the run
    threw. *)
Definition alerted_once {A} (w0 : World) (o : Outcome A) (w : World) : Prop :=
  (alerts (trace w0) <= alerts (trace w) <= S (alerts (trace w0)))%nat
  /\ match o with
     | Returned _ => True
     | _ => unalerted w0 w
     end.

(** ... and none either if the poll loop goes on. *)
Definition alerted_at_end (w0 : World) (o : Outcome Flow) (w : World) : Prop :=
  alerted_once w0 o w /\ (o = Returned Continue -> unalerted w0 w).

(** The alerts of a system are no more than the handlers that have ended,
    and no handler in flight shows one before its last [await]. *)
Definition system_alerts (s : System) : Prop :=
  (alerts (trace (world s)) <= List.length (ended s))%nat
  /\ Forall (fun t => forall w,
                 rely_guarantee anyhow unalerted alerted_once w (resume t w))
            (tasks s).

(** *** The [GameLiftStreams] objects *)

(** What the events so far have made of the [GameLiftStreams] objects: the
    latest one constructed, and whether it has been closed. *)
Definition Objects := option (Handle * bool).

(** An event in its turn: an object is constructed after the ones before
    it; a request, a response or input goes to the latest object, which is
    not closed; and that object is the one to close. *)
Definition in_turn (e : Event) (objects : Objects) : option Objects :=
  let latest_open h :=
    match objects with
    | Some (latest, false) => Nat.eqb latest h
    | _ => false
    end in
  match e with
  | NewGameLiftStreams h =>
      match objects with
      | None => Some (Some (h, false))
      | Some (latest, _) =>
          if Nat.ltb latest h then Some (Some (h, false)) else None
      end
  | GenerateSignalRequest h | ProcessSignalResponse h _ | AttachInput h =>
      if latest_open h then Some objects else None
  | Close h => if latest_open h then Some (Some (h, true)) else None
  | _ => Some objects
  end.

(** The events of a trace, each in its turn, from the earliest. *)
Fixpoint in_order (t : list (Z * Event)) : option Objects :=
  match t with
  | [] => Some None
  | (_, e) :: earlier =>
      match in_order earlier with
      | Some objects => in_turn e objects
      | None => None
      end
  end.

(** The object held is the latest constructed, and is not closed. *)
Definition held (w : World) : Prop :=
  exists h, gameliftstreams w = Some h
            /\ constructed w = S h
            /\ in_order (trace w) = Some (Some (h, false)).

(** An event that calls a method of the object [h]. *)
Definition calls (h : Handle) (e : Event) : bool :=
  match e with
  | GenerateSignalRequest h' | ProcessSignalResponse h' _ | AttachInput h'
  | Close h' => Nat.eqb h' h
  | _ => false
  end.

End Controller.

(** ** Percent-encoding of path segments

    Strings stand for their UTF-8 bytes. *)

Module Uri.

(** The characters [encodeURIComponent] leaves as they are: letters,
    digits and [- _ . ! ~ * ' ( )]. *)
Definition is_unreserved (c : ascii) : bool :=
  let n := nat_of_ascii c in
  ((Nat.leb 65 n && Nat.leb n 90) || (Nat.leb 97 n && Nat.leb n 122)
   || (Nat.leb 48 n && Nat.leb n 57)
   || existsb (Nat.eqb n) [45; 95; 46; 33; 126; 42; 39; 40; 41]%nat)%bool.

(** The upper-case hexadecimal digit of a number below 16. *)
Definition hex_digit (n : nat) : ascii :=
  ascii_of_nat (if Nat.ltb n 10 then 48 + n else 55 + n)%nat.

(** The value of a hexadecimal digit of either case. *)
Definition hex_value (c : ascii) : option nat :=
  let n := nat_of_ascii c in
  if (Nat.leb 48 n && Nat.leb n 57)%bool then Some (n - 48)%nat
  else if (Nat.leb 65 n && Nat.leb n 70)%bool then Some (n - 55)%nat
  else if (Nat.leb 97 n && Nat.leb n 102)%bool then Some (n - 87)%nat
  else None.

Definition percent : ascii := "%"%char.

(** [encodeURIComponent(s)] *)
Fixpoint encodeURIComponent (s : string) : string :=
  match s with
  | EmptyString => EmptyString
  | String c rest =>
      if is_unreserved c then String c (encodeURIComponent rest)
      else
        let n := nat_of_ascii c in
        String percent
          (String (hex_digit (n / 16)%nat)
             (String (hex_digit (n mod 16)%nat) (encodeURIComponent rest)))
  end.

(** The bytes of a text with its escapes replaced, each marked as escaped
    or not; nothing for a [%] that two hexadecimal digits do not follow. *)
Fixpoint unescape (s : string) : option (list (bool * nat)) :=
  match s with
  | EmptyString => Some []
  | String c rest =>
      if Ascii.eqb c percent then
        match rest with
        | String h1 (String h2 rest') =>
            match hex_value h1, hex_value h2, unescape rest' with
            | Some a, Some b, Some bytes => Some ((true, 16 * a + b)%nat :: bytes)
            | _, _, _ => None
            end
        | _ => None
        end
      else
        match unescape rest with
        | Some bytes => Some ((false, nat_of_ascii c) :: bytes)
        | None => None
        end
  end.

Definition between (lo hi n : nat) : bool := (Nat.leb lo n && Nat.leb n hi)%bool.

(** Is every escaped byte above 127 part of the UTF-8 encoding of a code
    point, all of whose bytes are escaped? *)
Fixpoint well_formed (bytes : list (bool * nat)) : bool :=
  match bytes with
  | [] => true
  | (false, _) :: rest => well_formed rest
  | (true, b) :: rest =>
      if Nat.ltb b 128 then well_formed rest
      else if between 194 223 b then
        match rest with
        | (true, c1) :: rest' => (between 128 191 c1 && well_formed rest')%bool
        | _ => false
        end
      else if between 224 239 b then
        match rest with
        | (true, c1) :: (true, c2) :: rest' =>
            ((if Nat.eqb b 224 then between 160 191 c1
              else if Nat.eqb b 237 then between 128 159 c1
              else between 128 191 c1)
             && between 128 191 c2 && well_formed rest')%bool
        | _ => false
        end
      else if between 240 244 b then
        match rest with
        | (true, c1) :: (true, c2) :: (true, c3) :: rest' =>
            ((if Nat.eqb b 240 then between 144 191 c1
              else if Nat.eqb b 244 then between 128 143 c1
              else between 128 191 c1)
             && between 128 191 c2 && between 128 191 c3
             && well_formed rest')%bool
        | _ => false
        end
      else false
  end.

Fixpoint text_of (bytes : list (bool * nat)) : string :=
  match bytes with
  | [] => EmptyString
  | (_, b) :: rest => String (ascii_of_nat b) (text_of rest)
  end.

(** [decodeURIComponent(s)]: nothing where it throws a [URIError]. *)
Definition decodeURIComponent (s : string) : option string :=
  match unescape s with
  | Some bytes => if well_formed bytes then Some (text_of bytes) else None
  | None => None
  end.

(** A text of ASCII characters only. *)
Fixpoint is_ascii (s : string) : bool :=
  match s with
  | EmptyString => true
  | String c rest => (Nat.ltb (nat_of_ascii c) 128 && is_ascii rest)%bool
  end.

(** [`/session/${encodeURIComponent(sg)}/${encodeURIComponent(arn)}`] *)
Definition session_path (sg arn : string) : string :=
  "/session/" ++ encodeURIComponent sg ++ "/" ++ encodeURIComponent arn.

End Uri.

(** ** Session gateway: the handler of [GET /session/{sg}/{arn}] *)

Module GetSession.

(** [event.pathParameters]: either member may be missing. *)
Record PathParameters := {
  sg : option string;
  arn : option string
}.

(** The input of [gameLiftStreams.getStreamSession]. *)
Record Input := {
  Identifier : string;
  StreamSessionIdentifier : string
}.

(** The members of the output that the handler reads. *)
Record StreamSession := {
  SignalResponse : option string;
  Arn : option string;
  Location : option string;
  Status : option string
}.

Inductive SdkResult :=
| Resolved (streamSession : StreamSession)
| Rejected (message : string).

(** The JSON objects the handler serialises into the response body. *)
Record SessionBody := {
  signalResponse : string;
  body_arn : option string;
  region : option string;
  status : option string
}.

Inductive ResponseBody :=
| Session (session : SessionBody)
| Message (message : string).

Record HttpResponse := {
  statusCode : Z;
  body : ResponseBody
}.

(** The message of the [URIError] that [decodeURIComponent] throws. *)
Definition URI_malformed : string := "URI malformed".

(** [decodeURIComponent(x)] for a path parameter: a missing one is decoded
    as the text of [undefined]. *)
Definition decoded (x : option string) : option string :=
  Uri.decodeURIComponent (match x with Some s => s | None => "undefined" end).

Definition failed (message : string) : HttpResponse :=
  {| statusCode := 500; body := Message message |}.

(** [exports.handler] of the get-session Lambda, with the control-plane
    client as an argument.  Returns the request that was sent, if one was,
    together with the HTTP response. *)
Definition handler (getStreamSession : Input -> SdkResult)
           (pathParameters : option PathParameters)
  : option Input * HttpResponse :=
  (* [const { sg, arn } = event.pathParameters || {}] *)
  let sg := match pathParameters with Some p => sg p | None => None end in
  let arn := match pathParameters with Some p => arn p | None => None end in
  match decoded sg with
  | None => (None, failed URI_malformed)
  | Some identifier =>
      match decoded arn with
      | None => (None, failed URI_malformed)
      | Some session =>
          let input := {| Identifier := identifier;
                          StreamSessionIdentifier := session |} in
          match getStreamSession input with
          | Resolved streamSession =>
              (Some input,
               {| statusCode := 200;
                  body := Session
                            {| signalResponse :=
                                 match SignalResponse streamSession with
                                 | Some r => r
                                 | None => ""
                                 end;
                               body_arn := Arn streamSession;
                               region := Location streamSession;
                               status := Status streamSession |} |})
          | Rejected message => (Some input, failed message)
          end
      end
  end.

End GetSession.

(** ** Stats overlay: samples, bars and the polling timer *)

Module Samples.

Import Stats.

(** The last report of a sample that [p] holds of. *)
Definition last_report (p : Report -> bool) (stats : list Report)
  : option Report :=
  find p (rev stats).

End Samples.

Module Bars.

Import Js.

Local Open Scope float_scope.

(** [isNaN(x)] on a number. *)
Definition isNaN (x : float) : bool :=
  match Prim2SF x with
  | S754_nan => true
  | _ => false
  end.

(** [parseFloat(value)] for a value that is a number: the text of the
    number read back, which is the number again, but [+0] for [-0]. *)
Definition parseFloat (x : float) : float := if is_zero x then 0 else x.

(** [Math.min(x, y)]: not a number if either is; [-0] is below [+0]. *)
Definition Math_min (x y : float) : float :=
  if (isNaN x || isNaN y)%bool then nan
  else if x <? y then x
  else if y <? x then y
  else match Prim2SF y with
       | S754_zero true => y
       | _ => x
       end.

(** The secondary text of a stat line: the empty string, or a number of
    gigabytes followed by [G]. *)
Inductive Gigabytes :=
| NoText
| GigaText (amount : NumberText).

(** [formatMBtoGB(mbValue)] for a value that is a number or [undefined]. *)
Definition formatMBtoGB (mbValue : option float) : Gigabytes :=
  match mbValue with
  | Some mb =>
      let num := parseFloat mb in
      if isNaN num then NoText else GigaText (toFixed2 (num / 1024))
  | None => NoText
  end.

(** What [createStatBar] renders: the fill of the bar, with its class
    ([good] or [bad]) and its width in percent, if there is one; the
    divider, if shown; the text of the value, or the placeholder; the
    suffix; and the secondary text. *)
Record StatBar := {
  fill : option (bool * float);
  divider : bool;
  text : Rendered NumberText;
  suffix : string;
  secondary : Gigabytes
}.

(** [createStatBar(value, maxValue, threshold, showDivider, suffix,
    secondaryText)] for a value that is a number or [undefined], as the
    performance statistics have them. *)
Definition createStatBar (value : option float) (maxValue threshold : float)
           (showDivider : bool) (suffix : string) (secondaryText : Gigabytes)
  : StatBar :=
  let invalid :=
    {| fill := None; divider := showDivider; text := Placeholder;
       suffix := suffix; secondary := secondaryText |} in
  match value with
  | None => invalid
  | Some v =>
      let numValue := parseFloat v in
      if isNaN numValue then invalid
      else
        let percentage := Math_min ((numValue / maxValue) * 100) 100 in
        let isGood := numValue <=? threshold in
        {| fill := Some (isGood, percentage); divider := showDivider;
           text := Shown (toFixed2 numValue);
           suffix := suffix; secondary := secondaryText |}
  end.

(** The [MEM] line of the application statistics. *)
Definition application_memory (normalized megabytes : option float) : StatBar :=
  createStatBar normalized 1 1 false "" (formatMBtoGB megabytes).

End Bars.

Module StatsLogging.

(** An interval timer, by the number [setInterval] returned for it: never
    zero. *)
Definition Timer := nat.

(** [statsIntervalRef.current], the timers that are set and not cleared,
    latest first, and the number of timers set so far. *)
Record Timers := {
  statsIntervalRef : option Timer;
  ticking : list Timer;
  issued : nat
}.

(** [useRef(null)], before any timer is set. *)
Definition no_timers : Timers :=
  {| statsIntervalRef := None; ticking := []; issued := 0 |}.

(** [clearInterval(t)] *)
Definition clearInterval (t : Timer) (s : Timers) : Timers :=
  {| statsIntervalRef := statsIntervalRef s;
     ticking := filter (fun x => negb (Nat.eqb x t)) (ticking s);
     issued := issued s |}.

(** [setInterval(callback, 1000)] *)
Definition setInterval (s : Timers) : Timer * Timers :=
  let t := S (issued s) in
  (t, {| statsIntervalRef := statsIntervalRef s;
         ticking := t :: ticking s;
         issued := t |}).

(** [startStatsLogging()] *)
Definition startStatsLogging (s : Timers) : Timers :=
  let s1 := match statsIntervalRef s with
            | Some t => clearInterval t s
            | None => s
            end in
  let (t, s2) := setInterval s1 in
  {| statsIntervalRef := Some t; ticking := ticking s2; issued := issued s2 |}.

(** [stopStatsLogging()] *)
Definition stopStatsLogging (s : Timers) : Timers :=
  match statsIntervalRef s with
  | Some t =>
      let s1 := clearInterval t s in
      {| statsIntervalRef := None; ticking := ticking s1; issued := issued s1 |}
  | None => s
  end.

(** What calls the two: [toggleStats()] in a render where the overlay is
    visible or not, the effect on [isVisible] and [isStreamRunning], and
    the cleanup at unmount. *)
Inductive Call :=
| ToggleStats (isVisible : bool)
| VisibilityEffect (isVisible isStreamRunning : bool)
| Unmount.

Definition call (s : Timers) (c : Call) : Timers :=
  match c with
  | ToggleStats isVisible =>
      let newVisibility := negb isVisible in
      if newVisibility then startStatsLogging s else stopStatsLogging s
  | VisibilityEffect isVisible isStreamRunning =>
      if (isVisible && isStreamRunning)%bool then startStatsLogging s
      else stopStatsLogging s
  | Unmount => stopStatsLogging s
  end.

(** Does the call end with [stopStatsLogging]? *)
Definition stops (c : Call) : bool :=
  match c with
  | ToggleStats isVisible => isVisible
  | VisibilityEffect isVisible isStreamRunning =>
      negb (isVisible && isStreamRunning)
  | Unmount => true
  end.

(** The timers that tick are the one the ref holds, if it holds one; and
    no timer has a number above the count. *)
Definition one_timer (s : Timers) : Prop :=
  ticking s = match statsIntervalRef s with
              | Some t => [t]
              | None => []
              end
  /\ match statsIntervalRef s with
     | Some t => (1 <= t <= issued s)%nat
     | None => True
     end.

End StatsLogging.

(* ================================================================== *)
(** * Part II. Theorems *)
(* ================================================================== *)

(** ** Gateway *)

Lemma split_nonempty sep s : Js.split sep s <> [].
Proof.
  destruct s as [|c rest]; simpl; [discriminate|].
  destruct (Ascii.eqb c sep); [discriminate|].
  destruct (Js.split sep rest); discriminate.
Qed.

Lemma split_app sep a b :
  Js.split sep (a ++ String sep b) = (Js.split sep a ++ Js.split sep b)%list.
Proof.
  induction a as [|c a IH]; simpl.
  - now rewrite Ascii.eqb_refl.
  - destruct (Ascii.eqb c sep); [now rewrite IH|].
    rewrite IH.
    destruct (Js.split sep a) as [|seg segs] eqn:E; [|reflexivity].
    now apply split_nonempty in E.
Qed.

Lemma split_no_sep sep s : Js.occurs sep s = false -> Js.split sep s = [s].
Proof.
  induction s as [|c s IH]; simpl; [reflexivity|].
  intros H. apply orb_false_iff in H as [Hc Hs].
  rewrite Hc, (IH Hs). reflexivity.
Qed.

Lemma index_length_minus_2 {A} (l : list A) :
  Js.index l (Js.length l - 2) = nth_error (rev l) 1.
Proof.
  unfold Js.index, Js.length.
  rewrite nth_error_rev.
  destruct (Z.ltb_spec (Z.of_nat (List.length l) - 2) 0) as [H|H];
    destruct (Nat.ltb_spec 1 (List.length l)) as [H'|H']; try lia.
  - reflexivity.
  - f_equal. lia.
Qed.

Lemma sg_arn_of_path prefix sg id :
  Js.occurs Gateway.slash sg = false ->
  Js.occurs Gateway.slash id = false ->
  Gateway.sg_arn (prefix ++ String Gateway.slash (sg ++ String Gateway.slash id))
  = Some sg.
Proof.
  intros Hsg Hid. unfold Gateway.sg_arn.
  rewrite index_length_minus_2.
  rewrite split_app, split_app, (split_no_sep _ _ Hsg), (split_no_sep _ _ Hid).
  rewrite !rev_app_distr. reflexivity.
Qed.

(** C1 (counterexample).  On the ARN the spec gives as its example, the
    identifier the reconnect handler derives is not [sg-abc]: the
    second-to-last segment of that ARN is [streamsession]. *)
Lemma C1_spec_example_is_not_sg_abc :
  Gateway.Identifier
    (Gateway.connection_input
       {| Gateway.SessionIdentifier := Gateway.spec_example_arn;
          Gateway.SignalRequest := "offer" |})
  <> Some "sg-abc".
Proof. vm_compute. discriminate. Qed.

(** C1 (as amended).  For every session ARN the reconnect handler receives,
    the identifier it sends to the control plane is the second-to-last
    [/]-delimited segment of the ARN (nothing when the ARN has fewer than
    two segments), whatever the control plane answers; an ARN that ends in
    [/<SG>/<ID>] therefore yields [<SG>].  For the spec's example ARN that
    segment is [streamsession]; for an ARN of the form
    [...:streamsession/sg-abc/sess-1] it is [sg-abc]. *)
Theorem C1_reconnect_identifier_is_second_to_last_segment :
  (forall cp b,
      Gateway.Identifier (fst (Gateway.handler cp b))
      = Gateway.second_to_last_segment (Gateway.SessionIdentifier b)
      /\ Gateway.StreamSessionIdentifier (fst (Gateway.handler cp b))
         = Gateway.SessionIdentifier b)
  /\ (forall prefix sg id,
         Js.occurs Gateway.slash sg = false ->
         Js.occurs Gateway.slash id = false ->
         Gateway.sg_arn
           (prefix ++ String Gateway.slash (sg ++ String Gateway.slash id))
         = Some sg)
  /\ Gateway.sg_arn Gateway.spec_example_arn = Some "streamsession"
  /\ Gateway.sg_arn Gateway.service_form_arn = Some "sg-abc".
Proof.
  split; [|split; [|split]].
  - intros cp b. unfold Gateway.handler.
    assert (E : Gateway.Identifier (Gateway.connection_input b)
                = Gateway.second_to_last_segment (Gateway.SessionIdentifier b)).
    { simpl. unfold Gateway.sg_arn. apply index_length_minus_2. }
    destruct (cp (Gateway.connection_input b)); simpl; split;
      solve [exact E | reflexivity].
  - exact sg_arn_of_path.
  - reflexivity.
  - reflexivity.
Qed.

(** C1 (witness): the second conjunct at [prefix = "arn:x:streamsession"],
    [sg = "sg-abc"], [id = "sess-1"]. *)
Lemma C1_reconnect_identifier_witness :
  Gateway.sg_arn ("arn:x:streamsession" ++ String Gateway.slash
                    ("sg-abc" ++ String Gateway.slash "sess-1"))
  = Some "sg-abc".
Proof.
  apply (proj1 (proj2 C1_reconnect_identifier_is_second_to_last_segment));
    reflexivity.
Defined.

(** ** Stats processor *)

Section StatsFacts.

Import Js Stats.

Variable clock : nat -> float.

Lemma round_half_up_nearest m e n :
  e < 0 -> n = round_half_up m e ->
  (2 * n - 1) * 2 ^ (- e) <= 2 * m < (2 * n + 1) * 2 ^ (- e).
Proof.
  intros He ->. unfold round_half_up.
  destruct (Z.leb_spec 0 e) as [H|_]; [lia|].
  assert (Hp : 0 < 2 ^ (- e)) by (apply Z.pow_pos_nonneg; lia).
  set (p := 2 ^ (- e)) in *.
  pose proof (Z.mul_div_le (2 * m + p) (2 * p) ltac:(lia)).
  pose proof (Z.mul_succ_div_gt (2 * m + p) (2 * p) ltac:(lia)).
  set (q := (2 * m + p) / (2 * p)) in *. nia.
Qed.

Lemma round_half_up_integer m e :
  0 <= e -> round_half_up m e = m * 2 ^ e.
Proof.
  intros He. unfold round_half_up.
  destruct (Z.leb_spec 0 e); [reflexivity|lia].
Qed.

Lemma inbound_not_pair r :
  String.eqb (type r) "inbound-rtp" = true -> is_succeeded_pair r = false.
Proof.
  intros H. apply String.eqb_eq in H. unfold is_succeeded_pair.
  rewrite H. reflexivity.
Qed.

Lemma pair_not_inbound r :
  is_succeeded_pair r = true -> String.eqb (type r) "inbound-rtp" = false.
Proof.
  unfold is_succeeded_pair. intros H.
  apply andb_true_iff in H as [H _]. apply String.eqb_eq in H.
  rewrite H. reflexivity.
Qed.

Lemma is_inbound_inv r :
  is_inbound r = true ->
  String.eqb (type r) "inbound-rtp" = true /\ exists f, framesPerSecond r = Some f.
Proof.
  unfold is_inbound. intros H. apply andb_true_iff in H as [H1 H2].
  split; [exact H1|]. destruct (framesPerSecond r) as [f|]; [eauto|discriminate].
Qed.

(** A report that is no inbound media report leaves the frame rate, the
    jitter, the bitrate, the refs and the clock untouched. *)
Lemma on_report_other l r :
  is_inbound r = false ->
  let l' := on_report clock l r in
  newFrameRate l' = newFrameRate l
  /\ ns_jitter (newNetworkStats l') = ns_jitter (newNetworkStats l)
  /\ bitrate (newNetworkStats l') = bitrate (newNetworkStats l)
  /\ cur l' = cur l /\ reads l' = reads l.
Proof.
  intros H. unfold on_report, on_inbound, is_inbound in *.
  destruct (String.eqb (type r) "inbound-rtp");
    [destruct (framesPerSecond r); [discriminate|]|];
    unfold on_candidate_pair; destruct (is_succeeded_pair r); simpl; auto.
Qed.

Lemma fold_on_report_other rs : forall l,
  Forall (fun r => is_inbound r = false) rs ->
  let l' := fold_left (on_report clock) rs l in
  newFrameRate l' = newFrameRate l
  /\ ns_jitter (newNetworkStats l') = ns_jitter (newNetworkStats l)
  /\ bitrate (newNetworkStats l') = bitrate (newNetworkStats l)
  /\ cur l' = cur l /\ reads l' = reads l.
Proof.
  induction rs as [|r rs IH]; intros l H; simpl; [auto|].
  inversion H as [|? ? Hr Hrs]; subst.
  destruct (IH (on_report clock l r) Hrs) as (A & B & C & D & E).
  destruct (on_report_other l r Hr) as (A' & B' & C' & D' & E').
  repeat split; congruence.
Qed.

Lemma digits_of_a_digit d :
  (0 <= d <= 9)%Z ->
  digits d = String (ascii_of_nat (48 + Z.to_nat d)) "".
Proof.
  intros H.
  assert (C : (d = 0 \/ d = 1 \/ d = 2 \/ d = 3 \/ d = 4 \/ d = 5 \/ d = 6
               \/ d = 7 \/ d = 8 \/ d = 9)%Z) by lia.
  repeat (destruct C as [->|C]; [reflexivity|]). subst. reflexivity.
Qed.

(** The text of [digits] is the decimal numeral of the number: read as
    one, it gives the number. *)
Lemma digits_read_back k :
  option_map N.of_uint (NilZero.uint_of_string (digits k)) = Some (Z.to_N k).
Proof.
  unfold digits. rewrite NilZero.usu.
  - cbn. now rewrite DecimalN.Unsigned.of_to.
  - destruct (Z.to_N k); [discriminate|apply DecimalPos.Unsigned.to_uint_nonnil].
Qed.

(** [toFixed(2)] of a finite number [m * 2^e] below [10^21] prints the
    integer [n] nearest to a hundred times the number, the larger one on a
    tie, with a point before its last two digits. *)
Lemma toFixed2_nearest_hundredth x s m e :
  Prim2SF x = S754_finite s m e ->
  (0 <= e -> Z.pos m * 2 ^ e < 10 ^ 21)%Z ->
  exists n,
    toFixed2 x
    = Text ((if s then "-" else "")
              ++ digits (n / 100) ++ "."
              ++ String (ascii_of_nat (48 + Z.to_nat (n mod 100 / 10))) ""
              ++ String (ascii_of_nat (48 + Z.to_nat (n mod 10))) "")
    /\ (0 <= n)%Z
    /\ (0 <= e -> n = Z.pos m * 100 * 2 ^ e)%Z
    /\ (e < 0 ->
        (2 * n - 1) * 2 ^ (- e) <= 2 * (Z.pos m * 100)
        < (2 * n + 1) * 2 ^ (- e))%Z.
Proof.
  intros Hx Hsmall. unfold toFixed2. rewrite Hx.
  set (n := round_half_up (Z.pos m * 100) e).
  assert (Hn : (0 <= n)%Z).
  { unfold n, round_half_up. destruct (Z.leb_spec 0 e).
    - apply Z.mul_nonneg_nonneg; [lia|]. apply Z.pow_nonneg. lia.
    - apply Z.div_pos; [|apply Z.mul_pos_pos; [lia|apply Z.pow_pos_nonneg; lia]].
      assert (0 < 2 ^ (- e))%Z by (apply Z.pow_pos_nonneg; lia). lia. }
  assert (B : ((0 <=? e) && (10 ^ 21 <=? Z.pos m * 2 ^ e))%bool = false).
  { destruct (Z.leb_spec 0 e) as [He|He]; [|reflexivity].
    cbn [andb]. apply Z.leb_gt. now apply Hsmall. }
  rewrite B. exists n. split; [|split; [exact Hn|split]].
  - rewrite (digits_of_a_digit (n mod 100 / 10)), (digits_of_a_digit (n mod 10));
      [reflexivity| |].
    + pose proof (Z.mod_pos_bound n 10 ltac:(lia)). lia.
    + pose proof (Z.mod_pos_bound n 100 ltac:(lia)).
      split; [apply Z.div_pos; lia|].
      apply Z.lt_succ_r, Z.div_lt_upper_bound; lia.
  - intros He. unfold n. apply round_half_up_integer, He.
  - intros He. now apply round_half_up_nearest.
Qed.

End StatsFacts.

Section StatsClaims.

Import Js Stats.

Local Open Scope float_scope.

(** What one inbound media report, surrounded by reports of other kinds,
    makes of the bitrate and of the refs. *)
Lemma processStats_one_inbound clock o pre r post :
  Forall (fun x => is_inbound x = false) pre ->
  Forall (fun x => is_inbound x = false) post ->
  is_inbound r = true ->
  let l0 := init_tracking clock
              {| newNetworkStats := networkStats o; newFrameRate := frameRate o;
                 cur := refs o; reads := 0 |} in
  let l1 := on_inbound clock r l0 in
  let o' := processStats clock o (pre ++ r :: post) in
  bitrate (networkStats o') = bitrate (newNetworkStats l1)
  /\ refs o' = cur l1.
Proof.
  intros Hpre Hpost Hr l0 l1 o'.
  unfold o', processStats. fold l0.
  rewrite fold_left_app. simpl fold_left.
  destruct (fold_on_report_other clock pre l0 Hpre) as (_ & _ & Eb & Ec & Er).
  set (lp := fold_left (on_report clock) pre l0) in *.
  destruct (fold_on_report_other clock post (on_report clock lp r) Hpost)
    as (_ & _ & Eb' & Ec' & _).
  simpl. rewrite Eb', Ec'.
  destruct (is_inbound_inv r Hr) as [Ht [f Hf]].
  unfold on_report, on_candidate_pair. rewrite (inbound_not_pair r Ht).
  unfold l1, on_inbound. rewrite Ht, Hf. simpl.
  rewrite Eb, Ec, Er. split; reflexivity.
Qed.

(** C6 (counterexample).  With a baseline recorded (1,000,000 bytes at time
    0), a sample at 1000 ms whose inbound media report carries a byte count
    of 0 reports no bitrate, though the formula would give one, and resets
    the recorded byte count to 0, so that the sample after it only records
    a baseline again. *)
Lemma C6_no_bitrate_for_a_sample_without_bytes :
  let o := {| networkStats := networkStats initial; frameRate := None;
              refs := {| previousBytesReceived := 1000000;
                         previousTimestamp := 0 |} |} in
  let o' := processStats (fun _ => 1000) o [inbound (Some 60) None (Some 0)] in
  bitrate (networkStats o') = None
  /\ bitrate (networkStats o') <> Some (bitrate_text 0 1000000 1000 0)
  /\ bitrate_shown o' = Placeholder
  /\ refs o' = {| previousBytesReceived := 0; previousTimestamp := 0 |}.
Proof. vm_compute. repeat split; discriminate. Qed.

(** C6 (as amended).  A sample has one inbound media report that counts
    (type [inbound-rtp], with a frame rate) among reports of other kinds;
    the timer was armed in a render with the statistics [o].
    - While no byte count is recorded ([previousBytesReceived] is zero), as
      on the first sample, the sample only records the baseline (the byte
      count of the report and the time of the sample): the bitrate is the
      one of [o], which is none on a fresh overlay.
    - With a byte count recorded and a byte count in the report that is
      not zero, the sample reports
      [((bytes - previous) * 8) / (elapsed ms / 1000) / 1000000] printed by
      [toFixed(2)], and moves the baseline.
    - With a byte count recorded and a report whose byte count is zero or
      missing, the sample reports no bitrate (it is the one of [o]) and
      the recorded byte count is reset to zero.
    - [toFixed(2)] of a finite number [m * 2^e] below [10^21] prints the
      integer nearest to a hundred times the number (the larger one on a
      tie) with a point before its last two digits, after a minus sign for
      a negative number; the digits before the point are the decimal
      numeral of the integer part.
    With 1,000,000 bytes at time 0 and 2,000,000 bytes at time 1000 ms the
    second tick reports "8.00" and the first reports nothing. *)
Theorem C6_bitrate_from_baseline :
  (forall clock o pre r post,
      Forall (fun x => is_inbound x = false) pre ->
      Forall (fun x => is_inbound x = false) post ->
      is_inbound r = true ->
      truthy (previousBytesReceived (refs o)) = false ->
      let o' := processStats clock o (pre ++ r :: post) in
      bitrate (networkStats o') = bitrate (networkStats o)
      /\ refs o' = {| previousBytesReceived := or_else (bytesReceived r) 0;
                      previousTimestamp := clock 0%nat |})
  /\ (forall clock o pre r post bytes,
         Forall (fun x => is_inbound x = false) pre ->
         Forall (fun x => is_inbound x = false) post ->
         is_inbound r = true ->
         truthy (previousBytesReceived (refs o)) = true ->
         bytesReceived r = Some bytes -> truthy bytes = true ->
         let o' := processStats clock o (pre ++ r :: post) in
         bitrate (networkStats o')
         = Some (toFixed2
                   ((((bytes - previousBytesReceived (refs o)) * 8)
                     / ((clock 0%nat - previousTimestamp (refs o)) / 1000))
                    / 1000000))
         /\ refs o' = {| previousBytesReceived := bytes;
                         previousTimestamp := clock 0%nat |})
  /\ (forall clock o pre r post,
         Forall (fun x => is_inbound x = false) pre ->
         Forall (fun x => is_inbound x = false) post ->
         is_inbound r = true ->
         truthy (previousBytesReceived (refs o)) = true ->
         match bytesReceived r with
         | Some bytes => truthy bytes = false
         | None => True
         end ->
         let o' := processStats clock o (pre ++ r :: post) in
         bitrate (networkStats o') = bitrate (networkStats o)
         /\ refs o' = {| previousBytesReceived := 0;
                         previousTimestamp := previousTimestamp (refs o) |})
  /\ (forall x s m e,
         Prim2SF x = S754_finite s m e ->
         (0 <= e -> Z.pos m * 2 ^ e < 10 ^ 21)%Z ->
         exists n,
           toFixed2 x
           = Text ((if s then "-" else "")
                     ++ digits (n / 100) ++ "."
                     ++ String (ascii_of_nat (48 + Z.to_nat (n mod 100 / 10))) ""
                     ++ String (ascii_of_nat (48 + Z.to_nat (n mod 10))) "")
           /\ option_map N.of_uint (NilZero.uint_of_string (digits (n / 100)))
              = Some (Z.to_N (n / 100))
           /\ (0 <= n)%Z
           /\ (0 <= e -> n = Z.pos m * 100 * 2 ^ e)%Z
           /\ (e < 0 ->
               (2 * n - 1) * 2 ^ (- e) <= 2 * (Z.pos m * 100)
               < (2 * n + 1) * 2 ^ (- e))%Z)
  /\ (let o1 := tick (fun _ => 0) initial initial
                  [inbound (Some 60) (Some 0.015) (Some 1000000)] in
      let o2 := tick (fun _ => 1000) initial o1
                  [inbound (Some 60) (Some 0.015) (Some 2000000)] in
      bitrate (networkStats o1) = None
      /\ bitrate_shown o1 = Placeholder
      /\ refs o1 = {| previousBytesReceived := 1000000; previousTimestamp := 0 |}
      /\ bitrate (networkStats o2) = Some (Text "8.00")
      /\ bitrate_shown o2 = Shown (Text "8.00")).
Proof.
  split; [|split; [|split; [|split]]].
  - intros clock o pre r post Hpre Hpost Hr Hz o'.
    destruct (processStats_one_inbound clock o pre r post Hpre Hpost Hr)
      as [Eb Er].
    fold o' in Eb, Er. rewrite Eb, Er. clear Eb Er o'.
    destruct (is_inbound_inv r Hr) as [Ht [f Hf]].
    unfold init_tracking, on_inbound. simpl. rewrite Hz, Ht, Hf. simpl.
    assert (Z0 : truthy 0 = false) by reflexivity.
    destruct (bytesReceived r) as [b|]; simpl;
      [rewrite Z0, andb_false_r|]; split; reflexivity.
  - intros clock o pre r post bytes Hpre Hpost Hr Hp Hb Hbt o'.
    destruct (processStats_one_inbound clock o pre r post Hpre Hpost Hr)
      as [Eb Er].
    fold o' in Eb, Er. rewrite Eb, Er. clear Eb Er o'.
    destruct (is_inbound_inv r Hr) as [Ht [f Hf]].
    unfold init_tracking, on_inbound. simpl. rewrite Hp. simpl.
    rewrite Ht, Hf, Hb, Hbt, Hp. simpl. rewrite Hbt.
    split; reflexivity.
  - intros clock o pre r post Hpre Hpost Hr Hp Hb o'.
    destruct (processStats_one_inbound clock o pre r post Hpre Hpost Hr)
      as [Eb Er].
    fold o' in Eb, Er. rewrite Eb, Er. clear Eb Er o'.
    destruct (is_inbound_inv r Hr) as [Ht [f Hf]].
    unfold init_tracking, on_inbound. simpl. rewrite Hp. simpl.
    rewrite Ht, Hf. simpl.
    destruct (bytesReceived r) as [b|]; simpl; [rewrite Hb; simpl|];
      split; reflexivity.
  - intros x s m e Hx Hsmall.
    destruct (toFixed2_nearest_hundredth x s m e Hx Hsmall) as (n & A & B & C & D).
    exists n. split; [exact A|]. split; [apply digits_read_back|].
    split; [exact B|]. split; [exact C|exact D].
  - vm_compute. repeat split; reflexivity.
Qed.

(** C6 (witness): the general parts at concrete samples; 1.005, which as a
    double is a little below, is printed [1.00]. *)
Lemma C6_bitrate_from_baseline_witness :
  (let o' := processStats (fun _ => 7) initial
               ([candidate_pair "succeeded" (Some 0.042)]
                  ++ inbound (Some 60) None (Some 5) :: []) in
   bitrate (networkStats o') = bitrate (networkStats initial)
   /\ refs o' = {| previousBytesReceived :=
                     or_else (bytesReceived (inbound (Some 60) None (Some 5))) 0;
                   previousTimestamp := 7 |})
  /\ (let o := {| networkStats := networkStats initial; frameRate := None;
                  refs := {| previousBytesReceived := 1000000;
                             previousTimestamp := 0 |} |} in
      let o' := processStats (fun _ => 1000) o
                  ([] ++ inbound (Some 60) None (Some 2000000) :: []) in
      bitrate (networkStats o')
      = Some (toFixed2 ((((2000000 - 1000000) * 8) / ((1000 - 0) / 1000))
                        / 1000000))
      /\ refs o' = {| previousBytesReceived := 2000000;
                      previousTimestamp := 1000 |})
  /\ (let o := {| networkStats := networkStats initial; frameRate := None;
                  refs := {| previousBytesReceived := 1000000;
                             previousTimestamp := 0 |} |} in
      let o' := processStats (fun _ => 1000) o
                  ([] ++ inbound (Some 60) None None :: []) in
      bitrate (networkStats o') = bitrate (networkStats o)
      /\ refs o' = {| previousBytesReceived := 0; previousTimestamp := 0 |})
  /\ toFixed2 1.005 = Text "1.00"
  /\ (exists n,
         toFixed2 1.005
         = Text ("" ++ digits (n / 100) ++ "."
                    ++ String (ascii_of_nat (48 + Z.to_nat (n mod 100 / 10))) ""
                    ++ String (ascii_of_nat (48 + Z.to_nat (n mod 10))) "")
         /\ (2 * n - 1) * 2 ^ 52 <= 2 * (4526117625507348 * 100)
             < (2 * n + 1) * 2 ^ 52)%Z.
Proof.
  pose proof C6_bitrate_from_baseline as (A & B & C & D & _).
  split; [|split; [|split; [|split]]].
  - apply (A (fun _ => 7) initial
             [candidate_pair "succeeded" (Some 0.042)]
             (inbound (Some 60) None (Some 5)) []);
      repeat constructor.
  - apply (B (fun _ => 1000)
             {| networkStats := networkStats initial; frameRate := None;
                refs := {| previousBytesReceived := 1000000;
                           previousTimestamp := 0 |} |}
             [] (inbound (Some 60) None (Some 2000000)) [] 2000000);
      repeat constructor.
  - apply (C (fun _ => 1000)
             {| networkStats := networkStats initial; frameRate := None;
                refs := {| previousBytesReceived := 1000000;
                           previousTimestamp := 0 |} |}
             [] (inbound (Some 60) None None) []);
      repeat constructor.
  - reflexivity.
  - assert (H : Prim2SF 1.005 = S754_finite false 4526117625507348 (-52))
      by reflexivity.
    destruct (D 1.005 false 4526117625507348%positive (-52)%Z H)
      as (n & E & _ & _ & _ & N); [lia|].
    exists n. split; [exact E|]. apply N. reflexivity.
Defined.

Lemma to_ms_truthy j :
  truthy j = true -> to_ms (Some j) = Some (Math_round (j * 1000)).
Proof. intros H. simpl. now rewrite H. Qed.

Lemma to_ms_zero j : is_zero j = true -> to_ms (Some j) = None.
Proof.
  unfold is_zero. intros H. simpl. unfold truthy.
  destruct (Prim2SF j); try discriminate; reflexivity.
Qed.

Lemma to_ms_some x v :
  to_ms x = Some v ->
  exists j, x = Some j /\ is_zero j = false /\ truthy j = true
            /\ v = Math_round (j * 1000).
Proof.
  destruct x as [j|]; simpl; [|discriminate].
  destruct (truthy j) eqn:T; [|discriminate].
  intros [= <-]. exists j. split; [reflexivity|]. split; [|split].
  - unfold truthy in T. unfold is_zero.
    destruct (Prim2SF j); try discriminate; reflexivity.
  - exact T.
  - reflexivity.
Qed.

Lemma Math_round_zero f : is_zero f = true -> Math_round f = Integer 0.
Proof.
  unfold is_zero, Math_round. destruct (Prim2SF f); try discriminate; reflexivity.
Qed.

(** C7 (counterexample).  A jitter of exactly 0 s in an inbound media
    report, and a round-trip time of exactly 0 s in a succeeded candidate
    pair, are not converted to 0 ms: the derived metrics are undefined. *)
Lemma C7_zero_is_not_converted :
  let o := processStats (fun _ => 0) initial
             [inbound (Some 60) (Some 0) (Some 1000000);
              candidate_pair "succeeded" (Some 0)] in
  ns_jitter (networkStats o) <> Some (Math_round (0 * 1000))
  /\ rtt (networkStats o) <> Some (Math_round (0 * 1000)).
Proof. vm_compute. split; discriminate. Qed.

(** C7 (as amended).  For every inbound media report the processor handles
    (type [inbound-rtp] with a frame rate), the frame rate becomes
    [Math.round] of the reported one, and a jitter that is not zero (nor
    NaN) becomes [Math.round(jitter * 1000)]; for every succeeded candidate
    pair, a round-trip time that is not zero (nor NaN) becomes
    [Math.round(currentRoundTripTime * 1000)].  [Math.round] of a finite
    number [m * 2^e] is the integer nearest to it, the larger one on a tie.
    A jitter of 0.015 s is shown as 15 ms and a round-trip time of 0.042 s
    as 42 ms. *)
Theorem C7_rounded_milliseconds_of_nonzero_values :
  (forall clock l r f,
      String.eqb (type r) "inbound-rtp" = true ->
      framesPerSecond r = Some f ->
      let l' := on_report clock l r in
      newFrameRate l' = Some (Math_round f)
      /\ forall j, jitter r = Some j -> truthy j = true ->
                   ns_jitter (newNetworkStats l') = Some (Math_round (j * 1000)))
  /\ (forall clock l r t,
         is_succeeded_pair r = true ->
         currentRoundTripTime r = Some t -> truthy t = true ->
         rtt (newNetworkStats (on_report clock l r))
         = Some (Math_round (t * 1000)))
  /\ (forall x s m e,
         Prim2SF x = S754_finite s m e ->
         let v := if s then Z.neg m else Z.pos m in
         exists n, Math_round x = Integer n
                   /\ (0 <= e -> n = v * 2 ^ e)%Z
                   /\ (e < 0 ->
                       (2 * n - 1) * 2 ^ (- e) <= 2 * v < (2 * n + 1) * 2 ^ (- e))%Z)
  /\ (let o := processStats (fun _ => 0) initial
                 [inbound (Some 59.94) (Some 0.015) (Some 1000000);
                  candidate_pair "succeeded" (Some 0.042)] in
      jitter_text o = Shown (Integer 15)
      /\ rtt_text o = Shown (Integer 42)
      /\ fps o = Shown (Integer 60)).
Proof.
  split; [|split; [|split]].
  - intros clock l r f Ht Hf l'. unfold l', on_report, on_candidate_pair.
    rewrite (inbound_not_pair r Ht). unfold on_inbound. rewrite Ht, Hf. simpl.
    split; [reflexivity|]. intros j Hj Tj. rewrite Hj. now apply to_ms_truthy.
  - intros clock l r t Hp Ht Tt. unfold on_report, on_inbound.
    rewrite (pair_not_inbound r Hp). unfold on_candidate_pair.
    rewrite Hp, Ht. simpl. now rewrite Tt.
  - intros x s m e Hx v. unfold Math_round. rewrite Hx. fold v.
    exists (round_half_up v e). split; [reflexivity|]. split.
    + apply round_half_up_integer.
    + intros He. now apply round_half_up_nearest.
  - vm_compute. repeat split; reflexivity.
Qed.

(** C7 (witness): the three general parts at concrete reports. *)
Lemma C7_rounded_milliseconds_witness :
  (let l := {| newNetworkStats := networkStats initial; newFrameRate := None;
               cur := refs initial; reads := 0 |} in
   let l' := on_report (fun _ => 0) l (inbound (Some 59.94) (Some 0.015) None) in
   newFrameRate l' = Some (Math_round 59.94)
   /\ ns_jitter (newNetworkStats l') = Some (Math_round (0.015 * 1000)))
  /\ (let l := {| newNetworkStats := networkStats initial; newFrameRate := None;
                  cur := refs initial; reads := 0 |} in
      rtt (newNetworkStats
             (on_report (fun _ => 0) l (candidate_pair "succeeded" (Some 0.042))))
      = Some (Math_round (0.042 * 1000)))
  /\ (exists n, Math_round 2.5 = Integer n
                /\ (2 * n - 1) * 2 ^ 51 <= 2 * 5629499534213120
                    < (2 * n + 1) * 2 ^ 51)%Z.
Proof.
  pose proof C7_rounded_milliseconds_of_nonzero_values as (A & B & C & _).
  split; [|split].
  - destruct (A (fun _ => 0)
                {| newNetworkStats := networkStats initial; newFrameRate := None;
                   cur := refs initial; reads := 0 |}
                (inbound (Some 59.94) (Some 0.015) None) 59.94
                eq_refl eq_refl) as [F J].
    split; [exact F|]. apply J; reflexivity.
  - apply B; reflexivity.
  - assert (H : Prim2SF 2.5 = S754_finite false 5629499534213120 (-51))
      by reflexivity.
    destruct (C 2.5 false 5629499534213120%positive (-51)%Z H) as (n & E & _ & N).
    exists n. split; [exact E|]. apply N. reflexivity.
Defined.

(** C10.  A jitter of exactly zero in a processed inbound media report and
    a round-trip time of exactly zero in a succeeded candidate pair give an
    undefined metric, rendered as the placeholder; a frame rate of exactly
    zero is rendered as the placeholder as well; and whenever the processor
    stores a jitter or a round-trip time, the raw value was not zero and the
    stored value is its conversion to milliseconds. *)
Theorem C10_zero_renders_as_placeholder :
  (forall clock o r j,
      is_inbound r = true -> jitter r = Some j -> is_zero j = true ->
      let o' := processStats clock o [r] in
      ns_jitter (networkStats o') = None /\ jitter_text o' = Placeholder)
  /\ (forall clock o r t,
         is_succeeded_pair r = true ->
         currentRoundTripTime r = Some t -> is_zero t = true ->
         let o' := processStats clock o [r] in
         rtt (networkStats o') = None /\ rtt_text o' = Placeholder)
  /\ (forall clock o r f,
         String.eqb (type r) "inbound-rtp" = true ->
         framesPerSecond r = Some f -> is_zero f = true ->
         let o' := processStats clock o [r] in
         frameRate o' = Some (Integer 0) /\ fps o' = Placeholder)
  /\ (forall clock l r v,
         is_inbound r = true ->
         ns_jitter (newNetworkStats (on_report clock l r)) = Some v ->
         exists j, jitter r = Some j /\ is_zero j = false
                   /\ v = Math_round (j * 1000))
  /\ (forall clock l r v,
         is_succeeded_pair r = true ->
         rtt (newNetworkStats (on_report clock l r)) = Some v ->
         exists t, currentRoundTripTime r = Some t /\ is_zero t = false
                   /\ v = Math_round (t * 1000)).
Proof.
  split; [|split; [|split; [|split]]].
  - intros clock o r j Hr Hj Hz o'.
    destruct (is_inbound_inv r Hr) as [Ht [f Hf]].
    assert (E : ns_jitter (networkStats o') = None).
    { unfold o', processStats. simpl. unfold on_report, on_candidate_pair.
      rewrite (inbound_not_pair r Ht). unfold on_inbound. rewrite Ht, Hf. simpl.
      rewrite Hj. now apply to_ms_zero. }
    split; [exact E|]. unfold jitter_text. now rewrite E.
  - intros clock o r t Hp Ht Hz o'.
    assert (E : rtt (networkStats o') = None).
    { unfold o', processStats. simpl. unfold on_report, on_inbound.
      rewrite (pair_not_inbound r Hp). unfold on_candidate_pair.
      rewrite Hp, Ht. simpl. now apply to_ms_zero. }
    split; [exact E|]. unfold rtt_text. now rewrite E.
  - intros clock o r f Ht Hf Hz o'.
    assert (E : frameRate o' = Some (Integer 0)).
    { unfold o', processStats. simpl. unfold on_report, on_candidate_pair.
      rewrite (inbound_not_pair r Ht). unfold on_inbound. rewrite Ht, Hf. simpl.
      now rewrite (Math_round_zero f Hz). }
    split; [exact E|]. unfold fps. now rewrite E.
  - intros clock l r v Hr Hv.
    destruct (is_inbound_inv r Hr) as [Ht [f Hf]].
    unfold on_report, on_candidate_pair in Hv.
    rewrite (inbound_not_pair r Ht) in Hv. unfold on_inbound in Hv.
    rewrite Ht, Hf in Hv. simpl in Hv.
    destruct (to_ms_some _ _ Hv) as (j & Hj & Z & _ & E). eauto.
  - intros clock l r v Hp Hv.
    unfold on_report, on_inbound in Hv.
    rewrite (pair_not_inbound r Hp) in Hv. unfold on_candidate_pair in Hv.
    rewrite Hp in Hv. simpl in Hv.
    destruct (to_ms_some _ _ Hv) as (t & Ht & Z & _ & E). eauto.
Qed.

(** C10 (witness): zero jitter, zero round-trip time and zero frame rate in
    concrete reports, and a stored jitter and a stored round-trip time
    traced back to their raw values. *)
Lemma C10_zero_renders_as_placeholder_witness :
  (let o' := processStats (fun _ => 0) initial [inbound (Some 60) (Some 0) None] in
   ns_jitter (networkStats o') = None /\ jitter_text o' = Placeholder)
  /\ (let o' := processStats (fun _ => 0) initial
                  [candidate_pair "succeeded" (Some 0)] in
      rtt (networkStats o') = None /\ rtt_text o' = Placeholder)
  /\ (let o' := processStats (fun _ => 0) initial [inbound (Some 0) None None] in
      frameRate o' = Some (Integer 0) /\ fps o' = Placeholder)
  /\ (exists j, jitter (inbound (Some 60) (Some 0.015) None) = Some j
                /\ is_zero j = false /\ Integer 15 = Math_round (j * 1000))
  /\ (exists t, currentRoundTripTime (candidate_pair "succeeded" (Some 0.042))
                = Some t
                /\ is_zero t = false /\ Integer 42 = Math_round (t * 1000)).
Proof.
  pose proof C10_zero_renders_as_placeholder as (A & B & C & D & E).
  split; [|split; [|split; [|split]]].
  - apply (A (fun _ => 0) initial (inbound (Some 60) (Some 0) None) 0);
      reflexivity.
  - apply (B (fun _ => 0) initial (candidate_pair "succeeded" (Some 0)) 0);
      reflexivity.
  - apply (C (fun _ => 0) initial (inbound (Some 0) None None) 0); reflexivity.
  - apply (D (fun _ => 0)
             {| newNetworkStats := networkStats initial; newFrameRate := None;
                cur := refs initial; reads := 0 |}
             (inbound (Some 60) (Some 0.015) None) (Integer 15));
      reflexivity.
  - apply (E (fun _ => 0)
             {| newNetworkStats := networkStats initial; newFrameRate := None;
                cur := refs initial; reads := 0 |}
             (candidate_pair "succeeded" (Some 0.042)) (Integer 42));
      reflexivity.
Defined.

End StatsClaims.

(** ** Controller: runs that nothing interrupts *)

Import Controller.

Local Open Scope controller_scope.

Lemma seq_and_then A B (r : Res A) (k : A -> M B) :
  seq (and_then r k)
  = match seq r with
    | (Returned a, w) => seq (k a w)
    | (Threw e, w) => (Threw e, w)
    | (OutOfFuel, w) => (OutOfFuel, w)
    end.
Proof.
  induction r as [[a|e|] w|w ms rest IH]; cbn; try reflexivity.
  apply IH.
Qed.

Lemma seq_caught A (r : Res A) (handler : Thrown -> M A) :
  seq (caught r handler)
  = match seq r with
    | (Threw e, w) => seq (handler e w)
    | other => other
    end.
Proof.
  induction r as [[a|e|] w|w ms rest IH]; cbn; try reflexivity.
  apply IH.
Qed.

Lemma alone_bind A B (m : M A) (k : A -> M B) w :
  alone (bind m k) w
  = match alone m w with
    | (Returned a, w') => alone (k a) w'
    | (Threw e, w') => (Threw e, w')
    | (OutOfFuel, w') => (OutOfFuel, w')
    end.
Proof. unfold alone, bind. apply seq_and_then. Qed.

Lemma alone_try_catch A (m : M A) (handler : Thrown -> M A) w :
  alone (try_catch m handler) w
  = match alone m w with
    | (Threw e, w') => alone (handler e) w'
    | other => other
    end.
Proof. unfold alone, try_catch. apply seq_caught. Qed.

Ltac unfold_methods :=
  cbv beta delta [alone poll try_catch bind ret throw bearer log await sleep
                  JSON_parse startStream processSignalResponse attachInput
                  close generateSignalRequest this_gameliftstreams handleError
                  handleTimeout alert setState getState Date_now
                  resetGameLiftStreamsSDK exitFullscreen requestFullscreen
                  componentDidMount createStreamSessionConnection
                  closeConnection enableFullScreen handleInputChange
                  handleRegionChange] in *.

Ltac split_step :=
  match goal with
  | |- context [match outcome ?p with _ => _ end] => destruct (outcome p) eqn:?
  | |- context [match gameliftstreams ?w with _ => _ end] =>
      is_var w; destruct (gameliftstreams w) eqn:?
  | |- context [match body ?r with _ => _ end] => destruct (body r) eqn:?
  | |- context [match session_status ?d with _ => _ end] =>
      destruct (session_status d) eqn:?
  | |- context [if String.eqb ?a ?b then _ else _] =>
      destruct (String.eqb a b) eqn:?
  | |- context [if videoElement ?e then _ else _] => destruct (videoElement e) eqn:?
  | |- context [if keyboard ?e then _ else _] => destruct (keyboard e) eqn:?
  | |- context [fullscreenGranted ?e] => destruct (fullscreenGranted e) eqn:?
  | |- context [if fullscreenElement ?w then _ else _] =>
      is_var w; destruct (fullscreenElement w) eqn:?
  | |- context [match ?x with _ => _ end] => is_var x; destruct x eqn:?
  end.

Ltac split_cases := repeat (cbn in *; split_step).

(** ** Controller: runs that others interrupt *)

Section RelyGuarantee.

Variable R : World -> N -> World -> Prop.
Variable G : World -> World -> Prop.

Lemma rely_guarantee_weaken A (P Q : World -> Outcome A -> World -> Prop) :
  (forall w0 o w, P w0 o w -> Q w0 o w) ->
  forall r w0, rely_guarantee R G P w0 r -> rely_guarantee R G Q w0 r.
Proof.
  intros HPQ. induction r as [o w|w ms k IH]; intros w0; cbn.
  - apply HPQ.
  - intros [Hg Hk]. split; [exact Hg|]. intros w' Hr. apply IH, Hk, Hr.
Qed.

Lemma rely_guarantee_and_then A B (P : World -> Outcome A -> World -> Prop)
      (Q : World -> Outcome B -> World -> Prop) (k : A -> M B) :
  (forall w0 a w, P w0 (Returned a) w -> rely_guarantee R G Q w0 (k a w)) ->
  (forall w0 e w, P w0 (Threw e) w -> Q w0 (Threw e) w) ->
  (forall w0 w, P w0 OutOfFuel w -> Q w0 OutOfFuel w) ->
  forall r w0, rely_guarantee R G P w0 r -> rely_guarantee R G Q w0 (and_then r k).
Proof.
  intros Hk He Hf. induction r as [o w|w ms k' IH]; intros w0; cbn.
  - destruct o as [a|e|]; [apply Hk|apply He|apply Hf].
  - intros [Hg Hk']. split; [exact Hg|]. intros w' Hr. apply IH, Hk', Hr.
Qed.

Lemma rely_guarantee_caught A (P Q : World -> Outcome A -> World -> Prop)
      (handler : Thrown -> M A) :
  (forall w0 a w, P w0 (Returned a) w -> Q w0 (Returned a) w) ->
  (forall w0 e w, P w0 (Threw e) w -> rely_guarantee R G Q w0 (handler e w)) ->
  (forall w0 w, P w0 OutOfFuel w -> Q w0 OutOfFuel w) ->
  forall r w0, rely_guarantee R G P w0 r -> rely_guarantee R G Q w0 (caught r handler).
Proof.
  intros Ha Hh Hf. induction r as [o w|w ms k' IH]; intros w0; cbn.
  - destruct o as [a|e|]; [apply Ha|apply Hh|apply Hf].
  - intros [Hg Hk']. split; [exact Hg|]. intros w' Hr. apply IH, Hk', Hr.
Qed.

(** A run that nothing interrupts is one of the runs considered, when the
    passing of time alone is a way to resume. *)
Lemma rely_guarantee_seq A (Q : World -> Outcome A -> World -> Prop) :
  (forall w ms, R w ms (elapse ms w)) ->
  (forall w0 w ms o w', G w0 w -> Q (elapse ms w) o w' -> Q w0 o w') ->
  forall r w0, rely_guarantee R G Q w0 r -> Q w0 (fst (seq r)) (snd (seq r)).
Proof.
  intros HR Hstep. induction r as [o w|w ms k IH]; intros w0; cbn.
  - auto.
  - intros [Hg Hk]. eapply Hstep; [exact Hg|]. apply IH, Hk, HR.
Qed.

End RelyGuarantee.



Ltac split_runs :=
  repeat (cbn in *;
          first [ split_step
                | match goal with
                  | |- _ /\ (forall w' : World, _) => split; [|intros ? ?]
                  end ]).

(** ** Controller: the poll loop always ends *)

(** One iteration never runs out of fuel, and goes on to the next iteration
    only after 1000 ms or more. *)
Lemma poll_timely env arn sg i w w0 :
  rely_guarantee timely anything
    (fun _ o w' => o <> OutOfFuel
                   /\ (o = Returned Continue -> now w + 1000 <= now w'))
    w0 (poll env arn sg i w).
Proof.
  unfold_methods. unfold timely, anything. split_runs; cbn;
    repeat split; try discriminate; try lia.
Qed.

Lemma poll_loop_timely env arn sg startTime timeoutMs fuel : forall i w w0,
  (1 <= fuel)%nat ->
  timeoutMs - (now w - startTime) <= 1000 * (Z.of_nat fuel - 1) ->
  rely_guarantee timely anything finished w0
    (poll_loop env fuel arn sg startTime timeoutMs i w).
Proof.
  induction fuel as [|fuel IH]; intros i w w0 Hf Hrem; [lia|].
  rewrite Nat2Z.inj_succ in Hrem. cbn [poll_loop]. unfold bind at 1.
  cbn [Date_now and_then].
  destruct (Z.ltb_spec (now w - startTime) timeoutMs) as [Hlt|Hge].
  - unfold bind. eapply rely_guarantee_and_then; [| | |apply poll_timely].
    + intros w1 [|] w' [_ Hwait]; [discriminate|].
      specialize (Hwait eq_refl). apply IH; lia.
    + intros; discriminate.
    + intros w1 w' [H _]. now contradiction H.
  - cbn. discriminate.
Qed.

Lemma poll_fuel_enough timeoutMs w :
  timeoutMs - (now w - now w) <= 1000 * (Z.of_nat (poll_fuel timeoutMs) - 1).
Proof.
  unfold poll_fuel.
  destruct (Z.le_gt_cases 0 timeoutMs) as [H|H]; [|lia].
  rewrite Nat2Z.inj_add, Z2Nat.id by (apply Z.div_pos; lia).
  pose proof (Z.mul_succ_div_gt timeoutMs 1000 ltac:(lia)). lia.
Qed.

Lemma waitForACTIVE_timely env arn sg timeoutMs w w0 :
  rely_guarantee timely anything finished w0 (waitForACTIVE env arn sg timeoutMs w).
Proof.
  unfold waitForACTIVE, bind. cbn [Date_now and_then].
  apply poll_loop_timely; [unfold poll_fuel; lia|apply poll_fuel_enough].
Qed.

Lemma timely_elapse w ms : timely w ms (elapse ms w).
Proof. unfold timely. cbn. lia. Qed.

(** Left alone, [waitForACTIVE] returns. *)
Lemma waitForACTIVE_total env arn sg timeoutMs w :
  fst (alone (waitForACTIVE env arn sg timeoutMs) w) <> OutOfFuel.
Proof.
  apply (rely_guarantee_seq timely anything _ finished timely_elapse
           (fun _ _ _ _ _ _ H => H) _ w), waitForACTIVE_timely.
Qed.

Lemma poll_loop_step env fuel arn sg startTime timeoutMs i w :
  alone (poll_loop env (S fuel) arn sg startTime timeoutMs i) w
  = if now w - startTime <? timeoutMs then
      match alone (poll env arn sg i) w with
      | (Returned Return, w') => (Returned tt, w')
      | (Returned Continue, w') =>
          alone (poll_loop env fuel arn sg startTime timeoutMs (S i)) w'
      | (Threw e, w') => (Threw e, w')
      | (OutOfFuel, w') => (OutOfFuel, w')
      end
    else
      let s := set_isStreamStarting false (state w) in
      (Returned tt,
       record (SetState s) (with_state s (record timeout_alert w))).
Proof.
  cbn [poll_loop]. rewrite alone_bind. cbn [alone Date_now seq].
  destruct (now w - startTime <? timeoutMs).
  - rewrite alone_bind.
    destruct (alone (poll env arn sg i) w) as [[[|]| |] w']; reflexivity.
  - reflexivity.
Qed.

Lemma alone_waitForACTIVE env arn sg timeoutMs w :
  alone (waitForACTIVE env arn sg timeoutMs) w
  = alone (poll_loop env (poll_fuel timeoutMs) arn sg (now w) timeoutMs 0) w.
Proof. unfold waitForACTIVE. rewrite alone_bind. reflexivity. Qed.

(** ** Controller: one poll *)

Lemma poll_waits env arn sg i w token data :
  outcome (get_auth env i) = Fulfilled token ->
  outcome (get_response env i) = Fulfilled (Json data) ->
  session_status data <> Some "ACTIVE" ->
  alone (poll env arn sg i) w = (Returned Continue, waited env arn sg i token w).
Proof.
  intros Ha Hg Hs. unfold_methods. cbn. rewrite Ha. cbn. rewrite Hg. cbn.
  destruct (session_status data) as [st|] eqn:E; [|reflexivity].
  destruct (String.eqb_spec st "ACTIVE") as [->|_]; [congruence|reflexivity].
Qed.

Lemma poll_starts env arn sg i w token data h :
  outcome (get_auth env i) = Fulfilled token ->
  outcome (get_response env i) = Fulfilled (Json data) ->
  session_status data = Some "ACTIVE" ->
  gameliftstreams w = Some h ->
  outcome (answer env (signalResponse data)) = Fulfilled tt ->
  alone (poll env arn sg i) w = (Returned Return, started env arn sg i token data h w).
Proof.
  intros Ha Hg Hs Hh Hans. unfold_methods. cbn. rewrite Ha. cbn. rewrite Hg. cbn.
  rewrite Hs. cbn. rewrite Hh. cbn. rewrite Hans. cbn. rewrite Hh. reflexivity.
Qed.

Lemma gets_waited env arn sg i token w :
  gets (trace (waited env arn sg i token w)) = S (gets (trace w)).
Proof. reflexivity. Qed.

Lemma now_waited env arn sg i token w :
  now (waited env arn sg i token w)
  = now w + Z.of_N (took (get_auth env i)) + Z.of_N (took (get_response env i))
    + 1000 + Z.of_N (timer_lateness env i).
Proof. cbn. lia. Qed.

(** ** Controller: a start that the gateway refuses *)




(** C8 (the code at the failing input).  When the [POST] of
    [createStreamSession] or of [createStreamSessionConnection] fails with
    an [ApiError] that carries no response, the method returns with
    [isStreamStarting] still true, as it set it on entry.  The same failure
    of a [GET] inside the poll loop does reset it. *)
Theorem C8_failure_without_response_leaves_isStreamStarting_set :
  (forall env w request token,
      outcome (offer env) = Fulfilled request ->
      outcome (post_auth env) = Fulfilled token ->
      outcome (start_response env) = Rejected (ApiError None) ->
      let r := alone (createStreamSession env) w in
      fst r = Returned tt
      /\ state (snd r) = set_isStreamStarting true (state w)
      /\ isStreamStarting (state (snd r)) = true)
  /\ (forall env w request token,
         outcome (offer env) = Fulfilled request ->
         outcome (post_auth env) = Fulfilled token ->
         outcome (reconnect_response env) = Rejected (ApiError None) ->
         let r := alone (createStreamSessionConnection env) w in
         fst r = Returned tt
         /\ state (snd r) = set_isStreamStarting true (state w)
         /\ isStreamStarting (state (snd r)) = true)
  /\ (forall env arn sg i w token,
         outcome (get_auth env i) = Fulfilled token ->
         outcome (get_response env i) = Rejected (ApiError None) ->
         let r := alone (poll env arn sg i) w in
         fst r = Returned Return /\ isStreamStarting (state (snd r)) = false)
  /\ (let r := alone (createStreamSession (refusing (ApiError None))) (mounted 0) in
      fst r = Returned tt
      /\ status (state (snd r)) = STOPPED
      /\ isStreamStarting (state (snd r)) = true).
Proof.
  split; [|split; [|split]].
  - intros env w request token Ho Ha Hr.
    unfold createStreamSession. unfold_methods. cbn.
    destruct (gameliftstreams w) as [h|]; cbn;
      rewrite ?Ho; cbn; rewrite Ha; cbn; rewrite Hr; cbn;
      repeat split; reflexivity.
  - intros env w request token Ho Ha Hr.
    unfold_methods. cbn.
    destruct (gameliftstreams w) as [h|]; cbn;
      rewrite ?Ho; cbn; rewrite Ha; cbn; rewrite Hr; cbn;
      repeat split; reflexivity.
  - intros env arn sg i w token Ha Hr.
    unfold_methods. rewrite Ha. cbn. rewrite Hr. cbn. split; reflexivity.
  - vm_compute. repeat split; reflexivity.
Qed.

(** C8 (witness): the general parts at a start and at a reconnect whose
    [POST] fails without a response, and at a poll whose [GET] does. *)
Lemma C8_failure_without_response_witness :
  (let r := alone (createStreamSession (refusing (ApiError None))) (mounted 0) in
   fst r = Returned tt
   /\ state (snd r) = set_isStreamStarting true (state (mounted 0))
   /\ isStreamStarting (state (snd r)) = true)
  /\ (let r := alone (createStreamSessionConnection (refusing (ApiError None)))
                 (mounted 0) in
      fst r = Returned tt
      /\ state (snd r) = set_isStreamStarting true (state (mounted 0))
      /\ isStreamStarting (state (snd r)) = true)
  /\ (let env := outside (instantly (Json (session "ACTIVATING")))
                         (fun _ => failing (ApiError None)) in
      let r := alone (poll env "arn" "sg" 0)
                 (with_state (set_isStreamStarting true constructed_state)
                             (mounted 0)) in
      fst r = Returned Return /\ isStreamStarting (state (snd r)) = false).
Proof.
  pose proof C8_failure_without_response_leaves_isStreamStarting_set
    as (A & B & C & _).
  split; [|split].
  - apply (A (refusing (ApiError None)) (mounted 0) "offer" (Some "token"));
      reflexivity.
  - apply (B (refusing (ApiError None)) (mounted 0) "offer" (Some "token"));
      reflexivity.
  - apply (C _ "arn" "sg" 0%nat _ (Some "token")); reflexivity.
Defined.

(** ** Controller: a poll loop that never sees the session active *)

Lemma poll_loop_times_out env arn sg startTime timeoutMs :
  (forall i, not_yet_active env i) ->
  forall fuel i w,
    (1 <= fuel)%nat ->
    timeoutMs - (now w - startTime) <= 1000 * (Z.of_nat fuel - 1) ->
    let r := alone (poll_loop env fuel arn sg startTime timeoutMs i) w in
    fst r = Returned tt
    /\ state (snd r) = set_isStreamStarting false (state w)
    /\ gameliftstreams (snd r) = gameliftstreams w
    /\ startTime + timeoutMs <= now (snd r)
    /\ now w <= now (snd r)
    /\ firstn 2 (trace (snd r))
       = [(now (snd r), SetState (state (snd r))); (now (snd r), timeout_alert)]
    /\ (gets (trace w) <= gets (trace (snd r)))%nat
    /\ 1000 * Z.of_nat (gets (trace (snd r)) - gets (trace w))
       < Z.max (timeoutMs - (now w - startTime)) 0 + 1000.
Proof.
  intros Hnever. induction fuel as [|fuel IH]; intros i w Hf Hrem r; [lia|].
  rewrite Nat2Z.inj_succ in Hrem.
  unfold r; clear r. rewrite poll_loop_step.
  destruct (Z.ltb_spec (now w - startTime) timeoutMs) as [Hlt|Hge].
  - destruct (Hnever i) as [[token Ha] [data [Hg Hs]]].
    rewrite (poll_waits env arn sg i w token data Ha Hg Hs).
    pose proof (now_waited env arn sg i token w) as Hnow.
    pose proof (gets_waited env arn sg i token w) as Hgets.
    set (w1 := waited env arn sg i token w) in *.
    assert (Hst : state w1 = state w) by reflexivity.
    assert (Hgl : gameliftstreams w1 = gameliftstreams w) by reflexivity.
    destruct (IH (S i) w1) as (R & S1 & G & D & N & F & C1 & C2); [lia|lia|].
    rewrite Hst in S1. rewrite Hgl in G.
    repeat split; try assumption; try lia.
  - cbv zeta.
    set (final := record (SetState _) (with_state _ (record timeout_alert w))).
    assert (Hg : gets (trace final) = gets (trace w)) by reflexivity.
    assert (Hn : now final = now w) by reflexivity.
    cbn [fst snd]. rewrite Hg, Hn, Nat.sub_diag.
    repeat split; try reflexivity; lia.
Qed.

(** C3 (the failing input).  After [waitForACTIVE] with [timeoutMs = 3000]
    has timed out against a gateway that never reports the session active,
    the status is not [ERROR]: it still is [STOPPED]. *)
Lemma C3_timeout_does_not_set_ERROR :
  status (state (snd (alone (waitForACTIVE never_active "arn:x:streamsession/sg-abc/sess-1"
                        "sg-abc" 3000) (mounted 0))))
  <> ERROR.
Proof. vm_compute. discriminate. Qed.

(** C3 (the code at the failing input).  If every poll is answered and
    none reports the session active, [waitForACTIVE] returns at the first
    check of the clock at or after the deadline [now() + timeoutMs]: the
    last things it does are the timeout alert and setting
    [isStreamStarting] false, and it has sent fewer than
    [timeoutMs / 1000 + 1] [GET /session] requests.  Nothing else of the
    state changes: the status stays what it was and is not set to [ERROR],
    though [handleTimeout] is documented to set the timeout error in the
    state.  With [timeoutMs = 3000] and nothing but the timers taking time,
    it sends three requests and times out at 3000 ms, with status
    [STOPPED]. *)
Theorem C3_poll_times_out_without_ERROR :
  (forall env arn sg timeoutMs w,
      (forall i, not_yet_active env i) ->
      let r := alone (waitForACTIVE env arn sg timeoutMs) w in
      fst r = Returned tt
      /\ state (snd r) = set_isStreamStarting false (state w)
      /\ status (state (snd r)) = status (state w)
      /\ isStreamStarting (state (snd r)) = false
      /\ now w + timeoutMs <= now (snd r)
      /\ firstn 2 (trace (snd r))
         = [(now (snd r), SetState (state (snd r)));
            (now (snd r), timeout_alert)]
      /\ (gets (trace w) <= gets (trace (snd r)))%nat
      /\ 1000 * Z.of_nat (gets (trace (snd r)) - gets (trace w))
         < Z.max timeoutMs 0 + 1000)
  /\ (let r := alone (waitForACTIVE never_active "arn:x:streamsession/sg-abc/sess-1"
                        "sg-abc" 3000) (mounted 0) in
      fst r = Returned tt
      /\ status (state (snd r)) = STOPPED
      /\ isStreamStarting (state (snd r)) = false
      /\ gets (trace (snd r)) = 3%nat
      /\ now (snd r) = 3000).
Proof.
  split.
  - intros env arn sg timeoutMs w Hnever.
    rewrite alone_waitForACTIVE.
    destruct (poll_loop_times_out env arn sg (now w) timeoutMs Hnever
                (poll_fuel timeoutMs) 0 w)
      as (R & S1 & _ & D & _ & F & C1 & C2).
    + unfold poll_fuel. lia.
    + apply poll_fuel_enough.
    + cbv zeta. rewrite S1. replace (timeoutMs - (now w - now w)) with timeoutMs in C2 by lia.
      repeat split; try assumption.
      rewrite <- S1. exact F.
  - vm_compute. repeat split; reflexivity.
Qed.

(** C3 (witness): the general part at the gateway that never reports the
    session active. *)
Lemma C3_poll_times_out_witness :
  let r := alone (waitForACTIVE never_active "arn" "sg" 3000) (mounted 0) in
  fst r = Returned tt
  /\ state (snd r) = set_isStreamStarting false (state (mounted 0))
  /\ status (state (snd r)) = status (state (mounted 0))
  /\ isStreamStarting (state (snd r)) = false
  /\ now (mounted 0) + 3000 <= now (snd r)
  /\ firstn 2 (trace (snd r))
     = [(now (snd r), SetState (state (snd r))); (now (snd r), timeout_alert)]
  /\ (gets (trace (mounted 0)) <= gets (trace (snd r)))%nat
  /\ 1000 * Z.of_nat (gets (trace (snd r)) - gets (trace (mounted 0)))
     < Z.max 3000 0 + 1000.
Proof.
  apply (proj1 C3_poll_times_out_without_ERROR never_active "arn" "sg" 3000
           (mounted 0)).
  intros i. split.
  - exists (Some "token"). reflexivity.
  - exists (session "ACTIVATING"). split; [reflexivity|discriminate].
Defined.

(** ** Controller: a session that is active at the third poll *)

Lemma poll_duration_bound env i : 1000 <= poll_duration env i.
Proof. unfold poll_duration. lia. Qed.

(** C4.  If the first two polls report the session [ACTIVATING] and the
    third reports it [ACTIVE] (the third beginning before the deadline, the
    transport engine accepting the answer), then [waitForACTIVE] returns
    after exactly three [GET /session] requests, the third sent 2000 ms or
    more after the start; the last things it does are to apply the
    [signalResponse] of the third response to the handle, to attach input,
    to set status [RUNNING] with [isStreamStarting] false, and to set
    [lastSessionId] to the ARN.  With timers that fire on time and nothing
    else taking time, the default timeout gives [RUNNING] at 2000 ms. *)
Theorem C4_active_at_third_poll_starts_the_stream :
  (forall env arn sg timeoutMs w h t0 t1 t2 d0 d1 d2,
      gameliftstreams w = Some h ->
      outcome (get_auth env 0) = Fulfilled t0 ->
      outcome (get_response env 0) = Fulfilled (Json d0) ->
      session_status d0 = Some "ACTIVATING" ->
      outcome (get_auth env 1) = Fulfilled t1 ->
      outcome (get_response env 1) = Fulfilled (Json d1) ->
      session_status d1 = Some "ACTIVATING" ->
      outcome (get_auth env 2) = Fulfilled t2 ->
      outcome (get_response env 2) = Fulfilled (Json d2) ->
      session_status d2 = Some "ACTIVE" ->
      outcome (answer env (signalResponse d2)) = Fulfilled tt ->
      poll_duration env 0 + poll_duration env 1 < timeoutMs ->
      let r := alone (waitForACTIVE env arn sg timeoutMs) w in
      fst r = Returned tt
      /\ gets (trace (snd r)) = (gets (trace w) + 3)%nat
      /\ state (snd r)
         = set_lastSessionId arn
             (set_isStreamStarting false (set_status RUNNING (state w)))
      /\ status (state (snd r)) = RUNNING
      /\ isStreamStarting (state (snd r)) = false
      /\ lastSessionId (state (snd r)) = arn
      /\ exists t_get t_applied,
          now w + 2000 <= t_get /\ t_get <= t_applied
          /\ t_applied <= now (snd r)
          /\ firstn 5 (trace (snd r))
             = [(now (snd r), SetState (state (snd r)));
                (now (snd r),
                 SetState (set_isStreamStarting false
                             (set_status RUNNING (state w))));
                (now (snd r), AttachInput h);
                (t_applied, ProcessSignalResponse h (signalResponse d2));
                (t_get, Get sg arn (authorization t2))])
  /\ (let r := alone (waitForACTIVE active_at_third "arn:x:streamsession/sg-abc/sess-1"
                        "sg-abc" default_timeoutMs) (mounted 0) in
      fst r = Returned tt
      /\ gets (trace (snd r)) = 3%nat
      /\ status (state (snd r)) = RUNNING
      /\ lastSessionId (state (snd r)) = "arn:x:streamsession/sg-abc/sess-1"
      /\ now (snd r) = 2000
      /\ firstn 3 (tl (trace (snd r)))
         = [(2000, SetState (set_isStreamStarting false
                               (set_status RUNNING constructed_state)));
            (2000, AttachInput 0%nat);
            (2000, ProcessSignalResponse 0%nat "answer")]).
Proof.
  split.
  - intros env arn sg timeoutMs w h t0 t1 t2 d0 d1 d2
           Hh A0 G0 S0 A1 G1 S1 A2 G2 S2 Hans Hdl r.
    pose proof (poll_duration_bound env 0) as B0.
    pose proof (poll_duration_bound env 1) as B1.
    assert (N0 : session_status d0 <> Some "ACTIVE") by (rewrite S0; discriminate).
    assert (N1 : session_status d1 <> Some "ACTIVE") by (rewrite S1; discriminate).
    assert (Hfuel : exists f, poll_fuel timeoutMs = S (S (S f))).
    { unfold poll_fuel.
      assert (2 <= timeoutMs / 1000) by (apply Z.div_le_lower_bound; lia).
      exists (Z.to_nat (timeoutMs / 1000) - 1)%nat. lia. }
    destruct Hfuel as [f Hf].
    set (w1 := waited env arn sg 0 t0 w).
    set (w2 := waited env arn sg 1 t1 w1).
    assert (T1 : now w1 = now w + poll_duration env 0)
      by (unfold w1, poll_duration; rewrite now_waited; lia).
    assert (T2 : now w2 = now w1 + poll_duration env 1)
      by (unfold w2, poll_duration; rewrite now_waited; lia).
    assert (E : r = (Returned tt, started env arn sg 2 t2 d2 h w2)).
    { unfold r. rewrite alone_waitForACTIVE, Hf.
      rewrite poll_loop_step.
      destruct (Z.ltb_spec (now w - now w) timeoutMs); [|lia].
      rewrite (poll_waits env arn sg 0 w t0 d0 A0 G0 N0). fold w1.
      rewrite poll_loop_step.
      destruct (Z.ltb_spec (now w1 - now w) timeoutMs); [|lia].
      rewrite (poll_waits env arn sg 1 w1 t1 d1 A1 G1 N1). fold w2.
      rewrite poll_loop_step.
      destruct (Z.ltb_spec (now w2 - now w) timeoutMs); [|lia].
      rewrite (poll_starts env arn sg 2 w2 t2 d2 h A2 G2 S2 Hh Hans).
      reflexivity. }
    rewrite E. cbn [fst snd].
    split; [reflexivity|].
    split; [unfold w2, w1; rewrite Nat.add_comm; reflexivity|].
    split; [reflexivity|]. split; [reflexivity|].
    split; [reflexivity|]. split; [reflexivity|].
    exists (now w2 + Z.of_N (took (get_auth env 2))),
           (now w2 + Z.of_N (took (get_auth env 2))
            + Z.of_N (took (get_response env 2))).
    split; [lia|]. split; [lia|]. split; [cbn; lia|]. reflexivity.
  - vm_compute. repeat split; reflexivity.
Qed.

(** C4 (witness): the general part at the gateway whose third answer is
    [ACTIVE], with the default timeout. *)
Lemma C4_active_at_third_poll_witness :
  let r := alone (waitForACTIVE active_at_third "arn" "sg" default_timeoutMs)
             (mounted 0) in
  fst r = Returned tt
  /\ gets (trace (snd r)) = (gets (trace (mounted 0)) + 3)%nat
  /\ status (state (snd r)) = RUNNING
  /\ lastSessionId (state (snd r)) = "arn".
Proof.
  destruct (proj1 C4_active_at_third_poll_starts_the_stream
              active_at_third "arn" "sg" default_timeoutMs (mounted 0) 0%nat
              (Some "token") (Some "token") (Some "token")
              (session "ACTIVATING") (session "ACTIVATING") (session "ACTIVE")
              eq_refl eq_refl eq_refl eq_refl eq_refl eq_refl eq_refl
              eq_refl eq_refl eq_refl eq_refl eq_refl)
    as (R & G & _ & S & _ & L & _).
  repeat split; assumption.
Defined.

(** ** Controller: one live handle *)

Lemma handles_inv_ok w : handles_inv w -> handles_ok w.
Proof.
  intros (h & G & _ & N & C & R). split; [exact R|].
  exists h. split; [exact G|]. intros x. unfold live.
  rewrite andb_true_iff, negb_true_iff.
  specialize (N x). specialize (C x).
  destruct (mem x (closes (trace w))); split; intros H.
  - destruct H; discriminate.
  - subst x. assert (h < h)%nat by (apply C; reflexivity). lia.
  - destruct H as [H _]. apply N in H.
    assert (~ (x < h)%nat) by (intros L; apply C in L; discriminate). lia.
  - subst x. split; [apply N; lia|reflexivity].
Qed.

Lemma handles_inv_live w h :
  handles_inv w -> gameliftstreams w = Some h -> live (trace w) h = true.
Proof.
  intros Hi G. destruct (handles_inv_ok w Hi) as [_ (h' & G' & L)].
  apply L. congruence.
Qed.

Lemma handles_inv_mounted t0 : handles_inv (mounted t0).
Proof.
  exists 0%nat. cbn. repeat split; try reflexivity; intros H.
  - destruct x; [lia|discriminate].
  - destruct x; [reflexivity|lia].
  - discriminate.
  - lia.
Qed.

Lemma handles_inv_elapse ms w : handles_inv w -> handles_inv (elapse ms w).
Proof. intros (h & H). exists h. exact H. Qed.

Lemma handles_inv_at_time t w : handles_inv w -> handles_inv (at_time t w).
Proof. intros (h & H). exists h. exact H. Qed.

Lemma handles_inv_with_state s w : handles_inv w -> handles_inv (with_state s w).
Proof. intros (h & H). exists h. exact H. Qed.

Lemma handles_inv_record_quiet e w :
  quiet e = true -> handles_inv w -> handles_inv (record e w).
Proof.
  intros Q (h & G & K & N & C & R). exists h.
  destruct e; try discriminate; cbn; auto 10.
Qed.

Lemma handles_inv_record_use e w h :
  gameliftstreams w = Some h ->
  e = GenerateSignalRequest h \/ (exists r, e = ProcessSignalResponse h r)
  \/ e = AttachInput h ->
  handles_inv w -> handles_inv (record e w).
Proof.
  intros G E Hi. pose proof (handles_inv_live w h Hi G) as L.
  destruct Hi as (h' & G' & K & N & C & R). exists h'.
  destruct E as [->|[[r ->]| ->]]; cbn; rewrite L, R; auto 10.
Qed.

(** A run that keeps the invariant at every step ends, uninterrupted, in a
    world that has it. *)
Lemma keeps_seq A (r : Res A) : keeps r -> handles_inv (snd (seq r)).
Proof.
  induction r as [o w|w ms k IH]; cbn; [trivial|].
  intros [Hw Hk]. apply IH, Hk, handles_inv_elapse, Hw.
Qed.

Lemma keeps_and_then A B (r : Res A) (k : A -> M B) :
  keeps r -> (forall a, preserves (k a)) -> keeps (and_then r k).
Proof.
  intros Hr Hk. induction r as [[a|e|] w|w ms rest IH]; cbn in *.
  - now apply Hk.
  - exact Hr.
  - exact Hr.
  - destruct Hr as [Hw Hrest]. split; [exact Hw|]. intros w' Hw'.
    apply IH, Hrest, Hw'.
Qed.

Lemma keeps_caught A (r : Res A) (handler : Thrown -> M A) :
  keeps r -> (forall e, preserves (handler e)) -> keeps (caught r handler).
Proof.
  intros Hr Hh. induction r as [[a|e|] w|w ms rest IH]; cbn in *.
  - exact Hr.
  - now apply Hh.
  - exact Hr.
  - destruct Hr as [Hw Hrest]. split; [exact Hw|]. intros w' Hw'.
    apply IH, Hrest, Hw'.
Qed.

Lemma preserves_ret A (a : A) : preserves (ret a).
Proof. intros w H. exact H. Qed.

Lemma preserves_throw A e : preserves (@throw A e).
Proof. intros w H. exact H. Qed.

Lemma preserves_bind A B (m : M A) (k : A -> M B) :
  preserves m -> (forall a, preserves (k a)) -> preserves (bind m k).
Proof. intros Hm Hk w H. apply keeps_and_then; auto. Qed.

Lemma preserves_try_catch A (m : M A) handler :
  preserves m -> (forall e, preserves (handler e)) ->
  preserves (try_catch m handler).
Proof. intros Hm Hh w H. apply keeps_caught; auto. Qed.

Lemma preserves_getState : preserves getState.
Proof. intros w H. exact H. Qed.

Lemma preserves_Date_now : preserves Date_now.
Proof. intros w H. exact H. Qed.

Lemma preserves_this : preserves this_gameliftstreams.
Proof. intros w H. exact H. Qed.

Lemma preserves_await A (p : Timed (Settled A)) : preserves (await p).
Proof.
  intros w H. split; [exact H|]. intros w' H'. destruct (outcome p); exact H'.
Qed.

Lemma preserves_sleep ms late : preserves (sleep ms late).
Proof.
  intros w H. split; [now apply handles_inv_record_quiet|].
  intros w1 H1. split; [exact H1|]. intros w2 H2. exact H2.
Qed.

Lemma preserves_log e : quiet e = true -> preserves (log e).
Proof. intros Q w H. now apply handles_inv_record_quiet. Qed.

Lemma preserves_setState f : preserves (setState f).
Proof.
  intros w H. now apply handles_inv_record_quiet, handles_inv_with_state.
Qed.

Lemma preserves_JSON_parse A (text : Parsed A) : preserves (JSON_parse text).
Proof. destruct text; [apply preserves_ret|apply preserves_throw]. Qed.

Lemma preserves_generateSignalRequest env : preserves (generateSignalRequest env).
Proof.
  intros w H. unfold generateSignalRequest, bind, this_gameliftstreams. cbn.
  destruct (gameliftstreams w) as [h|] eqn:G; [|exact H]. cbn.
  assert (H1 : handles_inv (record (GenerateSignalRequest h) w))
    by (apply (handles_inv_record_use _ w h); auto).
  split; [exact H1|]. intros w' H'. destruct (outcome (offer env)); exact H'.
Qed.

Lemma preserves_processSignalResponse env r : preserves (processSignalResponse env r).
Proof.
  intros w H. unfold processSignalResponse, bind, this_gameliftstreams. cbn.
  destruct (gameliftstreams w) as [h|] eqn:G; [|exact H]. cbn.
  assert (H1 : handles_inv (record (ProcessSignalResponse h r) w))
    by (apply (handles_inv_record_use _ w h); eauto).
  split; [exact H1|]. intros w' H'. destruct (outcome (answer env r)); exact H'.
Qed.

Lemma preserves_attachInput : preserves attachInput.
Proof.
  intros w H. unfold attachInput, bind, this_gameliftstreams. cbn.
  destruct (gameliftstreams w) as [h|] eqn:G; [|exact H]. cbn.
  apply (handles_inv_record_use _ w h); auto.
Qed.

(** [close()] followed at once by [resetGameLiftStreamsSDK()]. *)
Lemma preserves_replace A (k : M A) :
  preserves k -> preserves (close ;; resetGameLiftStreamsSDK ;; k).
Proof.
  intros Hk w H. pose proof H as (h & G & K & N & C & R).
  pose proof (handles_inv_live w h H G) as L.
  unfold close, bind, this_gameliftstreams, log, resetGameLiftStreamsSDK.
  cbn. rewrite G. cbn. apply Hk. exists (S h). cbn. rewrite K, L, R.
  repeat split; try reflexivity.
  - intros E. apply orb_true_iff in E as [E|E].
    + apply Nat.eqb_eq in E. lia.
    + apply N in E. lia.
  - intros E. apply orb_true_iff.
    destruct (Nat.eq_dec x (S h)) as [->|D];
      [left; apply Nat.eqb_refl|right; apply N; lia].
  - intros E. apply orb_true_iff in E as [E|E].
    + apply Nat.eqb_eq in E. lia.
    + apply C in E. lia.
  - intros E. apply orb_true_iff.
    destruct (Nat.eq_dec x h) as [->|D];
      [left; apply Nat.eqb_refl|right; apply C; lia].
  - assert (E : mem (S h) (news (trace w)) = false).
    { destruct (mem (S h) (news (trace w))) eqn:E; [|reflexivity].
      apply N in E. lia. }
    unfold mem in E. rewrite E. reflexivity.
Qed.

Create HintDb handles.

#[local] Hint Resolve preserves_ret preserves_throw preserves_getState
  preserves_Date_now preserves_await preserves_sleep preserves_setState
  preserves_JSON_parse preserves_generateSignalRequest
  preserves_processSignalResponse preserves_attachInput : handles.

#[local] Hint Extern 1 (preserves (log _)) =>
  apply preserves_log; reflexivity : handles.

(** Follow the structure of a method: sequence, [try], branches. *)
Ltac preserve :=
  repeat first
    [ solve [auto with handles]
    | apply preserves_replace
    | apply preserves_bind; [|intros]
    | apply preserves_try_catch; [|intros]
    | match goal with
      | |- preserves (match ?x with _ => _ end) => destruct x
      | |- preserves (if ?x then _ else _) => destruct x
      end ].

Lemma preserves_handleError e : preserves (handleError e).
Proof. unfold handleError, alert. preserve. Qed.

Lemma preserves_bearer auth : preserves (bearer auth).
Proof. unfold bearer. preserve. Qed.

Lemma preserves_startStream env r : preserves (startStream env r).
Proof. unfold startStream. preserve. Qed.

#[local] Hint Resolve preserves_handleError preserves_bearer
  preserves_startStream : handles.

Lemma preserves_poll env arn sg i : preserves (poll env arn sg i).
Proof. unfold poll. preserve. Qed.

#[local] Hint Resolve preserves_poll : handles.

Lemma preserves_poll_loop env arn sg startTime timeoutMs fuel :
  forall i, preserves (poll_loop env fuel arn sg startTime timeoutMs i).
Proof.
  induction fuel as [|fuel IH]; intros i; cbn [poll_loop].
  - intros w H. exact H.
  - unfold handleTimeout. preserve.
Qed.

Lemma preserves_waitForACTIVE env arn sg timeoutMs :
  preserves (waitForACTIVE env arn sg timeoutMs).
Proof.
  unfold waitForACTIVE. apply preserves_bind; [auto with handles|].
  intros t. apply preserves_poll_loop.
Qed.

#[local] Hint Resolve preserves_waitForACTIVE : handles.

Lemma preserves_exitFullscreen : preserves exitFullscreen.
Proof.
  intros w H. apply handles_inv_record_quiet; [reflexivity|].
  destruct H as (h & H). exists h. exact H.
Qed.

Lemma preserves_requestFullscreen env : preserves (requestFullscreen env).
Proof.
  intros w H. apply handles_inv_record_quiet; [reflexivity|].
  destruct H as (h & H). exists h. exact H.
Qed.

#[local] Hint Resolve preserves_exitFullscreen preserves_requestFullscreen
  : handles.

Lemma preserves_run_op env op : preserves (run_op env op).
Proof.
  destruct op; cbn [run_op].
  - unfold createStreamSession. preserve.
  - unfold createStreamSessionConnection. preserve.
  - unfold closeConnection. preserve.
    intros w H. destruct (fullscreenElement w);
      [now apply preserves_exitFullscreen|exact H].
  - unfold enableFullScreen. preserve.
  - unfold handleInputChange. preserve.
  - unfold handleRegionChange. preserve.
Qed.

(** *** Handlers in flight together *)

Lemma system_inv_settle op env r others outcomes :
  keeps r ->
  Forall (fun t => forall w, handles_inv w -> keeps (resume t w)) others ->
  system_inv (settle op env r others outcomes).
Proof.
  intros Hr Ho. destruct r as [o w|w ms k]; cbn in *.
  - split; assumption.
  - destruct Hr as [Hw Hk]. split; [exact Hw|]. constructor; assumption.
Qed.

Lemma Forall_without A (P : A -> Prop) l : forall i,
  Forall P l -> Forall P (without i l).
Proof.
  induction l as [|x l IH]; intros [|i] H; cbn; try assumption;
    inversion H; subst; [assumption|constructor; auto].
Qed.

Lemma system_inv_step s a : system_inv s -> system_inv (step s a).
Proof.
  intros [Hw Ht]. destruct a as [op env|i late|ms]; cbn.
  - apply system_inv_settle; [now apply preserves_run_op|exact Ht].
  - destruct (nth_error (tasks s) i) as [t|] eqn:E; [|split; assumption].
    apply system_inv_settle; [|now apply Forall_without].
    rewrite Forall_forall in Ht. apply (Ht t).
    + eapply nth_error_In, E.
    + now apply handles_inv_at_time.
  - split; [now apply handles_inv_elapse|exact Ht].
Qed.

Lemma system_inv_interleaved schedule t0 :
  system_inv (interleaved schedule t0).
Proof.
  unfold interleaved.
  assert (H0 : system_inv {| world := mounted t0; tasks := []; ended := [] |})
    by (split; [apply handles_inv_mounted|constructor]).
  revert H0. generalize {| world := mounted t0; tasks := []; ended := [] |}.
  induction schedule as [|a schedule IH]; intros s Hs; cbn; [exact Hs|].
  apply IH, system_inv_step, Hs.
Qed.

Lemma at_time_elapse ms w : at_time (now w + Z.of_N ms + Z.of_N 0) w = elapse ms w.
Proof. unfold at_time, elapse. f_equal. lia. Qed.

(** A handler that runs alone is the schedule that starts it and resumes
    it, on time, until it ends. *)
Lemma alone_is_a_schedule op env r : forall others outcomes,
  exists n,
    fold_left step (repeat (Resume 0 0) n) (settle op env r others outcomes)
    = {| world := snd (seq r); tasks := others;
         ended := fst (seq r) :: outcomes |}.
Proof.
  induction r as [o w|w ms k IH]; intros others outcomes.
  - exists 0%nat. reflexivity.
  - destruct (IH (elapse ms w) others outcomes) as [n Hn].
    exists (S n). cbn. rewrite at_time_elapse. exact Hn.
Qed.

(** ** Controller: every handler ends, in every schedule *)

Lemma handleError_finishes R G e w w0 :
  rely_guarantee R G finished w0 (handleError e w).
Proof. unfold_methods. unfold finished. split_runs; discriminate. Qed.

#[local] Arguments waitForACTIVE : simpl never.

(** No handler runs out of fuel, resumed in time. *)
Lemma run_op_timely env op w w0 :
  rely_guarantee timely anything finished w0 (run_op env op w).
Proof.
  destruct op; cbn [run_op];
    try (unfold_methods; unfold finished, anything; split_runs; cbn;
         first [exact I|discriminate]).
  unfold createStreamSession.
  cbv beta delta [try_catch bind ret throw bearer log await JSON_parse
                  generateSignalRequest this_gameliftstreams setState
                  getState].
  unfold anything.
  split_runs; cbn; try exact I; try (unfold finished; discriminate);
    try apply handleError_finishes.
  all: eapply rely_guarantee_caught; [| | |apply waitForACTIVE_timely];
    try (intros; assumption); intros; try apply handleError_finishes; try discriminate.
Qed.

(** Left alone, every handler comes to its end. *)
Lemma run_op_total env op w : fst (alone (run_op env op) w) <> OutOfFuel.
Proof.
  apply (rely_guarantee_seq timely anything _ finished timely_elapse
           (fun _ _ _ _ _ _ H => H) _ w), run_op_timely.
Qed.

Lemma system_finishes_settle op env r others outcomes w0 :
  rely_guarantee timely anything finished w0 r ->
  Forall (fun o => o <> OutOfFuel) outcomes ->
  Forall (fun t => forall w, ready_at t <= now w ->
                             rely_guarantee timely anything finished w (resume t w))
         others ->
  system_finishes (settle op env r others outcomes).
Proof.
  intros Hr Ho Ht. destruct r as [o w|w ms k]; cbn in *.
  - split; [constructor; assumption|assumption].
  - split; [assumption|]. constructor; [|assumption].
    cbn. intros w' Hw'. apply Hr, Hw'.
Qed.

Lemma system_finishes_step s a : system_finishes s -> system_finishes (step s a).
Proof.
  intros [He Ht]. destruct a as [op env|i late|ms]; cbn.
  - apply (system_finishes_settle _ _ _ _ _ (world s));
      [apply run_op_timely|exact He|exact Ht].
  - destruct (nth_error (tasks s) i) as [t|] eqn:E; [|split; assumption].
    apply (system_finishes_settle
             _ _ _ _ _ (at_time (ready_at t + Z.of_N late) (world s)));
      [|exact He|now apply Forall_without].
    rewrite Forall_forall in Ht. apply (Ht t).
    + eapply nth_error_In, E.
    + cbn. lia.
  - split; assumption.
Qed.

(** In no schedule does a handler stop for lack of fuel: the fuel of the
    poll loop is enough whenever the handlers are resumed. *)
Lemma no_handler_runs_out_of_fuel schedule t0 :
  Forall (fun o => o <> OutOfFuel) (ended (interleaved schedule t0)).
Proof.
  unfold interleaved.
  assert (H0 : system_finishes {| world := mounted t0; tasks := []; ended := [] |})
    by (split; constructor).
  revert H0. generalize {| world := mounted t0; tasks := []; ended := [] |}.
  induction schedule as [|a schedule IH]; intros s Hs; cbn.
  - apply Hs.
  - apply IH, system_finishes_step, Hs.
Qed.

(** ** Controller: closing the connection *)

Lemma closeConnection_run w h :
  gameliftstreams w = Some h ->
  exists w',
    closeConnection w = Fin (Returned tt) w'
    /\ status (state w') = STOPPED
    /\ inputEnabled (state w') = false
    /\ closes (trace w') = h :: closes (trace w)
    /\ news (trace w') = constructed w :: news (trace w)
    /\ (exists later,
           Forall (fun x => quiet (snd x) = true) later
           /\ trace w'
              = (later
                   ++ (now w, NewGameLiftStreams (constructed w))
                   :: (now w, Close h)
                   :: (now w, SetState (set_inputEnabled false
                                          (set_status STOPPED (state w))))
                   :: trace w)%list)
    /\ gameliftstreams w' = Some (constructed w).
Proof.
  intros G. unfold closeConnection. unfold_methods. cbn. rewrite G. cbn.
  destruct (fullscreenElement w); cbn; eexists; (split; [reflexivity|]);
    cbn; repeat split; try reflexivity.
  - eexists [_; _]. split; [|reflexivity]. repeat constructor.
  - eexists [_]. split; [|reflexivity]. repeat constructor.
Qed.

(** C9.  After the component is mounted, however handlers have been
    started and have gone on in between one another's [await]s, exactly one
    handle is live, the one the component holds, and no call was ever made
    on a handle that was not live at the time (so none on a closed one, and
    no handle was closed twice).  [closeConnection] then runs to its end
    without an [await]: it sets status [STOPPED] and [inputEnabled] false,
    calls [close] once, on the handle it holds, and next constructs a
    handle that never existed before, which the component holds from then
    on; the closed handle is no longer live, and the world is again one
    with exactly one live handle. *)
Theorem C9_close_replaces_the_handle :
  forall t0 schedule,
    let w := world (interleaved schedule t0) in
    handles_ok w
    /\ exists h w',
        gameliftstreams w = Some h
        /\ closeConnection w = Fin (Returned tt) w'
        /\ status (state w') = STOPPED
        /\ inputEnabled (state w') = false
        /\ closes (trace w') = h :: closes (trace w)
        /\ news (trace w') = constructed w :: news (trace w)
        /\ (exists later,
               Forall (fun x => quiet (snd x) = true) later
               /\ trace w'
                  = (later
                       ++ (now w, NewGameLiftStreams (constructed w))
                       :: (now w, Close h)
                       :: (now w, SetState (set_inputEnabled false
                                              (set_status STOPPED (state w))))
                       :: trace w)%list)
        /\ gameliftstreams w' = Some (constructed w)
        /\ constructed w <> h
        /\ mem (constructed w) (news (trace w)) = false
        /\ live (trace w') h = false
        /\ handles_ok w'.
Proof.
  intros t0 schedule w.
  assert (Hi : handles_inv w) by apply system_inv_interleaved.
  split; [now apply handles_inv_ok|].
  pose proof Hi as (h & G & K & N & C & R).
  destruct (closeConnection_run w h G) as (w' & E & S1 & I1 & Cl & Nw & Tr & G2).
  exists h, w'.
  assert (Hr : handles_inv w').
  { pose proof (preserves_run_op never_active CloseConnection w Hi) as P.
    cbn [run_op] in P. rewrite E in P. exact P. }
  assert (Fresh : mem (constructed w) (news (trace w)) = false).
  { destruct (mem (constructed w) (news (trace w))) eqn:F; [|reflexivity].
    apply N in F. lia. }
  assert (Dead : live (trace w') h = false).
  { destruct (handles_inv_ok _ Hr) as [_ (h' & G' & L)].
    destruct (live (trace w') h) eqn:F; [|reflexivity].
    apply L in F. subst h'. rewrite G2 in G'. injection G' as G'. lia. }
  repeat split; try assumption; try lia; now apply handles_inv_ok.
Qed.

(** ** Controller: where [lastSessionId] is set *)

Lemma poll_sets env arn sg i w w0 :
  same_lastSessionId w0 w ->
  rely_guarantee anyhow same_lastSessionId (last_by_poll env arn Return) w0
                 (poll env arn sg i w).
Proof.
  unfold last_by_poll, set_by_poll, same_lastSessionId, anyhow. intros H.
  unfold_methods.
  split_runs; cbn; try assumption; try reflexivity;
    try (left; first [assumption|reflexivity]);
    right; repeat split; try reflexivity;
    match goal with
    | H : String.eqb _ _ = true |- _ => apply String.eqb_eq in H; subst
    end; eauto.
Qed.

Lemma poll_loop_sets env arn sg startTime timeoutMs fuel : forall i w w0,
  same_lastSessionId w0 w ->
  rely_guarantee anyhow same_lastSessionId (last_by_poll env arn tt) w0
                 (poll_loop env fuel arn sg startTime timeoutMs i w).
Proof.
  induction fuel as [|fuel IH]; intros i w w0 H.
  - left. exact H.
  - cbn [poll_loop]. unfold bind at 1. cbn [Date_now and_then].
    destruct (now w - startTime <? timeoutMs).
    + unfold bind.
      eapply rely_guarantee_and_then; [| | |apply poll_sets, H].
      * intros w1 [|] w' [P|[P Q]].
        -- left. exact P.
        -- right. split; [reflexivity|exact Q].
        -- apply IH, P.
        -- discriminate.
      * intros w1 e w' [P|[P _]]; [left; exact P|discriminate].
      * intros w1 w' [P|[P _]]; [left; exact P|discriminate].
    + left. exact H.
Qed.

Lemma waitForACTIVE_sets env arn sg timeoutMs w w0 :
  same_lastSessionId w0 w ->
  rely_guarantee anyhow same_lastSessionId (last_by_poll env arn tt) w0
                 (waitForACTIVE env arn sg timeoutMs w).
Proof.
  intros H. unfold waitForACTIVE, bind. cbn [Date_now and_then].
  apply poll_loop_sets, H.
Qed.

Lemma handleError_same e w w0 :
  same_lastSessionId w0 w ->
  rely_guarantee anyhow same_lastSessionId
                 (fun w0 _ w' => same_lastSessionId w0 w') w0 (handleError e w).
Proof.
  unfold same_lastSessionId. intros H. unfold_methods.
  split_runs; cbn; assumption.
Qed.

(** However a handler is interrupted, it leaves [lastSessionId] as it
    finds it each time it goes on, except for [createStreamSession] at its
    end, after a poll answered [ACTIVE]. *)
Lemma run_op_sets env op w :
  rely_guarantee anyhow same_lastSessionId (last_by env op) w (run_op env op w).
Proof.
  destruct op; cbn [run_op];
    try (unfold_methods; unfold last_by, same_lastSessionId, anyhow;
         split_runs; cbn; first [reflexivity|left; reflexivity]).
  unfold createStreamSession.
  cbv beta delta [try_catch bind ret throw bearer log await JSON_parse
                  generateSignalRequest this_gameliftstreams setState
                  getState].
  split_runs; cbn; try reflexivity; try (left; reflexivity).
  all: try (eapply rely_guarantee_weaken;
            [|apply handleError_same; reflexivity];
            intros ? ? ? P; left; exact P).
  all: eapply rely_guarantee_caught;
    [| | |apply waitForACTIVE_sets; reflexivity].
  all: try (intros ? ? ? [P|[P Q]];
            [left; exact P|first [discriminate|right; eauto]]).
  all: try (intros ? ? [P|[P Q]]; [left; exact P|discriminate]).
  all: intros ? ? ? [P|[P Q]]; [|discriminate];
    (eapply rely_guarantee_weaken;
     [|apply handleError_same; exact P]; intros ? ? ? P'; left; exact P').
Qed.

Lemma last_by_poll_later A env arn (a : A) w0 w ms o w' :
  same_lastSessionId w0 w ->
  last_by_poll env arn a (elapse ms w) o w' -> last_by_poll env arn a w0 o w'.
Proof.
  unfold last_by_poll, same_lastSessionId. cbn.
  intros H [P|P]; [left; congruence|right; exact P].
Qed.

Lemma last_by_later env op w0 w ms o w' :
  same_lastSessionId w0 w ->
  last_by env op (elapse ms w) o w' -> last_by env op w0 o w'.
Proof.
  unfold last_by, same_lastSessionId. cbn.
  intros H [P|P]; [left; congruence|right; exact P].
Qed.

Lemma anyhow_elapse w ms : anyhow w ms (elapse ms w).
Proof. exact I. Qed.

(** Left alone, a handler leaves [lastSessionId] as it was, or is
    [createStreamSession] and returns after setting it. *)
Lemma run_op_last env op w :
  last_by env op w (fst (alone (run_op env op) w)) (snd (alone (run_op env op) w)).
Proof.
  apply (rely_guarantee_seq anyhow same_lastSessionId _ (last_by env op)
           anyhow_elapse (last_by_later env op) _ w), run_op_sets.
Qed.

Lemma waitForACTIVE_last env arn sg timeoutMs w :
  let r := alone (waitForACTIVE env arn sg timeoutMs) w in
  last_by_poll env arn tt w (fst r) (snd r).
Proof.
  apply (rely_guarantee_seq anyhow same_lastSessionId _ (last_by_poll env arn tt)
           anyhow_elapse (last_by_poll_later unit env arn tt) _ w),
    waitForACTIVE_sets.
  reflexivity.
Qed.

Lemma settle_sets op env r others outcomes w0 :
  rely_guarantee anyhow same_lastSessionId (last_by env op) w0 r ->
  Forall task_sets others ->
  let s' := settle op env r others outcomes in
  system_sets s'
  /\ (same_lastSessionId w0 (world s')
      \/ (op = CreateStreamSession
          /\ exists data,
              outcome (start_response env) = Fulfilled (Json data)
              /\ set_by_poll env (arn data) (world s'))).
Proof.
  intros Hr Ho. destruct r as [o w|w ms k]; cbn in *.
  - split; [exact Ho|].
    destruct Hr as [P|(P & _ & Q)]; [left; exact P|right; auto].
  - destruct Hr as [Hg Hk]. split; [|left; exact Hg].
    constructor; [|exact Ho]. intros w'. apply Hk. exact I.
Qed.

Lemma system_sets_step s a :
  system_sets s -> system_sets (step s a) /\ step_sets s a.
Proof.
  unfold step_sets. intros Hs. destruct a as [op env|i late|ms]; cbn.
  - destruct (settle_sets op env (run_op env op (world s)) (tasks s) (ended s)
                (world s) (run_op_sets env op (world s)) Hs) as [H1 [H2|[H2 H3]]].
    + split; [exact H1|left; exact H2].
    + split; [exact H1|]. right. destruct H3 as (data & H3 & H4).
      exists env, data. subst op. auto.
  - destruct (nth_error (tasks s) i) as [t|] eqn:E;
      [|split; [exact Hs|left; reflexivity]].
    assert (Ht : task_sets t).
    { unfold system_sets in Hs. rewrite Forall_forall in Hs.
      eapply Hs, nth_error_In, E. }
    destruct (settle_sets (of_op t) (of_env t) _ (without i (tasks s)) (ended s)
                _ (Ht (at_time (ready_at t + Z.of_N late) (world s)))
                (Forall_without _ _ _ i Hs)) as [H1 [H2|[H2 H3]]].
    + split; [exact H1|left; exact H2].
    + split; [exact H1|]. right. destruct H3 as (data & H3 & H4).
      exists (of_env t), data. rewrite <- H2. auto.
  - split; [exact Hs|left; reflexivity].
Qed.

Lemma system_sets_interleaved schedule t0 :
  system_sets (interleaved schedule t0).
Proof.
  unfold interleaved.
  assert (H0 : system_sets {| world := mounted t0; tasks := []; ended := [] |})
    by constructor.
  revert H0. generalize {| world := mounted t0; tasks := []; ended := [] |}.
  induction schedule as [|a schedule IH]; intros s Hs; cbn.
  - exact Hs.
  - apply IH, system_sets_step, Hs.
Qed.

(** C5.  [lastSessionId] is assigned only at the end of
    [createStreamSession], after a poll of [waitForACTIVE] was answered
    [ACTIVE] and the stream was started.  In every schedule of handlers
    started and resumed between one another's [await]s, each step leaves
    [lastSessionId] as it was, unless the step is the end of a
    [createStreamSession] whose [POST /] was answered with a session: then
    the status is [RUNNING], [isStreamStarting] is false, [lastSessionId] is
    the ARN of that session, some poll was answered [ACTIVE], and setting
    the state was the last thing done.  The same holds of a handler left
    alone from any world, and of [waitForACTIVE] called with any ARN.
    [createStreamSessionConnection] never changes [lastSessionId], also
    when it brings the status to [RUNNING]: with the gateway answering
    well, reconnecting on a freshly mounted component leaves it empty,
    where creating a session sets it. *)
Theorem C5_lastSessionId_is_set_only_by_an_active_poll :
  (forall schedule t0 a, step_sets (interleaved schedule t0) a)
  /\ (forall env op w,
         let r := alone (run_op env op) w in
         last_by env op w (fst r) (snd r))
  /\ (forall env arn sg timeoutMs w,
         let r := alone (waitForACTIVE env arn sg timeoutMs) w in
         last_by_poll env arn tt w (fst r) (snd r))
  /\ (forall env w,
         lastSessionId (state (snd (alone (createStreamSessionConnection env) w)))
         = lastSessionId (state w))
  /\ (let reconnected := snd (alone (createStreamSessionConnection active_at_third)
                                (mounted 0)) in
      let created := snd (alone (createStreamSession active_at_third) (mounted 0)) in
      status (state reconnected) = RUNNING
      /\ lastSessionId (state reconnected) = ""
      /\ status (state created) = RUNNING
      /\ lastSessionId (state created) = "arn:x:streamsession/sg-abc/sess-1").
Proof.
  split; [|split; [|split; [|split]]].
  - intros schedule t0 a. apply system_sets_step, system_sets_interleaved.
  - intros env op w. apply run_op_last.
  - intros env arn sg timeoutMs w. apply waitForACTIVE_last.
  - intros env w.
    destruct (run_op_last env CreateStreamSessionConnection w) as [H|[H _]];
      [exact H|discriminate].
  - vm_compute. repeat split; reflexivity.
Qed.

(* ================================================================== *)
(** * Part III. Further properties of the code *)
(* ================================================================== *)

(** ** [trim] *)

Section Trim.

Import Js.

Lemma without_prefix_Some p : forall s rest,
  without_prefix p s = Some rest <-> s = p ++ rest.
Proof.
  induction p as [|a p IH]; intros s rest; cbn.
  - split; [intros [= ->]; reflexivity|intros ->; reflexivity].
  - destruct s as [|b s]; [split; discriminate|].
    destruct (Ascii.eqb_spec a b) as [->|N].
    + rewrite IH. split; [intros ->; reflexivity|intros [= ->]; reflexivity].
    + split; [discriminate|intros [= E _]; congruence].
Qed.

Lemma without_leading_Some seqs s rest :
  without_leading seqs s = Some rest -> exists p, In p seqs /\ s = p ++ rest.
Proof.
  induction seqs as [|p seqs IH]; cbn; [discriminate|].
  destruct (without_prefix p s) as [r|] eqn:E.
  - intros [= ->]. exists p. split; [now left|]. now apply without_prefix_Some.
  - intros H. destruct (IH H) as (q & Hq & Hs). exists q. split; [now right|exact Hs].
Qed.

Lemma without_leading_None seqs s :
  without_leading seqs s = None <-> forall p rest, In p seqs -> s <> p ++ rest.
Proof.
  induction seqs as [|p seqs IH]; cbn.
  - split; [intros _ ? ? []|reflexivity].
  - destruct (without_prefix p s) as [r|] eqn:E.
    + split; [discriminate|]. intros H. exfalso.
      apply (H p r); [now left|]. now apply without_prefix_Some.
    + rewrite IH. split.
      * intros H q rest [<-|Hq]; [|now apply H].
        intros Hs. apply without_prefix_Some in Hs. congruence.
      * intros H q rest Hq. apply H. now right.
Qed.

Lemma string_length_append a b :
  String.length (a ++ b) = (String.length a + String.length b)%nat.
Proof. induction a as [|c a IH]; cbn; [reflexivity|now rewrite IH]. Qed.

Lemma string_append_assoc (a b c : string) : (a ++ b) ++ c = a ++ (b ++ c).
Proof. induction a as [|x a IH]; cbn; [reflexivity|now rewrite IH]. Qed.

Lemma string_append_empty_r (a : string) : a ++ "" = a.
Proof. induction a as [|x a IH]; cbn; [reflexivity|now rewrite IH]. Qed.

(** With fuel for every byte, what is left begins with none of [seqs], and
    is the end of the text. *)
Lemma drop_leading_spec seqs :
  Forall (fun p => p <> "") seqs ->
  forall fuel s,
    (String.length s <= fuel)%nat ->
    let kept := drop_leading seqs fuel s in
    (forall p rest, In p seqs -> kept <> p ++ rest)
    /\ exists dropped, s = dropped ++ kept.
Proof.
  intros Hne. induction fuel as [|fuel IH]; intros s Hl; cbn.
  - destruct s; [|cbn in Hl; lia]. split; [|exists ""; reflexivity].
    intros p rest Hp E. rewrite Forall_forall in Hne.
    destruct p; [now apply (Hne "" Hp)|discriminate].
  - destruct (without_leading seqs s) as [rest|] eqn:E.
    + destruct (without_leading_Some _ _ _ E) as (p & Hp & ->).
      rewrite Forall_forall in Hne. pose proof (Hne p Hp) as Np.
      rewrite string_length_append in Hl.
      assert (0 < String.length p)%nat by (destruct p; [congruence|cbn; lia]).
      destruct (IH rest ltac:(lia)) as [A [d B]].
      split; [exact A|]. exists (p ++ d). rewrite string_append_assoc. now f_equal.
    + split; [now apply without_leading_None|exists ""; reflexivity].
Qed.

Lemma drop_leading_fixed seqs fuel s :
  (forall p rest, In p seqs -> s <> p ++ rest) -> drop_leading seqs fuel s = s.
Proof.
  intros H. apply without_leading_None in H.
  destruct fuel; cbn; [reflexivity|now rewrite H].
Qed.

Lemma list_ascii_of_string_append a b :
  list_ascii_of_string (a ++ b)
  = (list_ascii_of_string a ++ list_ascii_of_string b)%list.
Proof. induction a as [|c a IH]; cbn; [reflexivity|now rewrite IH]. Qed.

Lemma string_of_list_ascii_app a b :
  string_of_list_ascii (a ++ b)%list
  = string_of_list_ascii a ++ string_of_list_ascii b.
Proof. induction a as [|c a IH]; cbn; [reflexivity|now rewrite IH]. Qed.

Lemma reverse_append a b : reverse (a ++ b) = reverse b ++ reverse a.
Proof.
  unfold reverse. rewrite list_ascii_of_string_append, rev_app_distr.
  apply string_of_list_ascii_app.
Qed.

Lemma reverse_involutive a : reverse (reverse a) = a.
Proof.
  unfold reverse. rewrite list_ascii_of_string_of_list_ascii, rev_involutive.
  apply string_of_list_ascii_of_string.
Qed.

Lemma reverse_length a : String.length (reverse a) = String.length a.
Proof.
  unfold reverse.
  assert (L : forall l, String.length (string_of_list_ascii l) = List.length l)
    by (induction l as [|c l IH]; cbn; [reflexivity|now rewrite IH]).
  assert (L' : forall s, List.length (list_ascii_of_string s) = String.length s)
    by (induction s as [|c s IH]; cbn; [reflexivity|now rewrite IH]).
  now rewrite L, length_rev, L'.
Qed.

Lemma white_space_not_empty : Forall (fun p => p <> "") white_space.
Proof. repeat constructor; discriminate. Qed.

Lemma reversed_not_empty : Forall (fun p => p <> "") (map reverse white_space).
Proof. repeat constructor; discriminate. Qed.

(** What [trim()] returns neither begins nor ends with white space. *)
Lemma trim_no_space_around s : no_space_around (trim s).
Proof.
  unfold trim, trimEnd, trimStart.
  destruct (drop_leading_spec white_space white_space_not_empty
              (String.length s) s (Nat.le_refl _)) as [Hs _].
  set (t := drop_leading white_space (String.length s) s) in *.
  destruct (drop_leading_spec (map reverse white_space) reversed_not_empty
              (String.length t) (reverse t)) as [He [d Hd]];
    [rewrite reverse_length; lia|].
  set (r := drop_leading (map reverse white_space) (String.length t) (reverse t)) in *.
  assert (Ht : t = reverse r ++ reverse d).
  { rewrite <- (reverse_involutive t), Hd. apply reverse_append. }
  intros space rest Hin. split; intros E.
  - apply (Hs space (rest ++ reverse d) Hin).
    rewrite Ht, E. apply string_append_assoc.
  - apply (He (reverse space) (reverse rest)); [now apply in_map|].
    rewrite <- reverse_append, <- E. symmetry. apply reverse_involutive.
Qed.

(** A text that neither begins nor ends with white space is one that
    [trim()] leaves as it is. *)
Lemma no_space_around_trimmed text : no_space_around text -> trimmed text.
Proof.
  intros H. unfold trimmed, trim, trimEnd, trimStart.
  rewrite (drop_leading_fixed white_space _ text) by (intros p rest Hp; apply (H p rest Hp)).
  rewrite drop_leading_fixed; [apply reverse_involutive|].
  intros p rest Hp E. apply in_map_iff in Hp as (space & <- & Hs).
  apply (proj2 (H space (reverse rest) Hs)).
  rewrite <- (reverse_involutive text), E, reverse_append.
  now rewrite reverse_involutive.
Qed.

Lemma trimmed_trim text : trimmed (trim text).
Proof. apply no_space_around_trimmed, trim_no_space_around. Qed.

Lemma trimmed_no_space_around text : trimmed text -> no_space_around text.
Proof. intros H. rewrite <- H. apply trim_no_space_around. Qed.

End Trim.

(** ** Controller: what every handler keeps of the state *)

Section StateInvariant.

Variable P : StreamComponentState -> Prop.

Hypothesis P_isStreamStarting : forall b s, P s -> P (set_isStreamStarting b s).
Hypothesis P_status : forall v s, v = STOPPED \/ v = RUNNING -> P s -> P (set_status v s).
Hypothesis P_lastSessionId : forall arn s, P s -> P (set_lastSessionId arn s).
Hypothesis P_inputEnabled : forall b s, P s -> P (set_inputEnabled b s).
Hypothesis P_sgId : forall v s, P s -> P (set_sgId (Js.trim v) s).
Hypothesis P_appId : forall v s, P s -> P (set_appId (Js.trim v) s).
Hypothesis P_sessionId : forall v s, P s -> P (set_sessionId (Js.trim v) s).
Hypothesis P_regions : forall region s, P s -> P (set_regions [region] s).

Let Inv (w : World) : Prop := P (state w).

Ltac keep :=
  first [ assumption
        | apply P_isStreamStarting; keep
        | apply P_lastSessionId; keep
        | apply P_inputEnabled; keep
        | apply P_sgId; keep
        | apply P_appId; keep
        | apply P_sessionId; keep
        | apply P_regions; keep
        | apply P_status; [auto|keep] ].

Lemma poll_keeps env arn sg i w w0 :
  Inv w -> invariantly Inv w0 (poll env arn sg i w).
Proof.
  unfold invariantly, Inv. intros H. unfold_methods.
  split_runs; cbn; keep.
Qed.

Lemma poll_loop_keeps env arn sg startTime timeoutMs fuel : forall i w w0,
  Inv w -> invariantly Inv w0 (poll_loop env fuel arn sg startTime timeoutMs i w).
Proof.
  unfold invariantly.
  induction fuel as [|fuel IH]; intros i w w0 H; [exact H|].
  cbn [poll_loop]. unfold bind at 1. cbn [Date_now and_then].
  destruct (now w - startTime <? timeoutMs).
  - unfold bind.
    eapply rely_guarantee_and_then; [| | |apply poll_keeps, H].
    + intros w1 [|] w' Hw'; [exact Hw'|apply IH, Hw'].
    + intros w1 e w' Hw'. exact Hw'.
    + intros w1 w' Hw'. exact Hw'.
  - unfold Inv in *. cbn. keep.
Qed.

Lemma waitForACTIVE_keeps env arn sg timeoutMs w w0 :
  Inv w -> invariantly Inv w0 (waitForACTIVE env arn sg timeoutMs w).
Proof.
  intros H. unfold waitForACTIVE, bind. cbn [Date_now and_then].
  apply poll_loop_keeps, H.
Qed.

Lemma handleError_keeps e w w0 :
  Inv w -> invariantly Inv w0 (handleError e w).
Proof.
  unfold invariantly, Inv. intros H. unfold_methods. split_runs; cbn; keep.
Qed.

Lemma run_op_keeps env op w :
  Inv w -> invariantly Inv w (run_op env op w).
Proof.
  intros H. destruct op; cbn [run_op];
    try (unfold invariantly, Inv in *; unfold_methods; split_runs; cbn; keep).
  unfold createStreamSession.
  cbv beta delta [try_catch bind ret throw bearer log await JSON_parse
                  generateSignalRequest this_gameliftstreams setState
                  getState].
  unfold invariantly, Inv in *.
  split_runs; cbn; try keep.
  all: try (apply handleError_keeps; unfold Inv; cbn; keep).
  all: eapply rely_guarantee_caught;
    [| | |apply waitForACTIVE_keeps; unfold Inv; cbn; keep].
  all: try (intros; assumption).
  all: intros; apply handleError_keeps; assumption.
Qed.

Lemma system_keeps_settle op env r others outcomes w0 :
  invariantly Inv w0 r ->
  Forall (fun t => forall w, Inv w -> invariantly Inv w (resume t w)) others ->
  system_keeps Inv (settle op env r others outcomes).
Proof.
  intros Hr Ho. destruct r as [o w|w ms k]; cbn in *.
  - split; assumption.
  - destruct Hr as [Hw Hk]. split; [exact Hw|]. constructor; assumption.
Qed.

Lemma system_keeps_step s a : system_keeps Inv s -> system_keeps Inv (step s a).
Proof.
  intros [Hw Ht]. destruct a as [op env|i late|ms]; cbn.
  - apply (system_keeps_settle _ _ _ _ _ (world s));
      [now apply run_op_keeps|exact Ht].
  - destruct (nth_error (tasks s) i) as [t|] eqn:E; [|split; assumption].
    apply (system_keeps_settle
             _ _ _ _ _ (at_time (ready_at t + Z.of_N late) (world s)));
      [|now apply Forall_without].
    rewrite Forall_forall in Ht. apply (Ht t).
    + eapply nth_error_In, E.
    + exact Hw.
  - split; [exact Hw|exact Ht].
Qed.

(** A property of the state that the constructor establishes and every
    update of the handlers keeps holds in every schedule. *)
Lemma state_invariant schedule t0 :
  P constructed_state -> P (state (world (interleaved schedule t0))).
Proof.
  intros H0. unfold interleaved.
  assert (H : system_keeps Inv {| world := mounted t0; tasks := []; ended := [] |})
    by (split; [exact H0|constructor]).
  revert H. generalize {| world := mounted t0; tasks := []; ended := [] |}.
  induction schedule as [|a schedule IH]; intros s Hs; cbn; [apply Hs|].
  apply IH, system_keeps_step, Hs.
Qed.

End StateInvariant.

(** X1.  In every schedule of handlers started and resumed between one
    another's [await]s, the status is [STOPPED] or [RUNNING]: no handler
    ever assigns [LOADING] or [ERROR]. *)
Theorem status_is_STOPPED_or_RUNNING_in_every_schedule :
  forall schedule t0,
    let s := state (world (interleaved schedule t0)) in
    (status s = STOPPED \/ status s = RUNNING)
    /\ status s <> LOADING /\ status s <> ERROR.
Proof.
  intros schedule t0 s.
  assert (H : status_assigned s).
  { apply (state_invariant status_assigned); unfold status_assigned; cbn; auto. }
  split; [exact H|]. destruct H as [H|H]; rewrite H; split; discriminate.
Qed.

(** X2.  In every schedule exactly one region is selected: the constructor
    selects one, and [handleRegionChange] replaces it by one. *)
Theorem one_region_is_selected_in_every_schedule :
  forall schedule t0,
    exists region, regions (state (world (interleaved schedule t0))) = [region].
Proof.
  intros schedule t0.
  apply (state_invariant one_region); unfold one_region; cbn; eauto.
Qed.

(** X3.  In every schedule the stream group, the application and the
    session identifier of the state are texts that [trim()] leaves as they
    are: they neither begin nor end with white space (that of ECMAScript:
    the no-break space, the separators of Unicode and the byte order mark
    as well as that of ASCII), whatever the user typed. *)
Theorem identifiers_are_trimmed_in_every_schedule :
  forall schedule t0,
    let s := state (world (interleaved schedule t0)) in
    forall text,
      text = sgId s \/ text = appId s \/ text = sessionId s ->
      Js.trim text = text
      /\ forall space rest,
          In space Js.white_space ->
          text <> space ++ rest /\ text <> rest ++ space.
Proof.
  intros schedule t0 s text H.
  assert (I : identifiers_trimmed s).
  { apply (state_invariant identifiers_trimmed);
      unfold identifiers_trimmed; cbn;
      try (intros; tauto);
      try (intros v s0 (A & B & C); auto using trimmed_trim).
    repeat split; reflexivity. }
  destruct I as (A & B & C).
  assert (T : trimmed text) by (destruct H as [->|[->| ->]]; assumption).
  split; [exact T|now apply trimmed_no_space_around].
Qed.

(** X3 (witness): the stream group typed with a no-break space before it
    and a space and a line separator after it. *)
Lemma identifiers_are_trimmed_witness :
  let typed := Js.utf8 0xA0 ++ "sg-1 " ++ Js.utf8 0x2028 in
  let s := state (world (interleaved
                           [Start (HandleInputChange input_sgId typed)
                                  never_active] 0)) in
  sgId s = "sg-1"
  /\ Js.trim (sgId s) = sgId s
  /\ forall space rest,
      In space Js.white_space ->
      sgId s <> space ++ rest /\ sgId s <> rest ++ space.
Proof.
  intros typed s. split; [reflexivity|].
  apply (identifiers_are_trimmed_in_every_schedule
           [Start (HandleInputChange input_sgId typed) never_active] 0).
  left. reflexivity.
Defined.

(** ** Controller: a poll loop that is given no time *)

(** X4.  With a timeout of zero or less, [waitForACTIVE] sends no request
    and does not wait: it shows the timeout alert and sets
    [isStreamStarting] false at once. *)
Theorem waitForACTIVE_without_time_sends_no_request :
  forall env arn sg timeoutMs w,
    timeoutMs <= 0 ->
    let s := set_isStreamStarting false (state w) in
    let w' := record (SetState s) (with_state s (record timeout_alert w)) in
    waitForACTIVE env arn sg timeoutMs w = Fin (Returned tt) w'
    /\ gets (trace w') = gets (trace w)
    /\ now w' = now w.
Proof.
  intros env arn sg timeoutMs w H s w'.
  split; [|split; reflexivity].
  unfold waitForACTIVE, bind. cbn [Date_now and_then].
  assert (F : poll_fuel timeoutMs = 2%nat).
  { unfold poll_fuel.
    assert (timeoutMs / 1000 <= 0) by (apply Z.div_le_upper_bound; lia).
    lia. }
  rewrite F. cbn [poll_loop]. unfold bind. cbn [Date_now and_then].
  destruct (Z.ltb_spec (now w - now w) timeoutMs); [lia|]. reflexivity.
Qed.

(** X4 (witness): a timeout of zero on the mounted component. *)
Lemma waitForACTIVE_without_time_witness :
  waitForACTIVE never_active "arn" "sg" 0 (mounted 0)
  = Fin (Returned tt)
      (record (SetState (set_isStreamStarting false (state (mounted 0))))
         (with_state (set_isStreamStarting false (state (mounted 0)))
            (record timeout_alert (mounted 0)))).
Proof.
  apply (waitForACTIVE_without_time_sends_no_request never_active "arn" "sg" 0
           (mounted 0)).
  lia.
Defined.

(** ** Controller: [handleError] *)

(** X7.  [handleError] never awaits, and does one of four things.  For an
    error response with a JSON body that is not [null], and for an error
    that is no [ApiError] nor [null] or [undefined], it sets
    [isStreamStarting] false and then shows one alert, [Error: ] followed
    by the status code and the message, or by the message.  For an error
    response with the JSON body [null], and for [null] or [undefined], it
    sets [isStreamStarting] false and then throws the [TypeError] of reading
    [message], without an alert.  For an [ApiError] without a response it
    returns and leaves everything as it is.  For an error response whose
    body is absent or not JSON it throws the [SyntaxError] of [JSON.parse]
    and leaves everything as it is. *)
Theorem handleError_does_one_of_four_things :
  forall e w,
    let s := set_isStreamStarting false (state w) in
    let reset := record (SetState s) (with_state s w) in
    (exists detail,
        handleError e w
        = Fin (Returned tt)
              (record (Alert ("Error: " ++ detail ++ ". Check console for details."))
                 reset)
        /\ ((exists code message,
                e = ApiError (Some {| statusCode := code;
                                      body := Some (Json (WithMessage message)) |})
                /\ detail = number_text code ++ " - " ++ or_unknown message)
            \/ (exists message,
                   (e = Error message \/ e = SyntaxError message
                    \/ e = TypeError message)
                   /\ detail = or_unknown (Some message))))
    \/ (exists x,
           handleError e w = Fin (Threw (TypeError (cannot_read_message x))) reset
           /\ (e = Nullish x
               \/ (x = null
                   /\ exists code,
                       e = ApiError (Some {| statusCode := code;
                                             body := Some (Json JsonNull) |}))))
    \/ (e = ApiError None /\ handleError e w = Fin (Returned tt) w)
    \/ (exists response thrown,
           e = ApiError (Some response)
           /\ (forall data, body response <> Some (Json data))
           /\ handleError e w = Fin (Threw (SyntaxError thrown)) w).
Proof.
  intros e w s reset. destruct e as [[[code [[[|m]|m]|]]|]|m|m|m|x].
  - right. left. exists null. split; [reflexivity|]. right. eauto.
  - left. exists (number_text code ++ " - " ++ or_unknown m). split.
    + unfold handleError. unfold_methods. cbn.
      rewrite !string_append_assoc. reflexivity.
    + left. eauto.
  - do 3 right. eexists _, m. split; [reflexivity|].
    split; [intros d; discriminate|reflexivity].
  - do 3 right. eexists _, "Unexpected end of JSON input". split; [reflexivity|].
    split; [intros d; discriminate|reflexivity].
  - right. right. left. split; reflexivity.
  - left. exists (or_unknown (Some m)). split; [reflexivity|]. right. eauto.
  - left. exists (or_unknown (Some m)). split; [reflexivity|]. right. eauto.
  - left. exists (or_unknown (Some m)). split; [reflexivity|]. right. eauto.
  - right. left. exists x. split; [reflexivity|]. now left.
Qed.

(** ** Controller: failures that [handleError] does not see *)

(** X8.  When [generateSignalRequest] is rejected, [createStreamSession]
    and [createStreamSessionConnection] are rejected with the same error:
    it is awaited before the [try].  Nothing is posted, no alert is shown,
    and [isStreamStarting] stays true. *)
Theorem rejected_signal_request_escapes_the_handlers :
  forall env w h e,
    gameliftstreams w = Some h ->
    outcome (offer env) = Rejected e ->
    let s := set_isStreamStarting true (state w) in
    let w' := elapse (took (offer env))
                (record (GenerateSignalRequest h)
                   (record (SetState s) (with_state s w))) in
    alone (createStreamSession env) w = (Threw e, w')
    /\ alone (createStreamSessionConnection env) w = (Threw e, w')
    /\ isStreamStarting (state w') = true
    /\ trace w' = (now w, GenerateSignalRequest h) :: (now w, SetState s) :: trace w.
Proof.
  intros env w h e Hh Ho s w'.
  repeat split.
  - unfold createStreamSession. unfold_methods. cbn. rewrite Hh. cbn.
    rewrite Ho. reflexivity.
  - unfold_methods. cbn. rewrite Hh. cbn. rewrite Ho. reflexivity.
Qed.

(** X8 (witness): a transport engine that gives no offer. *)
Lemma rejected_signal_request_witness :
  let env := {| offer := failing (Error "no offer");
                post_auth := instantly (Some "token");
                start_response := instantly (Json (session "ACTIVE"));
                reconnect_response :=
                  instantly (Json {| connection_signalResponse := "answer" |});
                get_auth := fun _ => instantly (Some "token");
                get_response := fun _ => instantly (Json (session "ACTIVE"));
                timer_lateness := fun _ => 0%N;
                answer := fun _ => instantly tt;
                videoElement := true;
                fullscreenGranted := true;
                keyboard := true |} in
  fst (alone (createStreamSession env) (mounted 0)) = Threw (Error "no offer")
  /\ isStreamStarting (state (snd (alone (createStreamSession env) (mounted 0))))
     = true.
Proof.
  intros env.
  destruct (rejected_signal_request_escapes_the_handlers
              env (mounted 0) 0%nat (Error "no offer") eq_refl eq_refl)
    as (A & _ & C & _).
  rewrite A. split; [reflexivity|exact C].
Defined.

(** X9.  When the [POST] is rejected with an [ApiError] whose response has
    no body, or a body that is not JSON, [handleError] throws inside the
    [catch]: the handler is rejected with the [SyntaxError] of
    [JSON.parse], the [POST] is the last thing it did (no alert is shown),
    and [isStreamStarting] stays true. *)
Theorem error_without_JSON_body_escapes_the_handlers :
  forall env w request token response,
    outcome (offer env) = Fulfilled request ->
    outcome (post_auth env) = Fulfilled token ->
    (forall data, body response <> Some (Json data)) ->
    (outcome (start_response env) = Rejected (ApiError (Some response)) ->
     let r := alone (createStreamSession env) w in
     (exists thrown, fst r = Threw (SyntaxError thrown))
     /\ state (snd r) = set_isStreamStarting true (state w)
     /\ exists t payload,
         hd_error (trace (snd r)) = Some (t, Post "/" (authorization token) payload))
    /\ (outcome (reconnect_response env) = Rejected (ApiError (Some response)) ->
        let r := alone (createStreamSessionConnection env) w in
        (exists thrown, fst r = Threw (SyntaxError thrown))
        /\ state (snd r) = set_isStreamStarting true (state w)
        /\ exists t payload,
            hd_error (trace (snd r))
            = Some (t, Post "/reconnect" (authorization token) payload)).
Proof.
  intros env w request token response Ho Ha Hb. split; intros Hr.
  - unfold createStreamSession. unfold_methods. cbn.
    destruct (gameliftstreams w) as [h|]; cbn;
      rewrite ?Ho; cbn; rewrite Ha; cbn; rewrite Hr; cbn;
      (destruct (body response) as [[m|m]|] eqn:B;
       [exfalso; apply (Hb m); reflexivity| |]); cbn; eauto 8.
  - unfold_methods. cbn.
    destruct (gameliftstreams w) as [h|]; cbn;
      rewrite ?Ho; cbn; rewrite Ha; cbn; rewrite Hr; cbn;
      (destruct (body response) as [[m|m]|] eqn:B;
       [exfalso; apply (Hb m); reflexivity| |]); cbn; eauto 8.
Qed.

(** X9 (witness): HTTP 502 with a body that is not JSON. *)
Lemma error_without_JSON_body_witness :
  let response := {| statusCode := 502;
                     body := Some (Malformed "Unexpected token < in JSON") |} in
  let env := refusing (ApiError (Some response)) in
  (let r := alone (createStreamSession env) (mounted 0) in
   (exists thrown, fst r = Threw (SyntaxError thrown))
   /\ state (snd r) = set_isStreamStarting true (state (mounted 0))
   /\ exists t payload,
       hd_error (trace (snd r))
       = Some (t, Post "/" (authorization (Some "token")) payload))
  /\ (let r := alone (createStreamSessionConnection env) (mounted 0) in
      (exists thrown, fst r = Threw (SyntaxError thrown))
      /\ state (snd r) = set_isStreamStarting true (state (mounted 0))
      /\ exists t payload,
          hd_error (trace (snd r))
          = Some (t, Post "/reconnect" (authorization (Some "token")) payload)).
Proof.
  intros response env.
  assert (Hb : forall data, body response <> Some (Json data))
    by (intros m; discriminate).
  destruct (error_without_JSON_body_escapes_the_handlers
              env (mounted 0) "offer" (Some "token") response
              eq_refl eq_refl Hb) as [A B].
  split; [apply A|apply B]; reflexivity.
Defined.


(** ** Controller: [waitForACTIVE] turns the spinner off *)







(** ** Controller: how many polls a timeout takes *)

Lemma polls_within_next ms :
  0 < ms -> polls_within ms = 1 + polls_within (ms - 1000).
Proof.
  intros H. unfold polls_within.
  destruct (Z.le_gt_cases 1000 ms) as [L|L].
  - rewrite !Z.max_l by lia.
    replace (ms + 999) with (ms - 1000 + 999 + 1 * 1000) by lia.
    rewrite Z.div_add by lia. lia.
  - rewrite Z.max_l, Z.max_r by lia.
    assert (E : (ms + 999) / 1000 = 1)
      by (symmetry; apply (Z.div_unique _ _ _ (ms - 1)); lia).
    rewrite E. reflexivity.
Qed.

Lemma polls_within_none ms : ms <= 0 -> polls_within ms = 0.
Proof. intros H. unfold polls_within. rewrite Z.max_r by lia. reflexivity. Qed.

Lemma poll_loop_prompt env arn sg startTime timeoutMs :
  (forall i, not_yet_active env i) -> prompt env ->
  forall fuel i w,
    (1 <= fuel)%nat ->
    timeoutMs - (now w - startTime) <= 1000 * (Z.of_nat fuel - 1) ->
    let r := alone (poll_loop env fuel arn sg startTime timeoutMs i) w in
    let n := polls_within (timeoutMs - (now w - startTime)) in
    Z.of_nat (gets (trace (snd r))) = Z.of_nat (gets (trace w)) + n
    /\ now (snd r) = now w + 1000 * n.
Proof.
  intros Hnever Hprompt. induction fuel as [|fuel IH]; intros i w Hf Hrem r n; [lia|].
  rewrite Nat2Z.inj_succ in Hrem.
  unfold r, n; clear r n. rewrite poll_loop_step.
  destruct (Z.ltb_spec (now w - startTime) timeoutMs) as [Hlt|Hge].
  - destruct (Hnever i) as [[token Ha] [data [Hg Hs]]].
    destruct (Hprompt i) as (P1 & P2 & P3).
    rewrite (poll_waits env arn sg i w token data Ha Hg Hs).
    pose proof (now_waited env arn sg i token w) as Hnow.
    pose proof (gets_waited env arn sg i token w) as Hgets.
    rewrite P1, P2, P3 in Hnow.
    set (w1 := waited env arn sg i token w) in *.
    destruct (IH (S i) w1) as [G N]; [lia|lia|].
    rewrite G, N, Hgets.
    rewrite (polls_within_next (timeoutMs - (now w - startTime))) by lia.
    replace (timeoutMs - (now w1 - startTime))
      with (timeoutMs - (now w - startTime) - 1000) by lia.
    split; lia.
  - cbv zeta. rewrite polls_within_none by lia. cbn [fst snd].
    split; [|cbn; lia].
    change (gets (trace (record (SetState (set_isStreamStarting false (state w)))
                           (with_state (set_isStreamStarting false (state w))
                              (record timeout_alert w)))))
      with (gets (trace w)).
    lia.
Qed.

(** X5.  When every poll is answered at once with a session that is not
    active, and the timers fire on time, [waitForACTIVE] sends one
    [GET /session] per second begun of the timeout, [ceil(timeoutMs /
    1000)] in all (none for a timeout of zero or less), and gives up
    that many seconds after it started. *)
Theorem a_timeout_takes_one_poll_per_second :
  forall env arn sg timeoutMs w,
    (forall i, not_yet_active env i) -> prompt env ->
    let r := alone (waitForACTIVE env arn sg timeoutMs) w in
    Z.of_nat (gets (trace (snd r)))
    = Z.of_nat (gets (trace w)) + polls_within timeoutMs
    /\ now (snd r) = now w + 1000 * polls_within timeoutMs.
Proof.
  intros env arn sg timeoutMs w Hnever Hprompt.
  rewrite alone_waitForACTIVE.
  destruct (poll_loop_prompt env arn sg (now w) timeoutMs Hnever Hprompt
              (poll_fuel timeoutMs) 0 w) as [G N].
  - unfold poll_fuel. lia.
  - apply poll_fuel_enough.
  - replace (timeoutMs - (now w - now w)) with timeoutMs in * by lia.
    split; assumption.
Qed.

(** X5 (witness): a timeout of 2500 ms, for three polls. *)
Lemma a_timeout_takes_one_poll_per_second_witness :
  let r := alone (waitForACTIVE never_active "arn" "sg" 2500) (mounted 0) in
  Z.of_nat (gets (trace (snd r)))
  = Z.of_nat (gets (trace (mounted 0))) + polls_within 2500
  /\ now (snd r) = now (mounted 0) + 1000 * polls_within 2500.
Proof.
  apply (a_timeout_takes_one_poll_per_second never_active "arn" "sg" 2500
           (mounted 0)).
  - intros i. split.
    + exists (Some "token"). reflexivity.
    + exists (session "ACTIVATING"). split; [reflexivity|discriminate].
  - intros i. repeat split.
Defined.

(** ** Controller: reconnecting *)

(** X10.  [createStreamSessionConnection], when [POST /reconnect] is
    answered: it posts the session identifier of the state with the offer
    of the held handle, applies the answer to that handle, and then, if the
    transport engine accepts the answer, attaches input and sets status
    [RUNNING] with [isStreamStarting] false; if the transport engine
    rejects it with an error, input is not attached, the status stays what
    it was, [isStreamStarting] is set false and the error is alerted.  No
    [GET /session] is sent either way. *)
Theorem reconnect_starts_the_stream_on_the_held_handle :
  forall env w h request token data,
    gameliftstreams w = Some h ->
    outcome (offer env) = Fulfilled request ->
    outcome (post_auth env) = Fulfilled token ->
    outcome (reconnect_response env) = Fulfilled (Json data) ->
    let r := alone (createStreamSessionConnection env) w in
    let starting := set_isStreamStarting true (state w) in
    let sent :=
      [ProcessSignalResponse h (connection_signalResponse data);
       Post "/reconnect" (authorization token)
            (ReconnectPayload (sessionId (state w)) request);
       FetchAuthSession;
       GenerateSignalRequest h;
       SetState starting] in
    (outcome (answer env (connection_signalResponse data)) = Fulfilled tt ->
     let running := set_isStreamStarting false (set_status RUNNING starting) in
     fst r = Returned tt
     /\ state (snd r) = running
     /\ map snd (trace (snd r))
        = ([SetState running; AttachInput h] ++ sent ++ map snd (trace w))%list)
    /\ (forall message,
           outcome (answer env (connection_signalResponse data))
           = Rejected (Error message) ->
           let stopped := set_isStreamStarting false starting in
           fst r = Returned tt
           /\ state (snd r) = stopped
           /\ status (state (snd r)) = status (state w)
           /\ map snd (trace (snd r))
              = ([Alert ("Error: " ++ or_unknown (Some message)
                           ++ ". Check console for details.");
                  SetState stopped] ++ sent ++ map snd (trace w))%list).
Proof.
  intros env w h request token data Hh Ho Ha Hr r starting sent.
  unfold r, starting, sent. split.
  - intros Hans. unfold_methods. cbn. rewrite Hh. cbn. rewrite Ho. cbn.
    rewrite Ha. cbn. rewrite Hr. cbn. rewrite Hh. cbn. rewrite Hans. cbn.
    rewrite Hh. repeat split.
  - intros message Hans. unfold_methods. cbn. rewrite Hh. cbn. rewrite Ho. cbn.
    rewrite Ha. cbn. rewrite Hr. cbn. rewrite Hh. cbn. rewrite Hans. cbn.
    repeat split.
Qed.

(** X10 (witness): a reconnect that is answered and accepted, and one
    whose answer the transport engine rejects. *)
Lemma reconnect_starts_the_stream_witness :
  (let r := alone (createStreamSessionConnection active_at_third) (mounted 0) in
   fst r = Returned tt
   /\ status (state (snd r)) = RUNNING
   /\ isStreamStarting (state (snd r)) = false
   /\ firstn 3 (map snd (trace (snd r)))
      = [SetState (state (snd r)); AttachInput 0%nat;
         ProcessSignalResponse 0%nat "answer"])
  /\ (let env := {| offer := instantly "offer";
                    post_auth := instantly (Some "token");
                    start_response := instantly (Json (session "ACTIVE"));
                    reconnect_response :=
                      instantly (Json {| connection_signalResponse := "answer" |});
                    get_auth := fun _ => instantly (Some "token");
                    get_response := fun _ => instantly (Json (session "ACTIVE"));
                    timer_lateness := fun _ => 0%N;
                    answer := fun _ => failing (Error "no route");
                    videoElement := true;
                    fullscreenGranted := true;
                    keyboard := true |} in
      let r := alone (createStreamSessionConnection env) (mounted 0) in
      fst r = Returned tt
      /\ status (state (snd r)) = STOPPED
      /\ isStreamStarting (state (snd r)) = false
      /\ firstn 3 (map snd (trace (snd r)))
         = [Alert "Error: no route. Check console for details.";
            SetState (state (snd r));
            ProcessSignalResponse 0%nat "answer"]).
Proof.
  split.
  - destruct (proj1 (reconnect_starts_the_stream_on_the_held_handle
                       active_at_third (mounted 0) 0%nat "offer" (Some "token")
                       {| connection_signalResponse := "answer" |}
                       eq_refl eq_refl eq_refl eq_refl) eq_refl)
      as (A & B & C).
    split; [exact A|]. rewrite C, B. repeat split.
  - intros env.
    destruct (proj2 (reconnect_starts_the_stream_on_the_held_handle
                       env (mounted 0) 0%nat "offer" (Some "token")
                       {| connection_signalResponse := "answer" |}
                       eq_refl eq_refl eq_refl eq_refl) "no route" eq_refl)
      as (A & B & C & D).
    split; [exact A|]. rewrite D, B. repeat split.
Defined.

(** ** Controller: one alert at most *)

Ltac count_alerts :=
  unfold alerted_at_end, alerted_once, unalerted, alerts in *; cbn in *;
  repeat split; intros; try congruence; try lia.

Lemma poll_alerts env arn sg i w w0 :
  unalerted w0 w ->
  rely_guarantee anyhow unalerted alerted_at_end w0 (poll env arn sg i w).
Proof.
  intros H. unfold_methods. unfold anyhow.
  split_runs; count_alerts.
Qed.

Lemma poll_loop_alerts env arn sg startTime timeoutMs fuel : forall i w w0,
  unalerted w0 w ->
  rely_guarantee anyhow unalerted alerted_once w0
    (poll_loop env fuel arn sg startTime timeoutMs i w).
Proof.
  induction fuel as [|fuel IH]; intros i w w0 H; [count_alerts|].
  cbn [poll_loop]. unfold bind at 1. cbn [Date_now and_then].
  destruct (now w - startTime <? timeoutMs).
  - unfold bind.
    eapply rely_guarantee_and_then; [| | |apply poll_alerts, H].
    + intros w1 [|] w' [Once None]; [split; [apply Once|exact I]|].
      apply IH, None. reflexivity.
    + intros w1 e w' [Once _]. exact Once.
    + intros w1 w' [Once _]. exact Once.
  - count_alerts.
Qed.

Lemma waitForACTIVE_alerts env arn sg timeoutMs w w0 :
  unalerted w0 w ->
  rely_guarantee anyhow unalerted alerted_once w0
    (waitForACTIVE env arn sg timeoutMs w).
Proof.
  intros H. unfold waitForACTIVE, bind. cbn [Date_now and_then].
  apply poll_loop_alerts, H.
Qed.

Lemma handleError_alerts e w w0 :
  unalerted w0 w ->
  rely_guarantee anyhow unalerted alerted_once w0 (handleError e w).
Proof.
  intros H. unfold_methods. unfold anyhow. split_runs; count_alerts.
Qed.

Lemma run_op_alerts env op w :
  rely_guarantee anyhow unalerted alerted_once w (run_op env op w).
Proof.
  assert (H : unalerted w w) by reflexivity. revert H. generalize w at 1 3 as w0.
  intros w0 H.
  destruct op; cbn [run_op];
    try (unfold_methods; unfold anyhow; split_runs; count_alerts; fail).
  unfold createStreamSession.
  cbv beta delta [try_catch bind ret throw bearer log await JSON_parse
                  generateSignalRequest this_gameliftstreams setState
                  getState].
  unfold anyhow.
  split_runs; try (count_alerts; fail).
  all: try (apply handleError_alerts; count_alerts; fail).
  all: eapply rely_guarantee_caught;
    [| | |apply waitForACTIVE_alerts; count_alerts].
  all: try (intros; assumption).
  all: intros w1 e w2 [_ None]; apply handleError_alerts, None.
Qed.

Lemma system_alerts_settle op env r others outcomes w0 :
  rely_guarantee anyhow unalerted alerted_once w0 r ->
  (alerts (trace w0) <= List.length outcomes)%nat ->
  Forall (fun t => forall w,
              rely_guarantee anyhow unalerted alerted_once w (resume t w))
         others ->
  system_alerts (settle op env r others outcomes).
Proof.
  intros Hr Hn Ho. destruct r as [o w|w ms k]; cbn in *.
  - split; [|assumption]. destruct Hr as [[_ Hr] _]. cbn. lia.
  - destruct Hr as [Hw Hk]. split; [cbn; unfold unalerted in Hw; lia|].
    constructor; [|assumption]. cbn. intros w'. apply Hk. exact I.
Qed.

Lemma system_alerts_step s a : system_alerts s -> system_alerts (step s a).
Proof.
  intros [Hw Ht]. destruct a as [op env|i late|ms]; cbn.
  - apply (system_alerts_settle _ _ _ _ _ (world s));
      [apply run_op_alerts|exact Hw|exact Ht].
  - destruct (nth_error (tasks s) i) as [t|] eqn:E; [|split; assumption].
    apply (system_alerts_settle
             _ _ _ _ _ (at_time (ready_at t + Z.of_N late) (world s)));
      [|exact Hw|now apply Forall_without].
    rewrite Forall_forall in Ht. apply (Ht t). eapply nth_error_In, E.
  - split; [exact Hw|exact Ht].
Qed.

(** X20.  However the handlers are interleaved and however the outside
    behaves, a handler shows at most one alert, after its last [await], and
    none if it throws; so the alerts shown since the component was mounted
    are never more than the handlers that have ended. *)
Theorem a_handler_alerts_once_at_its_end :
  (forall env op w,
      rely_guarantee anyhow unalerted alerted_once w (run_op env op w))
  /\ (forall schedule t0,
         let s := interleaved schedule t0 in
         (alerts (trace (world s)) <= List.length (ended s))%nat).
Proof.
  split; [intros; apply run_op_alerts|].
  intros schedule t0. cbv zeta. unfold interleaved.
  assert (H : system_alerts {| world := mounted t0; tasks := []; ended := [] |})
    by (split; [cbn; lia|constructor]).
  revert H. generalize {| world := mounted t0; tasks := []; ended := [] |}.
  induction schedule as [|a schedule IH]; intros s Hs; cbn; [apply Hs|].
  apply IH, system_alerts_step, Hs.
Qed.

(** ** Controller: the object held *)

Ltac hold :=
  unfold held in *;
  repeat match goal with
         | H : exists _, _ |- _ => destruct H as (? & ? & ? & ?)
         end;
  cbn in *; try congruence;
  repeat match goal with
         | H1 : gameliftstreams ?w = Some ?a, H2 : gameliftstreams ?w = Some ?b |- _ =>
             assert (a = b) by congruence; subst; clear H2
         end;
  try (eexists; repeat split; cbn;
       repeat match goal with
              | H : in_order _ = _ |- _ => rewrite H; cbn
              | H : constructed _ = _ |- _ => rewrite H; cbn
              | |- context [Nat.eqb ?a ?a] => rewrite Nat.eqb_refl; cbn
              | |- context [Nat.leb ?a ?a] => rewrite Nat.leb_refl; cbn
              end;
       first [eassumption|reflexivity]).

Lemma poll_holds env arn sg i w w0 :
  held w -> invariantly held w0 (poll env arn sg i w).
Proof.
  unfold invariantly. intros H. unfold_methods.
  split_runs; hold.
Qed.

Lemma poll_loop_holds env arn sg startTime timeoutMs fuel : forall i w w0,
  held w -> invariantly held w0 (poll_loop env fuel arn sg startTime timeoutMs i w).
Proof.
  unfold invariantly.
  induction fuel as [|fuel IH]; intros i w w0 H; [exact H|].
  cbn [poll_loop]. unfold bind at 1. cbn [Date_now and_then].
  destruct (now w - startTime <? timeoutMs).
  - unfold bind.
    eapply rely_guarantee_and_then; [| | |apply poll_holds, H].
    + intros w1 [|] w' Hw'; [exact Hw'|apply IH, Hw'].
    + intros w1 e w' Hw'. exact Hw'.
    + intros w1 w' Hw'. exact Hw'.
  - hold.
Qed.

Lemma waitForACTIVE_holds env arn sg timeoutMs w w0 :
  held w -> invariantly held w0 (waitForACTIVE env arn sg timeoutMs w).
Proof.
  intros H. unfold waitForACTIVE, bind. cbn [Date_now and_then].
  apply poll_loop_holds, H.
Qed.

Lemma handleError_holds e w w0 :
  held w -> invariantly held w0 (handleError e w).
Proof.
  unfold invariantly. intros H. unfold_methods. split_runs; hold.
Qed.

Lemma run_op_holds env op w :
  held w -> invariantly held w (run_op env op w).
Proof.
  intros H. destruct op; cbn [run_op];
    try (unfold invariantly; unfold_methods; split_runs; hold; fail).
  unfold createStreamSession.
  cbv beta delta [try_catch bind ret throw bearer log await JSON_parse
                  generateSignalRequest this_gameliftstreams setState
                  getState].
  unfold invariantly.
  split_runs; try (hold; fail).
  all: try (apply handleError_holds; hold; fail).
  all: eapply rely_guarantee_caught;
    [| | |apply waitForACTIVE_holds; hold].
  all: try (intros; assumption).
  all: intros; apply handleError_holds; assumption.
Qed.

Lemma system_holds_settle op env r others outcomes w0 :
  invariantly held w0 r ->
  Forall (fun t => forall w, held w -> invariantly held w (resume t w)) others ->
  system_keeps held (settle op env r others outcomes).
Proof.
  intros Hr Ho. destruct r as [o w|w ms k]; cbn in *.
  - split; assumption.
  - destruct Hr as [Hw Hk]. split; [exact Hw|]. constructor; assumption.
Qed.

Lemma system_holds_step s a : system_keeps held s -> system_keeps held (step s a).
Proof.
  intros [Hw Ht]. destruct a as [op env|i late|ms]; cbn.
  - apply (system_holds_settle _ _ _ _ _ (world s));
      [now apply run_op_holds|exact Ht].
  - destruct (nth_error (tasks s) i) as [t|] eqn:E; [|split; assumption].
    apply (system_holds_settle
             _ _ _ _ _ (at_time (ready_at t + Z.of_N late) (world s)));
      [|now apply Forall_without].
    rewrite Forall_forall in Ht. apply (Ht t).
    + eapply nth_error_In, E.
    + exact Hw.
  - split; [exact Hw|exact Ht].
Qed.

Lemma held_in_every_schedule schedule t0 :
  held (world (interleaved schedule t0)).
Proof.
  unfold interleaved.
  assert (H : system_keeps held {| world := mounted t0; tasks := []; ended := [] |})
    by (split; [exists 0%nat; repeat split|constructor]).
  revert H. generalize {| world := mounted t0; tasks := []; ended := [] |}.
  induction schedule as [|a schedule IH]; intros s Hs; cbn; [apply Hs|].
  apply IH, system_holds_step, Hs.
Qed.

(** In a trace with its events in order, nothing after [close()] calls a
    method of the object closed. *)
Lemma in_order_after_close h t earlier : forall later objects,
  in_order (later ++ (t, Close h) :: earlier)%list = Some objects ->
  (exists latest closed,
      objects = Some (latest, closed)
      /\ (h < latest \/ (latest = h /\ closed = true))%nat)
  /\ forall t' e, In (t', e) later -> calls h e = false.
Proof.
  induction later as [|[t1 e1] later IH]; intros objects H.
  - cbn in H. destruct (in_order earlier) as [[[latest [|]]|]|]; cbn in H;
      try discriminate.
    destruct (Nat.eqb_spec latest h); [|discriminate].
    injection H as <-. split; [|intros ? ? []]. eauto 6.
  - cbn in H.
    destruct (in_order (later ++ (t, Close h) :: earlier)%list) as [before|] eqn:E;
      [|discriminate].
    destruct (IH before eq_refl) as [(latest & closed & -> & Hl) Hnone].
    assert (C : calls h e1 = false
                /\ exists latest' closed',
                    objects = Some (latest', closed')
                    /\ (h < latest' \/ (latest' = h /\ closed' = true))%nat).
    { destruct e1; unfold in_turn in H; cbn [calls];
        try (injection H as <-; split; [reflexivity|eauto]; fail).
      - destruct (Nat.ltb_spec latest h0); [|discriminate].
        injection H as <-. split; [reflexivity|].
        exists h0, false. split; [reflexivity|]. lia.
      - destruct closed; [discriminate|].
        destruct (Nat.eqb_spec latest h0); [|discriminate].
        injection H as <-. split; [|eauto].
        apply Nat.eqb_neq. lia.
      - destruct closed; [discriminate|].
        destruct (Nat.eqb_spec latest h0); [|discriminate].
        injection H as <-. split; [|eauto].
        apply Nat.eqb_neq. lia.
      - destruct closed; [discriminate|].
        destruct (Nat.eqb_spec latest h0); [|discriminate].
        injection H as <-. split; [|eauto].
        apply Nat.eqb_neq. lia.
      - destruct closed; [discriminate|].
        destruct (Nat.eqb_spec latest h0); [|discriminate].
        injection H as <-. split; [apply Nat.eqb_neq; lia|].
        exists h0, true. split; [reflexivity|]. lia. }
    destruct C as [C1 C2]. split; [exact C2|].
    intros t' e [[= <- <-]|Hin]; [exact C1|]. eapply Hnone, Hin.
Qed.

(** X21.  In every schedule the component holds a [GameLiftStreams] object,
    the latest it has constructed, and that object is not closed; and once
    an object is closed no method of it is called again: every later
    request, response, input and [close()] goes to an object constructed
    after it. *)
Theorem a_closed_object_is_never_used_again :
  forall schedule t0,
    let w := world (interleaved schedule t0) in
    (exists h, gameliftstreams w = Some h /\ constructed w = S h)
    /\ forall later t h earlier,
        trace w = (later ++ (t, Close h) :: earlier)%list ->
        forall t' e, In (t', e) later -> calls h e = false.
Proof.
  intros schedule t0 w.
  destruct (held_in_every_schedule schedule t0) as (h & Hh & Hc & Ho).
  fold w in Hh, Hc, Ho. split; [eauto|].
  intros later t h' earlier E. rewrite E in Ho.
  apply (in_order_after_close _ _ _ _ _ Ho).
Qed.

(** X21 (witness): the stream ended and full screen asked for; the input
    is attached to the second object, not to the first, which is closed. *)
Lemma a_closed_object_witness :
  let schedule := [Start CloseConnection never_active;
                   Start EnableFullScreen never_active] in
  let w := world (interleaved schedule 0) in
  In (0, AttachInput 1%nat) (firstn 6 (trace w))
  /\ forall t' e, In (t', e) (firstn 6 (trace w)) -> calls 0%nat e = false.
Proof.
  intros schedule w. split; [vm_compute; do 3 right; left; reflexivity|].
  apply (proj2 (a_closed_object_is_never_used_again schedule 0)
           (firstn 6 (trace w)) 0 0%nat (skipn 7 (trace w))).
  vm_compute. reflexivity.
Defined.

(** ** Controller: an edit while the session is created *)

(** The next step of a schedule, evaluated on the system as it is by
    then. *)
Ltac advance rewriting :=
  match goal with
  | |- context [step ?s ?a] =>
      lazymatch s with
      | context [step] => fail
      | _ =>
          let s' := fresh "s" in
          let E := fresh "E" in
          remember (step s a) as s' eqn:E;
          unfold step, run_op, createStreamSession in E;
          unfold_methods; cbn in E;
          rewriting E; cbn in E;
          subst s'
      end
  end.

#[local] Arguments poll_loop : simpl never.

Lemma waitForACTIVE_begins env arn sg timeoutMs w :
  0 < timeoutMs ->
  waitForACTIVE env arn sg timeoutMs w
  = and_then (poll env arn sg 0 w)
      (fun flow =>
         match flow with
         | Return => ret tt
         | Continue =>
             poll_loop env (S (Z.to_nat (timeoutMs / 1000))) arn sg (now w)
                       timeoutMs 1
         end).
Proof.
  intros H. unfold waitForACTIVE, bind. cbn [Date_now and_then].
  replace (poll_fuel timeoutMs) with (S (S (Z.to_nat (timeoutMs / 1000))))
    by (unfold poll_fuel; lia).
  unfold poll_loop at 1; fold poll_loop. unfold bind. cbn [Date_now and_then].
  destruct (Z.ltb_spec (now w - now w) timeoutMs); [reflexivity|lia].
Qed.

(** X11.  [createStreamSession] posts the stream group of the state as it
    is when the offer arrives, but polls with the stream group of the state
    as it is when [POST /] is answered: if the user edits the input in
    between, the session is created in one stream group and polled in
    another (the edited text, as [trim()] leaves it). *)
Theorem stream_group_polled_is_read_after_the_POST :
  forall env w h request token data token0 value,
    gameliftstreams w = Some h ->
    outcome (offer env) = Fulfilled request ->
    outcome (post_auth env) = Fulfilled token ->
    outcome (start_response env) = Fulfilled (Json data) ->
    outcome (get_auth env 0) = Fulfilled token0 ->
    let events := map snd (trace (world (fold_left step (edit_during_start env value)
                                                   (idle w)))) in
    firstn 2 events
    = [Get (Js.trim value) (arn data) (authorization token0); FetchAuthSession]
    /\ In (Post "/" (authorization token)
                (StartPayload (appId (state w)) (sgId (state w)) request
                              (regions (state w))))
          events.
Proof.
  intros env w h request token data token0 value Hh Ho Ha Hr Hg events.
  unfold events, edit_during_start, idle. cbn [fold_left].
  unfold step, run_op, createStreamSession. unfold_methods.
  rewrite Ho, Ha, Hr. cbn. rewrite Hh. cbn.
  rewrite waitForACTIVE_begins by reflexivity.
  unfold_methods. rewrite Hg. cbn.
  split; [reflexivity|]. do 3 right. left. reflexivity.
Qed.

(** X11 (witness): the input changed to [sg-2], typed with a no-break
    space before it and a space after it, while the session is created;
    the page offers each of the two handlers when it is started. *)
Lemma stream_group_polled_witness :
  let typed := Js.utf8 0xA0 ++ "sg-2 " in
  let schedule := edit_during_start active_at_third typed in
  let events := map snd (trace (world (fold_left step schedule
                                                 (idle (mounted 0))))) in
  offered_throughout schedule (idle (mounted 0)) = true
  /\ Js.trim typed = "sg-2"
  /\ firstn 2 events
     = [Get (Js.trim typed) (arn (session "ACTIVATING"))
            (authorization (Some "token"));
        FetchAuthSession]
  /\ In (Post "/" (authorization (Some "token"))
                (StartPayload (appId (state (mounted 0))) (sgId (state (mounted 0)))
                              "offer" (regions (state (mounted 0)))))
        events.
Proof.
  intros typed schedule events.
  split; [reflexivity|]. split; [reflexivity|].
  apply (stream_group_polled_is_read_after_the_POST
           active_at_third (mounted 0) 0%nat "offer" (Some "token")
           (session "ACTIVATING") (Some "token") typed);
    reflexivity.
Defined.


(** ** Controller: closing while the session is created *)

(** X12.  [closeConnection] does not cancel a [createStreamSession] that is
    in flight.  Once the [POST /] is sent, the handler goes on from
    whatever state and whatever [GameLiftStreams] object the component has
    when it is resumed: if the first poll then reports the session active
    and the transport engine accepts the answer on the object held by
    then, the answer is applied to that object and input is attached to
    it, and the component ends with status [RUNNING] and [lastSessionId]
    the ARN of the session.  After a [closeConnection] in between (which
    the page offers once another handler, such as a reconnect, has set
    the status [RUNNING]) that object is the replacement, which made no
    offer: the offer came from the object that was closed. *)
Theorem closing_does_not_cancel_a_start_in_flight :
  forall env w h request token data token0 active,
    gameliftstreams w = Some h ->
    outcome (offer env) = Fulfilled request ->
    outcome (post_auth env) = Fulfilled token ->
    outcome (start_response env) = Fulfilled (Json data) ->
    outcome (get_auth env 0) = Fulfilled token0 ->
    outcome (get_response env 0) = Fulfilled (Json active) ->
    session_status active = Some "ACTIVE" ->
    outcome (answer env (signalResponse active)) = Fulfilled tt ->
    let s := fold_left step (start_in_flight env) (idle w) in
    (exists t, tasks s = [t])
    /\ map snd (firstn 1 (trace (world s)))
       = [Post "/" (authorization token)
               (StartPayload (appId (state w)) (sgId (state w)) request
                             (regions (state w)))]
    /\ forall t w' h',
        tasks s = [t] ->
        gameliftstreams w' = Some h' ->
        let r := seq (resume t w') in
        let started :=
          set_isStreamStarting false (set_status RUNNING (state w')) in
        fst r = Returned tt
        /\ state (snd r) = set_lastSessionId (arn data) started
        /\ gameliftstreams (snd r) = Some h'
        /\ map snd (trace (snd r))
           = ([SetState (set_lastSessionId (arn data) started);
               SetState started;
               AttachInput h';
               ProcessSignalResponse h' (signalResponse active);
               Get (sgId (state w')) (arn data) (authorization token0);
               FetchAuthSession]
                ++ map snd (trace w'))%list.
Proof.
  intros env w h request token data token0 active
         Hh Ho Ha Hr Hg Hp Hs Hans s.
  unfold s, start_in_flight, idle. cbn [fold_left].
  advance ltac:(fun E => rewrite Hh in E; cbn in E; rewrite Ho in E).
  advance ltac:(fun E => rewrite Ha in E).
  advance ltac:(fun E => rewrite Hr in E).
  cbn [tasks world]. split; [eexists; reflexivity|]. split; [reflexivity|].
  intros t w' h' [= <-] Hh'. cbn [resume].
  rewrite waitForACTIVE_begins by reflexivity.
  unfold_methods. rewrite Hg. cbn. rewrite Hp. cbn. rewrite Hs. cbn.
  rewrite Hh'. cbn. rewrite Hans. cbn. rewrite Hh'. cbn.
  repeat split; exact Hh'.
Qed.

(** X12 (witness): while the start is in flight the user reconnects to
    another session and ends that stream, which the page offers; the start
    is in flight as before, and then goes on, on the object that replaced
    the closed one. *)
Lemma closing_does_not_cancel_witness :
  let env := outside (instantly (Json (session "ACTIVATING")))
                     (fun _ => instantly (Json (session "ACTIVE"))) in
  let before := fold_left step (start_in_flight env) (idle (mounted 0)) in
  let after := fold_left step (reconnect_and_close env) before in
  offered_throughout (start_in_flight env ++ reconnect_and_close env)
                     (idle (mounted 0)) = true
  /\ status (state (world after)) = STOPPED
  /\ gameliftstreams (world after) = Some 1%nat
  /\ tasks after = tasks before
  /\ forall t,
      tasks before = [t] ->
      let r := seq (resume t (world after)) in
      fst r = Returned tt
      /\ status (state (snd r)) = RUNNING
      /\ lastSessionId (state (snd r)) = arn (session "ACTIVATING")
      /\ firstn 4 (skipn 2 (map snd (trace (snd r))))
         = [AttachInput 1%nat; ProcessSignalResponse 1%nat "answer";
            Get "" (arn (session "ACTIVATING")) (authorization (Some "token"));
            FetchAuthSession].
Proof.
  intros env before after.
  split; [reflexivity|]. split; [reflexivity|]. split; [reflexivity|].
  split; [reflexivity|].
  intros t Ht.
  destruct (closing_does_not_cancel_a_start_in_flight
              env (mounted 0) 0%nat "offer" (Some "token")
              (session "ACTIVATING") (Some "token") (session "ACTIVE")
              eq_refl eq_refl eq_refl eq_refl eq_refl eq_refl eq_refl eq_refl)
    as (_ & _ & H).
  destruct (H t (world after) 1%nat Ht eq_refl) as (A & B & C & D).
  split; [exact A|]. rewrite B, D. repeat split.
Defined.

(** ** Session gateway: an ARN with fewer than three segments *)

(** X13.  The reconnect handler does not check the ARN.  For a session
    identifier without [/] (the empty text too) the index [parts.length - 2]
    is negative, and the control plane is called with no [Identifier];
    for one with a single [/] the [Identifier] is the text before it. *)
Theorem reconnect_with_a_short_ARN_names_no_stream_group :
  (forall createStreamSessionConnection arn signalRequest,
      Js.occurs Gateway.slash arn = false ->
      Gateway.sg_arn arn = None
      /\ fst (Gateway.handler createStreamSessionConnection
                {| Gateway.SessionIdentifier := arn;
                   Gateway.SignalRequest := signalRequest |})
         = {| Gateway.Identifier := None;
              Gateway.StreamSessionIdentifier := arn;
              Gateway.ConnectionSignalRequest := signalRequest |})
  /\ (forall before after,
         Js.occurs Gateway.slash before = false ->
         Js.occurs Gateway.slash after = false ->
         Gateway.sg_arn (before ++ String Gateway.slash after) = Some before).
Proof.
  split.
  - intros cp arn sr H.
    assert (E : Gateway.sg_arn arn = None).
    { unfold Gateway.sg_arn. now rewrite (split_no_sep _ _ H). }
    split; [exact E|]. unfold Gateway.handler, Gateway.connection_input.
    cbn [Gateway.SessionIdentifier Gateway.SignalRequest]. rewrite E.
    destruct (cp _); reflexivity.
  - intros before after Hb Ha. unfold Gateway.sg_arn.
    rewrite split_app, (split_no_sep _ _ Hb), (split_no_sep _ _ Ha).
    reflexivity.
Qed.

(** X13 (witness): [sess-1] and [sg-abc/sess-1]. *)
Lemma reconnect_with_a_short_ARN_witness :
  Gateway.sg_arn "sess-1" = None
  /\ Gateway.sg_arn ("sg-abc" ++ String Gateway.slash "sess-1") = Some "sg-abc".
Proof.
  pose proof reconnect_with_a_short_ARN_names_no_stream_group as [A B].
  split.
  - apply (A (fun _ => Gateway.Rejected "no") "sess-1" "offer"). reflexivity.
  - apply B; reflexivity.
Defined.

(** ** Percent-encoding *)

Section PercentEncoding.

Import Uri.

Lemma hex_value_digit k :
  (k < 16)%nat -> hex_value (hex_digit k) = Some k.
Proof.
  intros H. do 16 (destruct k as [|k]; [reflexivity|]). lia.
Qed.

Lemma unreserved_not_percent c :
  is_unreserved c = true -> Ascii.eqb c percent = false.
Proof.
  destruct (Ascii.eqb_spec c percent) as [->|]; [discriminate|reflexivity].
Qed.

Lemma nat_of_ascii_bound c : (nat_of_ascii c < 256)%nat.
Proof. destruct c as [[] [] [] [] [] [] [] []]; vm_compute; lia. Qed.

Lemma unescape_encoded_char c rest :
  exists escaped,
    unescape (encodeURIComponent (String c rest))
    = match unescape (encodeURIComponent rest) with
      | Some bytes => Some ((escaped, nat_of_ascii c) :: bytes)
      | None => None
      end.
Proof.
  cbn [encodeURIComponent]. destruct (is_unreserved c) eqn:U.
  - exists false. cbn [unescape]. now rewrite (unreserved_not_percent c U).
  - exists true. cbn [unescape].
    change (Ascii.eqb percent percent) with true. cbn iota.
    pose proof (nat_of_ascii_bound c) as B.
    set (n := nat_of_ascii c) in *.
    assert (Hq : (n / 16 < 16)%nat) by (apply Nat.Div0.div_lt_upper_bound; lia).
    assert (Hr : (n mod 16 < 16)%nat) by (apply Nat.mod_upper_bound; lia).
    rewrite (hex_value_digit _ Hq), (hex_value_digit _ Hr).
    rewrite <- (Nat.div_mod_eq n 16). reflexivity.
Qed.

Lemma well_formed_ascii (bytes : list (bool * nat)) :
  Forall (fun x => (snd x < 128)%nat) bytes -> well_formed bytes = true.
Proof.
  induction 1 as [|[e b] bytes Hb _ IH]; [reflexivity|].
  cbn in Hb. cbn [well_formed]. apply Nat.ltb_lt in Hb. rewrite Hb.
  destruct e; exact IH.
Qed.

Lemma unescape_encoded s :
  exists bytes,
    unescape (encodeURIComponent s) = Some bytes
    /\ text_of bytes = s
    /\ (is_ascii s = true -> Forall (fun x => (snd x < 128)%nat) bytes).
Proof.
  induction s as [|c s (bytes & E & T & A)].
  - exists []. repeat split. constructor.
  - destruct (unescape_encoded_char c s) as [escaped H].
    rewrite E in H. eexists. split; [exact H|]. split.
    + cbn. now rewrite ascii_nat_embedding, T.
    + cbn [is_ascii]. intros Hc. apply andb_true_iff in Hc as [Hc Hs].
      constructor; [cbn; now apply Nat.ltb_lt|auto].
Qed.

(** What [encodeURIComponent] makes of a text of ASCII characters,
    [decodeURIComponent] reads back. *)
Lemma decode_encode s :
  is_ascii s = true -> decodeURIComponent (encodeURIComponent s) = Some s.
Proof.
  intros H. unfold decodeURIComponent.
  destruct (unescape_encoded s) as (bytes & E & T & A).
  rewrite E, (well_formed_ascii bytes (A H)), T. reflexivity.
Qed.

(** The encoded text has no [/]. *)
Lemma encoded_no_slash s :
  Js.occurs Gateway.slash (encodeURIComponent s) = false.
Proof.
  induction s as [|c s IH]; [reflexivity|].
  cbn [encodeURIComponent]. destruct (is_unreserved c) eqn:U.
  - cbn [Js.occurs]. rewrite IH, orb_false_r.
    destruct (Ascii.eqb_spec c Gateway.slash) as [->|]; [discriminate|reflexivity].
  - pose proof (nat_of_ascii_bound c) as B.
    set (n := nat_of_ascii c) in *.
    assert (Hq : (n / 16 < 16)%nat) by (apply Nat.Div0.div_lt_upper_bound; lia).
    assert (Hr : (n mod 16 < 16)%nat) by (apply Nat.mod_upper_bound; lia).
    assert (D : forall k, (k < 16)%nat ->
                          Ascii.eqb (hex_digit k) Gateway.slash = false).
    { intros k Hk. do 16 (destruct k as [|k]; [reflexivity|]). lia. }
    cbn [Js.occurs]. rewrite (D _ Hq), (D _ Hr), IH. reflexivity.
Qed.

(** ** Session gateway: polling a session *)

(** X14.  The path that [waitForACTIVE] requests and the get-session
    handler fit together.  For a stream group and an ARN of ASCII
    characters, the path [/session/<sg>/<arn>] with both encoded has
    exactly the segments [session], the encoded stream group and the
    encoded ARN, whatever [/] and [:] the ARN contains; and the handler,
    given the two encoded segments as path parameters, asks the control
    plane for the stream group and the ARN that the client had. *)
Theorem the_session_polled_is_the_session_fetched :
  forall sg arn getStreamSession,
    Uri.is_ascii sg = true -> Uri.is_ascii arn = true ->
    Js.split Gateway.slash (Uri.session_path sg arn)
    = [""; "session"; Uri.encodeURIComponent sg; Uri.encodeURIComponent arn]
    /\ fst (GetSession.handler getStreamSession
              (Some {| GetSession.sg := Some (Uri.encodeURIComponent sg);
                       GetSession.arn := Some (Uri.encodeURIComponent arn) |}))
       = Some {| GetSession.Identifier := sg;
                 GetSession.StreamSessionIdentifier := arn |}.
Proof.
  intros sg arn cp Hsg Harn. split.
  - unfold Uri.session_path.
    change ("/session/" ++ Uri.encodeURIComponent sg ++ "/" ++ Uri.encodeURIComponent arn)
      with (String Gateway.slash
              ("session" ++ String Gateway.slash
                 (Uri.encodeURIComponent sg
                    ++ String Gateway.slash (Uri.encodeURIComponent arn)))).
    cbn [Js.split]. change (Ascii.eqb Gateway.slash Gateway.slash) with true.
    cbn iota.
    rewrite (split_app Gateway.slash "session" _), split_app,
      !(split_no_sep _ _ (encoded_no_slash _)).
    reflexivity.
  - unfold GetSession.handler, GetSession.decoded. cbn [GetSession.sg GetSession.arn].
    rewrite (decode_encode sg Hsg), (decode_encode arn Harn).
    destruct (cp _); reflexivity.
Qed.

(** X14 (witness): the second part at a stream group and a session ARN. *)
Lemma the_session_polled_witness :
  fst (GetSession.handler
         (fun _ => GetSession.Rejected "no session")
         (Some {| GetSession.sg := Some (Uri.encodeURIComponent "sg-abc");
                  GetSession.arn :=
                    Some (Uri.encodeURIComponent
                            "arn:aws:gameliftstreams:us-west-2:111122223333:streamsession/sg-abc/sess-1") |}))
  = Some {| GetSession.Identifier := "sg-abc";
            GetSession.StreamSessionIdentifier :=
              "arn:aws:gameliftstreams:us-west-2:111122223333:streamsession/sg-abc/sess-1" |}.
Proof.
  apply (proj2 (the_session_polled_is_the_session_fetched
                  "sg-abc"
                  "arn:aws:gameliftstreams:us-west-2:111122223333:streamsession/sg-abc/sess-1"
                  (fun _ => GetSession.Rejected "no session") eq_refl eq_refl)).
Defined.

Lemma unescape_dangling s :
  Js.occurs percent s = false -> unescape (s ++ "%") = None.
Proof.
  induction s as [|c s IH]; cbn [Js.occurs append unescape]; [reflexivity|].
  intros H. apply orb_false_iff in H as [Hc Hs].
  rewrite Hc, (IH Hs). reflexivity.
Qed.

(** A text without [%] is decoded as it is. *)
Lemma unescape_plain s :
  Js.occurs percent s = false ->
  exists bytes,
    unescape s = Some bytes /\ text_of bytes = s
    /\ Forall (fun x => fst x = false) bytes.
Proof.
  induction s as [|c s IH]; cbn [Js.occurs unescape].
  - exists []. repeat split. constructor.
  - intros H. apply orb_false_iff in H as [Hc Hs].
    destruct (IH Hs) as (bytes & E & T & F). rewrite Hc, E.
    eexists. split; [reflexivity|]. split.
    + cbn. now rewrite ascii_nat_embedding, T.
    + constructor; [reflexivity|exact F].
Qed.

Lemma well_formed_plain (bytes : list (bool * nat)) :
  Forall (fun x => fst x = false) bytes -> well_formed bytes = true.
Proof.
  induction 1 as [|[e b] bytes Hb _ IH]; [reflexivity|].
  cbn in Hb. subst e. exact IH.
Qed.

Lemma decode_plain s :
  Js.occurs percent s = false -> decodeURIComponent s = Some s.
Proof.
  intros H. unfold decodeURIComponent.
  destruct (unescape_plain s H) as (bytes & E & T & F).
  now rewrite E, (well_formed_plain bytes F), T.
Qed.

(** X15.  A path parameter that [decodeURIComponent] cannot decode (here:
    one that ends with a [%]) makes the get-session handler answer HTTP
    500 with the message of the [URIError], without calling the control
    plane, whichever of the two parameters it is.  Path parameters that
    are missing altogether are not refused: the control plane is asked for
    the stream group and the session named [undefined]. *)
Theorem a_path_parameter_that_cannot_be_decoded_is_refused :
  (forall getStreamSession text other,
      Js.occurs Uri.percent text = false ->
      let malformed := Some (text ++ "%") in
      GetSession.handler getStreamSession
        (Some {| GetSession.sg := malformed; GetSession.arn := other |})
      = (None, GetSession.failed GetSession.URI_malformed)
      /\ GetSession.handler getStreamSession
           (Some {| GetSession.sg := Some text; GetSession.arn := malformed |})
         = (None, GetSession.failed GetSession.URI_malformed))
  /\ (forall getStreamSession,
         fst (GetSession.handler getStreamSession None)
         = Some {| GetSession.Identifier := "undefined";
                   GetSession.StreamSessionIdentifier := "undefined" |}).
Proof.
  split.
  - intros cp text other Hp malformed.
    assert (D : GetSession.decoded malformed = None).
    { unfold GetSession.decoded, malformed, Uri.decodeURIComponent.
      now rewrite (unescape_dangling text Hp). }
    split.
    + unfold GetSession.handler. cbn [GetSession.sg GetSession.arn].
      now rewrite D.
    + unfold GetSession.handler. cbn [GetSession.sg GetSession.arn].
      unfold GetSession.decoded at 1. rewrite (decode_plain text Hp), D.
      reflexivity.
  - intros cp. unfold GetSession.handler.
    change (GetSession.decoded None) with (Some "undefined").
    cbv beta iota zeta.
    match goal with |- context [cp ?input] => destruct (cp input) end;
      reflexivity.
Qed.

(** X15 (witness): the stream group [sg-abc%]. *)
Lemma a_path_parameter_that_cannot_be_decoded_witness :
  GetSession.handler (fun _ => GetSession.Rejected "unused")
    (Some {| GetSession.sg := Some ("sg-abc" ++ "%"); GetSession.arn := None |})
  = (None, GetSession.failed GetSession.URI_malformed)
  /\ GetSession.handler (fun _ => GetSession.Rejected "unused")
       (Some {| GetSession.sg := Some "sg-abc";
                GetSession.arn := Some ("sg-abc" ++ "%") |})
     = (None, GetSession.failed GetSession.URI_malformed).
Proof.
  apply (proj1 a_path_parameter_that_cannot_be_decoded_is_refused
           (fun _ => GetSession.Rejected "unused") "sg-abc" None).
  reflexivity.
Defined.

End PercentEncoding.

(** ** Stats processor: which reports count *)

Section WhichReports.

Import Js Stats Samples.

Lemma on_report_pair_other clock l r :
  is_succeeded_pair r = false ->
  rtt (newNetworkStats (on_report clock l r)) = rtt (newNetworkStats l).
Proof.
  intros H. unfold on_report, on_candidate_pair. rewrite H.
  unfold on_inbound. destruct (String.eqb (type r) "inbound-rtp"); [|reflexivity].
  destruct (framesPerSecond r); reflexivity.
Qed.

Lemma on_report_pair clock l r :
  is_succeeded_pair r = true ->
  rtt (newNetworkStats (on_report clock l r)) = to_ms (currentRoundTripTime r).
Proof. intros H. unfold on_report, on_candidate_pair. now rewrite H. Qed.

Lemma on_report_inbound clock l r f :
  String.eqb (type r) "inbound-rtp" = true -> framesPerSecond r = Some f ->
  newFrameRate (on_report clock l r) = Some (Math_round f)
  /\ ns_jitter (newNetworkStats (on_report clock l r)) = to_ms (jitter r).
Proof.
  intros Ht Hf. unfold on_report, on_candidate_pair.
  rewrite (inbound_not_pair r Ht). unfold on_inbound. rewrite Ht, Hf.
  split; reflexivity.
Qed.

Lemma find_none_rev (p : Report -> bool) stats :
  find p (rev stats) = None -> Forall (fun r => p r = false) stats.
Proof.
  intros H. apply Forall_forall. intros r Hr.
  apply (find_none p (rev stats) H). now apply in_rev in Hr.
Qed.

Lemma processStats_last_reports clock o stats :
  let o' := processStats clock o stats in
  rtt (networkStats o')
  = match last_report is_succeeded_pair stats with
    | Some r => to_ms (currentRoundTripTime r)
    | None => rtt (networkStats o)
    end
  /\ ns_jitter (networkStats o')
     = match last_report is_inbound stats with
       | Some r => to_ms (jitter r)
       | None => ns_jitter (networkStats o)
       end
  /\ frameRate o'
     = match last_report is_inbound stats with
       | Some r => match framesPerSecond r with
                   | Some f => Some (Math_round f)
                   | None => None
                   end
       | None => frameRate o
       end
  /\ (last_report is_inbound stats = None ->
      bitrate (networkStats o') = bitrate (networkStats o)).
Proof.
  intros o'.
  assert (B : last_report is_inbound stats = None ->
              bitrate (networkStats o') = bitrate (networkStats o)).
  { intros H. apply find_none_rev in H. unfold o', processStats. cbn zeta.
    match goal with
    | |- context [fold_left (on_report clock) stats ?l] =>
        destruct (fold_on_report_other clock stats l H) as (_ & _ & E & _)
    end.
    cbn [networkStats]. rewrite E. unfold init_tracking. cbn.
    destruct (negb (truthy (previousBytesReceived (refs o)))); reflexivity. }
  cut (rtt (networkStats o')
       = match last_report is_succeeded_pair stats with
         | Some r => to_ms (currentRoundTripTime r)
         | None => rtt (networkStats o)
         end
       /\ ns_jitter (networkStats o')
          = match last_report is_inbound stats with
            | Some r => to_ms (jitter r)
            | None => ns_jitter (networkStats o)
            end
       /\ frameRate o'
          = match last_report is_inbound stats with
            | Some r => match framesPerSecond r with
                        | Some f => Some (Math_round f)
                        | None => None
                        end
            | None => frameRate o
            end); [tauto|].
  clear B. unfold o'. clear o'. unfold processStats. cbn zeta.
  set (l0 := init_tracking clock _).
  assert (H0 : rtt (newNetworkStats l0) = rtt (networkStats o)
               /\ ns_jitter (newNetworkStats l0) = ns_jitter (networkStats o)
               /\ newFrameRate l0 = frameRate o).
  { unfold l0, init_tracking. cbn.
    destruct (negb (truthy (previousBytesReceived (refs o)))); auto. }
  destruct H0 as (R0 & J0 & F0). rewrite <- R0, <- J0, <- F0. clear R0 J0 F0.
  generalize l0. clear l0. unfold last_report.
  induction stats as [|r stats IH] using rev_ind; intros l; cbn [networkStats frameRate].
  - cbn. auto.
  - rewrite fold_left_app, rev_app_distr. cbn [fold_left rev app find].
    destruct (IH l) as (R & J & F). cbn [networkStats frameRate] in R, J, F.
    set (lp := fold_left (on_report clock) stats l) in *.
    split; [|].
    + destruct (is_succeeded_pair r) eqn:P.
      * now apply on_report_pair.
      * rewrite (on_report_pair_other clock lp r P). exact R.
    + destruct (is_inbound r) eqn:I.
      * destruct (is_inbound_inv r I) as [Ht [f Hf]].
        destruct (on_report_inbound clock lp r f Ht Hf) as [A B].
        rewrite A, B, Hf. split; reflexivity.
      * destruct (on_report_other clock lp r I) as (A & B & _).
        rewrite A, B. split; assumption.
Qed.

(** X16.  A tick of the stats timer starts from the statistics of the
    render that armed the timer, not from what the overlay shows by then.
    Of the reports of its sample, the last succeeded candidate pair gives
    the round-trip time and the last inbound media report that carries a
    frame rate gives the jitter and the frame rate (an [inbound-rtp] report
    without [framesPerSecond] does not count); a metric for which the
    sample has no such report goes back to the value of the arming render,
    and so does the bitrate of a sample without an inbound media report
    that counts.  So what one tick has shown is gone after the next tick
    whose sample has no report for it. *)
Theorem a_tick_starts_from_the_render_that_armed_the_timer :
  (forall clock armed o stats,
      let o' := tick clock armed o stats in
      rtt (networkStats o')
      = match last_report is_succeeded_pair stats with
        | Some r => to_ms (currentRoundTripTime r)
        | None => rtt (networkStats armed)
        end
      /\ ns_jitter (networkStats o')
         = match last_report is_inbound stats with
           | Some r => to_ms (jitter r)
           | None => ns_jitter (networkStats armed)
           end
      /\ frameRate o'
         = match last_report is_inbound stats with
           | Some r => match framesPerSecond r with
                       | Some f => Some (Math_round f)
                       | None => None
                       end
           | None => frameRate armed
           end
      /\ (last_report is_inbound stats = None ->
          bitrate (networkStats o') = bitrate (networkStats armed)))
  /\ (forall r, framesPerSecond r = None -> is_inbound r = false)
  /\ (forall clock1 clock2 armed o stats1 stats2,
         last_report is_succeeded_pair stats2 = None ->
         let o1 := tick clock1 armed o stats1 in
         let o2 := tick clock2 armed o1 stats2 in
         rtt (networkStats o2) = rtt (networkStats armed)).
Proof.
  split; [|split].
  - intros clock armed o stats. unfold tick.
    apply (processStats_last_reports clock
             {| networkStats := networkStats armed; frameRate := frameRate armed;
                refs := refs o |} stats).
  - intros r H. unfold is_inbound. rewrite H. apply andb_false_r.
  - intros clock1 clock2 armed o stats1 stats2 H o1 o2. unfold o2, tick.
    destruct (processStats_last_reports clock2
                {| networkStats := networkStats armed; frameRate := frameRate armed;
                   refs := refs o1 |} stats2) as (R & _).
    rewrite R, H. reflexivity.
Qed.

(** X16 (witness): on an overlay armed before its first sample, a
    round-trip time of 42 ms shown by one tick is gone after the next
    tick, whose sample has no candidate pair. *)
Lemma a_tick_starts_from_the_render_witness :
  let stats1 := [candidate_pair "succeeded" (Some 0.042%float);
                 inbound (Some 60%float) None (Some 1000000%float)] in
  let stats2 := [inbound (Some 60%float) None (Some 2000000%float)] in
  let o1 := tick (fun _ => 0%float) initial initial stats1 in
  let o2 := tick (fun _ => 1000%float) initial o1 stats2 in
  rtt_text o1 = Shown (Integer 42)
  /\ rtt_text o2 = Placeholder
  /\ rtt (networkStats o2) = rtt (networkStats initial).
Proof.
  intros stats1 stats2 o1 o2.
  split; [reflexivity|]. split; [reflexivity|].
  apply (proj2 (proj2 a_tick_starts_from_the_render_that_armed_the_timer)
           (fun _ => 0%float) (fun _ => 1000%float) initial initial stats1 stats2).
  reflexivity.
Defined.

End WhichReports.

(** ** Stats processor: a sample in the millisecond of the baseline *)

Section NoElapsedTime.

Import Js Stats.

Local Open Scope float_scope.

Lemma div_zero_by_1000 x :
  is_zero x = true -> is_zero (x / 1000) = true.
Proof.
  unfold is_zero. rewrite div_spec.
  destruct (Prim2SF x); try discriminate. intros _. reflexivity.
Qed.

Lemma div_by_zero x z s m e :
  Prim2SF x = S754_finite s m e -> is_zero z = true ->
  exists s', Prim2SF (x / z) = S754_infinity s'.
Proof.
  unfold is_zero. intros Hx. rewrite div_spec, Hx.
  destruct (Prim2SF z); try discriminate. intros _. cbn. eauto.
Qed.

Lemma zero_by_zero x z :
  is_zero x = true -> is_zero z = true -> Prim2SF (x / z) = S754_nan.
Proof.
  unfold is_zero. rewrite div_spec.
  destruct (Prim2SF x); try discriminate.
  destruct (Prim2SF z); try discriminate. reflexivity.
Qed.

Lemma infinity_by_1000000 x s :
  Prim2SF x = S754_infinity s -> Prim2SF (x / 1000000) = S754_infinity s.
Proof. intros H. rewrite div_spec, H. destruct s; reflexivity. Qed.

Lemma nan_by_1000000 x :
  Prim2SF x = S754_nan -> Prim2SF (x / 1000000) = S754_nan.
Proof. intros H. rewrite div_spec, H. reflexivity. Qed.

Lemma bitrate_text_without_elapsed_time bytes prevBytes now prevTs :
  is_zero (now - prevTs) = true ->
  (forall s m e,
      Prim2SF ((bytes - prevBytes) * 8) = S754_finite s m e ->
      bitrate_text bytes prevBytes now prevTs = Text "Infinity"
      \/ bitrate_text bytes prevBytes now prevTs = Text "-Infinity")
  /\ (is_zero ((bytes - prevBytes) * 8) = true ->
      bitrate_text bytes prevBytes now prevTs = Text "NaN").
Proof.
  intros Hz.
  pose proof (div_zero_by_1000 _ Hz) as Hd.
  unfold bitrate_text. split.
  - intros s m e Hb.
    destruct (div_by_zero _ _ s m e Hb Hd) as [s' Hi].
    apply infinity_by_1000000 in Hi. unfold toFixed2. rewrite Hi.
    destruct s'; auto.
  - intros Hb. pose proof (zero_by_zero _ _ Hb Hd) as Hn.
    apply nan_by_1000000 in Hn. unfold toFixed2. now rewrite Hn.
Qed.

(** X17.  The bitrate is computed without a guard against a time
    difference of zero.  For a sample taken in the millisecond of the
    baseline ([Date.now()] equal to [previousTimestamp]), the overlay shows
    the bitrate [Infinity] or [-Infinity] when the byte count has changed,
    and [NaN] when it has not. *)
Theorem bitrate_without_elapsed_time_is_no_number :
  forall clock o r bytes,
    is_inbound r = true ->
    truthy (previousBytesReceived (refs o)) = true ->
    bytesReceived r = Some bytes -> truthy bytes = true ->
    is_zero (clock 0%nat - previousTimestamp (refs o)) = true ->
    let o' := processStats clock o [r] in
    let bits := (bytes - previousBytesReceived (refs o)) * 8 in
    (forall s m e,
        Prim2SF bits = S754_finite s m e ->
        bitrate_shown o' = Shown (Text "Infinity")
        \/ bitrate_shown o' = Shown (Text "-Infinity"))
    /\ (is_zero bits = true -> bitrate_shown o' = Shown (Text "NaN")).
Proof.
  intros clock o r bytes Hr Hp Hb Hbt Hz o' bits.
  assert (E : bitrate (networkStats o')
              = Some (bitrate_text bytes (previousBytesReceived (refs o))
                                   (clock 0%nat) (previousTimestamp (refs o)))).
  { destruct (processStats_one_inbound clock o [] r [] (Forall_nil _)
                (Forall_nil _) Hr) as [Eb _].
    cbn [app] in Eb. fold o' in Eb. rewrite Eb.
    destruct (is_inbound_inv r Hr) as [Ht [f Hf]].
    unfold init_tracking, on_inbound. simpl. rewrite Hp. simpl.
    rewrite Ht, Hf, Hb, Hbt, Hp. reflexivity. }
  destruct (bitrate_text_without_elapsed_time
              bytes (previousBytesReceived (refs o)) (clock 0%nat)
              (previousTimestamp (refs o)) Hz) as [A B].
  unfold bitrate_shown. rewrite E. split.
  - intros s m e Hf. destruct (A s m e Hf) as [-> | ->]; auto.
  - intros Hn. rewrite (B Hn). reflexivity.
Qed.

(** X17 (witness): a second sample at the time of the baseline, with more
    bytes and with the same bytes. *)
Lemma bitrate_without_elapsed_time_witness :
  (let o := {| networkStats := networkStats initial; frameRate := None;
               refs := {| previousBytesReceived := 1000000;
                          previousTimestamp := 1000 |} |} in
   let o' := processStats (fun _ => 1000) o
               [inbound (Some 60) None (Some 2000000)] in
   bitrate_shown o' = Shown (Text "Infinity")
   \/ bitrate_shown o' = Shown (Text "-Infinity"))
  /\ (let o := {| networkStats := networkStats initial; frameRate := None;
                  refs := {| previousBytesReceived := 1000000;
                             previousTimestamp := 1000 |} |} in
      let o' := processStats (fun _ => 1000) o
                  [inbound (Some 60) None (Some 1000000)] in
      bitrate_shown o' = Shown (Text "NaN")).
Proof.
  split.
  - intros o.
    refine (proj1 (bitrate_without_elapsed_time_is_no_number
                     (fun _ => 1000) o (inbound (Some 60) None (Some 2000000))
                     2000000 eq_refl eq_refl eq_refl eq_refl eq_refl)
                  _ _ _ eq_refl).
  - intros o.
    apply (proj2 (bitrate_without_elapsed_time_is_no_number
                    (fun _ => 1000) o (inbound (Some 60) None (Some 1000000))
                    1000000 eq_refl eq_refl eq_refl eq_refl eq_refl)).
    reflexivity.
Defined.

End NoElapsedTime.

(** ** Stats overlay: the polling timer *)

Section PollingTimer.

Import StatsLogging.

Lemma one_timer_start s : one_timer s -> one_timer (startStatsLogging s).
Proof.
  intros [T B]. unfold startStatsLogging, one_timer.
  destruct (statsIntervalRef s) as [t|]; cbn.
  - rewrite T. cbn. rewrite Nat.eqb_refl. cbn. split; [reflexivity|lia].
  - rewrite T. split; [reflexivity|lia].
Qed.

Lemma one_timer_stop s :
  one_timer s ->
  one_timer (stopStatsLogging s) /\ ticking (stopStatsLogging s) = [].
Proof.
  intros [T B]. unfold stopStatsLogging, one_timer.
  destruct (statsIntervalRef s) as [t|] eqn:E; cbn.
  - rewrite T. cbn. rewrite Nat.eqb_refl. cbn. auto.
  - rewrite E. auto.
Qed.

Lemma one_timer_call s c : one_timer s -> one_timer (call s c).
Proof.
  intros H. destruct c as [v|v r|]; cbn.
  - destruct (negb v); [now apply one_timer_start|now apply one_timer_stop].
  - destruct (v && r)%bool; [now apply one_timer_start|now apply one_timer_stop].
  - now apply one_timer_stop.
Qed.

(** X18.  After any sequence of [toggleStats] calls, runs of the
    visibility effect and unmounts, at most one interval timer ticks, the
    one that [statsIntervalRef] holds.  A call that ends in
    [stopStatsLogging] leaves no timer ticking; one that ends in
    [startStatsLogging] leaves exactly one, a new one. *)
Theorem at_most_one_stats_timer_ticks :
  forall calls,
    let s := fold_left call calls no_timers in
    (ticking s = match statsIntervalRef s with Some t => [t] | None => [] end)
    /\ (List.length (ticking s) <= 1)%nat
    /\ (forall c, stops c = true -> ticking (call s c) = [])
    /\ (forall c, stops c = false ->
                  ticking (call s c) = [S (issued s)]
                  /\ ~ In (S (issued s)) (ticking s)).
Proof.
  intros calls s.
  assert (H : one_timer s).
  { unfold s. generalize no_timers, (conj eq_refl I : one_timer no_timers).
    induction calls as [|c calls IH]; intros s0 H0; cbn; [exact H0|].
    apply IH, one_timer_call, H0. }
  pose proof H as [T B]. split; [exact T|]. split.
  - rewrite T. destruct (statsIntervalRef s); cbn; lia.
  - split.
    + intros c Hc.
      destruct c as [v|v r|]; cbn in *;
        [rewrite Hc; cbn|destruct (v && r)%bool; [discriminate|]|];
        now apply one_timer_stop.
    + intros c Hc.
      assert (E : call s c = startStatsLogging s).
      { destruct c as [v|v r|]; cbn in *;
          [rewrite Hc; reflexivity
          |destruct (v && r)%bool; [reflexivity|discriminate]
          |discriminate]. }
      rewrite E. split.
      * unfold startStatsLogging.
        destruct (statsIntervalRef s) as [t|] eqn:R; cbn; rewrite T; cbn;
          [rewrite Nat.eqb_refl|]; reflexivity.
      * rewrite T. destruct (statsIntervalRef s) as [t|]; cbn; [|tauto].
        intros [F|[]]. lia.
Qed.

(** X18 (witness): after the effect and a toggle, an unmount and another
    toggle. *)
Lemma at_most_one_stats_timer_witness :
  let s := fold_left call [VisibilityEffect true true; ToggleStats true]
                     no_timers in
  ticking (call s Unmount) = []
  /\ ticking (call s (ToggleStats false)) = [S (issued s)].
Proof.
  intros s.
  pose proof (at_most_one_stats_timer_ticks
                [VisibilityEffect true true; ToggleStats true])
    as (_ & _ & A & B).
  split; [apply A; reflexivity|apply B; reflexivity].
Defined.

End PollingTimer.

(** ** Stat bars *)

Section StatBars.

Import Js Stats Bars.

Local Open Scope float_scope.

Lemma float_ltb_leb x y : (x <? y) = true -> (x <=? y) = true.
Proof.
  rewrite ltb_spec, leb_spec. unfold SFltb, SFleb.
  destruct (SFcompare (Prim2SF x) (Prim2SF y)) as [[]|]; congruence.
Qed.

Lemma SFcompare_antisym a b :
  SFcompare b a = option_map CompOpp (SFcompare a b).
Proof.
  destruct a as [sa|sa| |sa ma ea], b as [sb|sb| |sb mb eb]; cbn;
    try reflexivity; try (destruct sa; reflexivity);
    try (destruct sb; reflexivity);
    try (destruct sa, sb; reflexivity).
  f_equal. rewrite (Z.compare_antisym ea eb).
  change (Pos.compare_cont Eq mb ma) with (Pos.compare mb ma).
  change (Pos.compare_cont Eq ma mb) with (Pos.compare ma mb).
  rewrite (Pos.compare_antisym ma mb).
  destruct sa, sb; try reflexivity;
    destruct (ea ?= eb)%Z; cbn; try reflexivity;
    destruct (ma ?= mb)%positive; reflexivity.
Qed.

Lemma SFcompare_some a b :
  a <> S754_nan -> b <> S754_nan -> exists c, SFcompare a b = Some c.
Proof.
  intros Ha Hb.
  destruct a as [sa|sa| |sa ma ea], b as [sb|sb| |sb mb eb]; cbn;
    try congruence; eauto.
Qed.

Lemma isNaN_false x : isNaN x = false -> Prim2SF x <> S754_nan.
Proof. unfold isNaN. intros H E. rewrite E in H. discriminate. Qed.

(** Of two numbers one is at most the other. *)
Lemma float_not_ltb_leb x y :
  isNaN x = false -> isNaN y = false -> (y <? x) = false -> (x <=? y) = true.
Proof.
  intros Hx Hy. rewrite ltb_spec, leb_spec. unfold SFltb, SFleb.
  rewrite SFcompare_antisym.
  destruct (SFcompare_some _ _ (isNaN_false x Hx) (isNaN_false y Hy)) as [c ->].
  destruct c; cbn; congruence.
Qed.

Lemma float_ltb_irrefl x : (x <? x) = false.
Proof.
  rewrite ltb_spec. unfold SFltb.
  pose proof (SFcompare_antisym (Prim2SF x) (Prim2SF x)) as H.
  destruct (SFcompare (Prim2SF x) (Prim2SF x)) as [[]|]; cbn in H;
    congruence.
Qed.

Lemma float_leb_refl x : isNaN x = false -> (x <=? x) = true.
Proof. intros H. apply float_not_ltb_leb; auto using float_ltb_irrefl. Qed.

(** [Math.min] of two numbers is at most either. *)
Lemma Math_min_below x y :
  isNaN x = false -> isNaN y = false ->
  (Math_min x y <=? x) = true /\ (Math_min x y <=? y) = true.
Proof.
  intros Hx Hy. unfold Math_min. rewrite Hx, Hy. cbn [orb].
  destruct (x <? y) eqn:L.
  - split; [now apply float_leb_refl|now apply float_ltb_leb].
  - destruct (y <? x) eqn:G.
    + split; [now apply float_ltb_leb|now apply float_leb_refl].
    + assert (A : (x <=? y) = true) by now apply float_not_ltb_leb.
      assert (B : (y <=? x) = true) by now apply float_not_ltb_leb.
      destruct (Prim2SF y) as [[]| | |]; split;
        auto using float_leb_refl.
Qed.

Lemma isNaN_parseFloat v : isNaN (parseFloat v) = isNaN v.
Proof.
  unfold parseFloat, is_zero, isNaN.
  destruct (Prim2SF v) eqn:E; rewrite ?E; reflexivity.
Qed.

(** X19.  A stat line without a number (the value is [undefined] or not a
    number) has no bar and shows the placeholder.  For a number the bar is
    never wider than 100%, and the line shows the number to the nearest
    hundredth with two decimals: for a finite [m * 2^e] below [10^21], the
    integer nearest to a hundred times it (the larger one on a tie) with a
    point before its last two digits, after a minus sign if it is
    negative; zero is shown as [0.00] (the network statistics show the
    placeholder for zero). *)
Theorem a_stat_bar_is_never_wider_than_full :
  forall maxValue threshold showDivider suffix secondaryText,
    let bar value := createStatBar value maxValue threshold showDivider suffix
                                   secondaryText in
    (fill (bar None) = None /\ text (bar None) = Placeholder)
    /\ (forall v, isNaN v = true ->
                  fill (bar (Some v)) = None /\ text (bar (Some v)) = Placeholder)
    /\ (forall v, isNaN v = false ->
                  exists width,
                    fill (bar (Some v))
                    = Some (parseFloat v <=? threshold, width)
                    /\ (isNaN width = true \/ (width <=? 100) = true))
    /\ (forall v s m e,
           Prim2SF v = S754_finite s m e ->
           (0 <= e -> Z.pos m * 2 ^ e < 10 ^ 21)%Z ->
           exists n,
             text (bar (Some v))
             = Shown (Text ((if s then "-" else "")
                              ++ digits (n / 100) ++ "."
                              ++ String (ascii_of_nat
                                           (48 + Z.to_nat (n mod 100 / 10))) ""
                              ++ String (ascii_of_nat (48 + Z.to_nat (n mod 10))) ""))
             /\ option_map N.of_uint (NilZero.uint_of_string (digits (n / 100)))
                = Some (Z.to_N (n / 100))
             /\ (0 <= n)%Z
             /\ (0 <= e -> n = Z.pos m * 100 * 2 ^ e)%Z
             /\ (e < 0 ->
                 (2 * n - 1) * 2 ^ (- e) <= 2 * (Z.pos m * 100)
                 < (2 * n + 1) * 2 ^ (- e))%Z)
    /\ (forall v, is_zero v = true -> text (bar (Some v)) = Shown (Text "0.00")).
Proof.
  intros maxValue threshold showDivider suffix secondaryText bar.
  unfold bar, createStatBar. split; [split; reflexivity|].
  split; [|split; [|split]].
  - intros v V. rewrite isNaN_parseFloat, V. split; reflexivity.
  - intros v V. rewrite isNaN_parseFloat, V. cbn.
    eexists. split; [reflexivity|].
    destruct (isNaN (parseFloat v / maxValue * 100)) eqn:P.
    + left. unfold Math_min. rewrite P. reflexivity.
    + right. now apply Math_min_below.
  - intros v s m e Hv Hsmall.
    assert (V : isNaN v = false) by (unfold isNaN; now rewrite Hv).
    assert (Z : parseFloat v = v)
      by (unfold parseFloat, is_zero; now rewrite Hv).
    rewrite isNaN_parseFloat, V, Z. cbn [text].
    destruct (toFixed2_nearest_hundredth v s m e Hv Hsmall) as (n & A & B & C & D).
    exists n. rewrite A. split; [reflexivity|].
    split; [apply digits_read_back|]. split; [exact B|]. split; [exact C|exact D].
  - intros v Z.
    assert (V : isNaN v = false)
      by (unfold is_zero in Z; unfold isNaN; destruct (Prim2SF v);
          try discriminate; reflexivity).
    rewrite isNaN_parseFloat, V. cbn. unfold parseFloat. rewrite Z. reflexivity.
Qed.

(** X19 (witness): the memory line of the application at a number that is
    not a number, at 0.125 (shown as [0.13], the tie going up) and at
    zero; and the line of the instance at 250 of 100, full and no more. *)
Lemma a_stat_bar_witness :
  (fill (application_memory (Some nan) None) = None
   /\ text (application_memory (Some nan) None) = Placeholder)
  /\ text (application_memory (Some 0.125) (Some 2048)) = Shown (Text "0.13")
  /\ (exists n,
         text (application_memory (Some 0.125) (Some 2048))
         = Shown (Text ("" ++ digits (n / 100) ++ "."
                           ++ String (ascii_of_nat
                                        (48 + Z.to_nat (n mod 100 / 10))) ""
                           ++ String (ascii_of_nat (48 + Z.to_nat (n mod 10))) ""))
         /\ ((2 * n - 1) * 2 ^ 55 <= 2 * (4503599627370496 * 100)
             < (2 * n + 1) * 2 ^ 55)%Z)
  /\ fill (createStatBar (Some 250) 100 90 false "%" NoText)
     = Some (false, 100)
  /\ text (application_memory (Some 0) None) = Shown (Text "0.00").
Proof.
  pose proof (a_stat_bar_is_never_wider_than_full 1 1 false "" NoText)
    as (_ & A & _ & _ & C).
  pose proof (a_stat_bar_is_never_wider_than_full
                1 1 false "" (formatMBtoGB (Some 2048))) as (_ & _ & _ & B & _).
  split; [apply (A nan); reflexivity|].
  split; [reflexivity|]. split; [|split; [reflexivity|apply (C 0); reflexivity]].
  assert (H : Prim2SF 0.125 = S754_finite false 4503599627370496 (-55))
    by reflexivity.
  destruct (B 0.125 false 4503599627370496%positive (-55)%Z H)
    as (n & E & _ & _ & _ & N); [lia|].
  exists n. split; [exact E|]. apply N. reflexivity.
Defined.

End StatBars.
